(** * Personal Banking App: domain layer and alert evaluator

    A shallow embedding of [models.py] (the SQLite-backed domain services and
    the due-date rollover rule) and of the alert evaluator of [gui.py]
    ([check_recurring_payments], [check_budget]), followed by the properties
    of the specification stated over that embedding.

    Conventions.
    - The SQLite store is a record of tables; a table is the list of its rows
      in rowid order together with its AUTOINCREMENT counter.  Every domain
      operation opens a connection, runs its statements, commits and closes,
      so an operation is a function from the store to either an exception
      (nothing committed) or a value and the committed store.
    - Python exceptions are values of [exn]; a computation that may raise
      returns [result].
    - TEXT columns are strings, INTEGER columns are [Z].  A Python float is
      an IEEE 754 binary64 number, with the operations of [SpecFloat]: every
      addition rounds to nearest, ties to even.  A REAL NOT NULL column
      holds such a number other than NaN and negative zero ([real]).
    - [datetime.date] is a record of year, month and day; the constructor
      checks of the Python type (MINYEAR = 1, MAXYEAR = 9999, day within the
      month) are written out. *)

From Stdlib Require Import ZArith List String Ascii Bool Lia SpecFloat.
From Stdlib Require Import Permutation Sorted.
Import ListNotations.

Set Implicit Arguments.
Open Scope string_scope.
Open Scope list_scope.
Open Scope Z_scope.

(** ** Exceptions and results *)

Inductive exn : Type :=
| ValueError (msg : string)
| AttributeError (msg : string)
| OverflowError (msg : string)
| IntegrityError (msg : string).

Inductive result (A : Type) : Type :=
| Ok (a : A)
| Raise (e : exn).

Arguments Ok {A} a.
Arguments Raise {A} e.

Definition bind {A B : Type} (c : result A) (k : A -> result B) : result B :=
  match c with
  | Ok a => k a
  | Raise e => Raise e
  end.

Notation "x <- c ;; k" := (bind c (fun x => k))
  (at level 61, c at next level, right associativity).

Definition is_ok {A : Type} (c : result A) : bool :=
  match c with Ok _ => true | Raise _ => false end.

(** ** [datetime.date] *)

Module Datetime.

Record date : Type := mkdate { year : Z; month : Z; day : Z }.

Definition MINYEAR : Z := 1.
Definition MAXYEAR : Z := 9999.
Definition MAXORDINAL : Z := 3652059.

Definition is_leap (y : Z) : bool :=
  (y mod 4 =? 0) && (negb (y mod 100 =? 0) || (y mod 400 =? 0)).

(** [_DAYS_IN_MONTH], indexed from 1. *)
Definition DAYS_IN_MONTH (m : Z) : Z :=
  match m with
  | 1 => 31 | 2 => 28 | 3 => 31 | 4 => 30 | 5 => 31 | 6 => 30
  | 7 => 31 | 8 => 31 | 9 => 30 | 10 => 31 | 11 => 30 | 12 => 31
  | _ => 0
  end.

(** [_DAYS_BEFORE_MONTH], indexed from 1. *)
Definition DAYS_BEFORE_MONTH (m : Z) : Z :=
  match m with
  | 1 => 0 | 2 => 31 | 3 => 59 | 4 => 90 | 5 => 120 | 6 => 151
  | 7 => 181 | 8 => 212 | 9 => 243 | 10 => 273 | 11 => 304 | 12 => 334
  | _ => 0
  end.

Definition days_in_month (y m : Z) : Z :=
  if (m =? 2) && is_leap y then 29 else DAYS_IN_MONTH m.

Definition days_before_year (y : Z) : Z :=
  let y := y - 1 in y * 365 + y / 4 - y / 100 + y / 400.

Definition days_before_month (y m : Z) : Z :=
  DAYS_BEFORE_MONTH m + (if (2 <? m) && is_leap y then 1 else 0).

(** The field check of the [date] constructor. *)
Definition valid_fields (y m d : Z) : bool :=
  (MINYEAR <=? y) && (y <=? MAXYEAR) &&
  (1 <=? m) && (m <=? 12) &&
  (1 <=? d) && (d <=? days_in_month y m).

Definition valid_date (d : date) : bool :=
  valid_fields (year d) (month d) (day d).

(** [datetime(y, m, d).date()]: [ValueError] when a field is out of range. *)
Definition datetime_date (y m d : Z) : result date :=
  if valid_fields y m d then Ok (mkdate y m d)
  else Raise (ValueError "date field out of range").

(** [date.toordinal()], i.e. [_ymd2ord]. *)
Definition toordinal (d : date) : Z :=
  days_before_year (year d) + days_before_month (year d) (month d) + day d.

(** [date.fromordinal(n)], i.e. [_ord2ymd]. *)
Definition fromordinal (n : Z) : date :=
  let n := n - 1 in
  let n400 := n / 146097 in
  let n := n mod 146097 in
  let y := n400 * 400 + 1 in
  let n100 := n / 36524 in
  let n := n mod 36524 in
  let n4 := n / 1461 in
  let n := n mod 1461 in
  let n1 := n / 365 in
  let n := n mod 365 in
  let y := y + n100 * 100 + n4 * 4 + n1 in
  if (n1 =? 4) || (n100 =? 4) then mkdate (y - 1) 12 31
  else
    let leapyear := (n1 =? 3) && (negb (n4 =? 24) || (n100 =? 3)) in
    let m := Z.shiftr (n + 50) 5 in
    let preceding :=
      DAYS_BEFORE_MONTH m + (if (2 <? m) && leapyear then 1 else 0) in
    if n <? preceding then
      let m := m - 1 in
      let preceding :=
        preceding -
        (DAYS_IN_MONTH m + (if (m =? 2) && leapyear then 1 else 0)) in
      mkdate y m (n - preceding + 1)
    else mkdate y m (n - preceding + 1).

(** [d + timedelta(days=k)]. *)
Definition add_days (d : date) (k : Z) : result date :=
  let o := toordinal d + k in
  if (0 <? o) && (o <=? MAXORDINAL) then Ok (fromordinal o)
  else Raise (OverflowError "date value out of range").

(** [(d1 - d2).days]. *)
Definition sub_days (d1 d2 : date) : Z := toordinal d1 - toordinal d2.

(** [d.replace(day=1)]; the first of a month always passes the field
    check of a valid date. *)
Definition replace_day1 (d : date) : date := mkdate (year d) (month d) 1.

(** *** Formatting and parsing *)

Definition digit (n : Z) : ascii := ascii_of_nat (48 + Z.to_nat (n mod 10)).

Definition pad2 (n : Z) : string :=
  String (digit (n / 10)) (String (digit n) EmptyString).

Definition pad4 (n : Z) : string :=
  String (digit (n / 1000)) (String (digit (n / 100)) (pad2 n)).

(** [%Y] of the C library's [strftime], which Python calls: the year in
    decimal with no padding, so three digits for the year 999.  The years
    of a [date] are 1 to 9999. *)
Definition decimal_year (y : Z) : string :=
  if y <? 10 then String (digit y) EmptyString
  else if y <? 100 then pad2 y
  else if y <? 1000 then String (digit (y / 100)) (pad2 y)
  else pad4 y.

(** [d.strftime('%Y-%m-%d')]. *)
Definition strftime_ymd (d : date) : string :=
  (decimal_year (year d) ++ "-" ++ pad2 (month d) ++ "-"
                         ++ pad2 (day d))%string.

(** [d.strftime('%Y-%m')]. *)
Definition strftime_ym (d : date) : string :=
  (decimal_year (year d) ++ "-" ++ pad2 (month d))%string.

Definition digit_val (c : ascii) : option Z :=
  let n := Z.of_nat (nat_of_ascii c) in
  if (48 <=? n) && (n <=? 57) then Some (n - 48) else None.

Definition in_range (lo hi : Z) (c : ascii) : option Z :=
  match digit_val c with
  | Some v => if (lo <=? v) && (v <=? hi) then Some v else None
  | None => None
  end.

(** Two characters, the first in [[a1, b1]] and the second in [[a2, b2]]. *)
Definition two (a1 b1 a2 b2 : Z) (s : string) : option (Z * string) :=
  match s with
  | String c1 (String c2 r) =>
      match in_range a1 b1 c1, in_range a2 b2 c2 with
      | Some v1, Some v2 => Some (10 * v1 + v2, r)
      | _, _ => None
      end
  | _ => None
  end.

Definition one (a b : Z) (s : string) : option (Z * string) :=
  match s with
  | String c r =>
      match in_range a b c with Some v => Some (v, r) | None => None end
  | _ => None
  end.

Definition space_one (s : string) : option (Z * string) :=
  match s with
  | String c r => if Ascii.eqb c " " then one 1 9 r else None
  | _ => None
  end.

Definition dash (s : string) : option string :=
  match s with
  | String c r => if Ascii.eqb c "-" then Some r else None
  | _ => None
  end.

(** [%Y]: exactly four digits. *)
Definition directive_Y (s : string) : option (Z * string) :=
  match two 0 9 0 9 s with
  | Some (hi, r) =>
      match two 0 9 0 9 r with
      | Some (lo, r') => Some (100 * hi + lo, r')
      | None => None
      end
  | None => None
  end.

(** [%m]: the alternatives [1[0-2]], [0[1-9]], [[1-9]], in this order. *)
Definition directive_m : list (string -> option (Z * string)) :=
  [two 1 1 0 2; two 0 0 1 9; one 1 9].

(** [%d]: the alternatives [3[01]], [[12]\d], [0[1-9]], [[1-9]],
    [ [1-9]], in this order. *)
Definition directive_d : list (string -> option (Z * string)) :=
  [two 3 3 0 1; two 1 2 0 9; two 0 0 1 9; one 1 9; space_one].

(** Ordered choice with a continuation: the first alternative whose
    continuation succeeds wins. *)
Fixpoint alt {A B : Type} (ps : list (string -> option (A * string)))
         (k : A -> string -> option B) (s : string) : option B :=
  match ps with
  | [] => None
  | p :: ps' =>
      match p s with
      | Some (a, r) =>
          match k a r with
          | Some b => Some b
          | None => alt ps' k s
          end
      | None => alt ps' k s
      end
  end.

(** The match of the pattern built for ['%Y-%m-%d']: the three fields and
    the unconverted remainder. *)
Definition match_ymd (s : string) : option (Z * Z * Z * string) :=
  match directive_Y s with
  | Some (y, r1) =>
      match dash r1 with
      | Some r2 =>
          alt directive_m
            (fun m r3 =>
               match dash r3 with
               | Some r4 =>
                   alt directive_d (fun d r5 => Some (y, m, d, r5)) r4
               | None => None
               end) r2
      | None => None
      end
  | None => None
  end.

(** [datetime.strptime(s, '%Y-%m-%d').date()] on strings of ASCII
    characters. *)
Definition strptime_ymd (s : string) : result date :=
  match match_ymd s with
  | Some (y, m, d, r) =>
      if String.eqb r "" then datetime_date y m d
      else Raise (ValueError "unconverted data remains")
  | None => Raise (ValueError "time data does not match format")
  end.

End Datetime.

Import Datetime.

(** ** The due-date rollover rule *)

(** [calculate_next_due_date(current_due_date, frequency)]. *)
Definition calculate_next_due_date (current_due_date : date)
           (frequency : string) : result date :=
  if String.eqb frequency "Weekly" then
    add_days current_due_date 7
  else if String.eqb frequency "Monthly" then
    let month0 := month current_due_date in
    let year' := year current_due_date + month0 / 12 in
    let month' := month0 mod 12 + 1 in
    let day' := Z.min (day current_due_date) 28 in
    datetime_date year' month' day'
  else if String.eqb frequency "Yearly" then
    datetime_date (year current_due_date + 1) (month current_due_date)
                  (day current_due_date)
  else
    let month0 := month current_due_date in
    let year' := year current_due_date + month0 / 12 in
    let month' := month0 mod 12 + 1 in
    let day' := Z.min (day current_due_date) 28 in
    datetime_date year' month' day'.

(** ** Floating-point amounts *)

Module Float.

(** A Python [float], which is a C [double]: binary64. *)
Definition float : Type := spec_float.

Definition prec : Z := 53.
Definition emax : Z := 1024.

(** [0.0] *)
Definition zero : float := S754_zero false.

(** [x + y] *)
Definition add (x y : float) : float := SFadd prec emax x y.

(** [x / y] *)
Definition div (x y : float) : float := SFdiv prec emax x y.

(** [float(n)] of an int within the range of the type. *)
Definition of_Z (n : Z) : float := binary_normalize prec emax n 0 false.

(** [x < y], [x <= y] and [x == y]: false whenever a NaN is compared, and
    the two zeros are equal. *)
Definition ltb (x y : float) : bool := SFltb x y.
Definition leb (x y : float) : bool := SFleb x y.
Definition eqb (x y : float) : bool := SFeqb x y.

(** [x > y] *)
Definition gtb (x y : float) : bool := ltb y x.

Definition is_nan (x : float) : bool :=
  match x with S754_nan => true | _ => false end.

(** [not x]: a float is falsy when it is one of the two zeros. *)
Definition is_zero (x : float) : bool :=
  match x with S754_zero _ => true | _ => false end.

End Float.

Import Float.

(** A value of a REAL NOT NULL column.  sqlite3 binds a NaN as NULL, which
    the column refuses, and a REAL column keeps an integral value as an
    integer, so that the sign of a zero is lost: what is stored is zero, an
    infinity or a finite number other than zero.  The amounts passed to the
    domain services are taken to be such values.  A finite number is its
    sign, mantissa and exponent, in the form [valid_binary] describes for
    binary64; what is proved below holds of every triple. *)
Inductive real : Type :=
| Rzero
| Rinfinity (negative : bool)
| Rfinite (negative : bool) (mantissa : positive) (exponent : Z).

(** The Python float read from a REAL column. *)
Definition to_float (r : real) : float :=
  match r with
  | Rzero => S754_zero false
  | Rinfinity s => S754_infinity s
  | Rfinite s m e => S754_finite s m e
  end.

(** What a REAL column keeps of a float; [None] is NULL. *)
Definition real_of_float (x : float) : option real :=
  match x with
  | S754_zero _ => Some Rzero
  | S754_infinity s => Some (Rinfinity s)
  | S754_finite s m e => Some (Rfinite s m e)
  | S754_nan => None
  end.

(** ** The SQLite store *)

(** A table row carries its INTEGER PRIMARY KEY. *)
Class Row (R : Type) : Type := rowid : R -> Z.

Record table (R : Type) : Type := mktable { rows : list R; seq : Z }.

Arguments mktable {R} rows seq.

Section Sql.
Context {R : Type} `{Row R}.

Definition empty_table : table R := mktable [] 0.

(** AUTOINCREMENT: one more than the largest rowid ever used. *)
Definition next_rowid (t : table R) : Z :=
  1 + fold_right Z.max (seq t) (map rowid (rows t)).

(** INSERT of a row whose key is assigned by the table; gives
    [cursor.lastrowid] and the new table. *)
Definition sql_insert (mk : Z -> R) (t : table R) : Z * table R :=
  let i := next_rowid t in (i, mktable (rows t ++ [mk i]) i).

(** SELECT ... WHERE p, in rowid order. *)
Definition sql_select (p : R -> bool) (t : table R) : list R :=
  filter p (rows t).

(** UPDATE ... SET f WHERE p. *)
Definition sql_update (p : R -> bool) (f : R -> R) (t : table R) : table R :=
  mktable (map (fun r => if p r then f r else r) (rows t)) (seq t).

(** DELETE ... WHERE p. *)
Definition sql_delete (p : R -> bool) (t : table R) : table R :=
  mktable (filter (fun r => negb (p r)) (rows t)) (seq t).
End Sql.

(** [cursor.fetchone()]. *)
Definition fetchone {A : Type} (l : list A) : option A := hd_error l.

(** ORDER BY: a stable insertion sort for the order [le]; rows with equal
    keys stay in rowid order, which SQL leaves open. *)
Fixpoint insert_sorted {A : Type} (le : A -> A -> bool) (x : A) (l : list A)
  : list A :=
  match l with
  | [] => [x]
  | y :: l' => if le x y then x :: l else y :: insert_sorted le x l'
  end.

Definition order_by {A : Type} (le : A -> A -> bool) (l : list A) : list A :=
  fold_right (insert_sorted le) [] l.

(** The SUM aggregate of SQLite over the values of a REAL column, as its
    [sumStep] and [sumFinalize] compute it: the state is the running sum, a
    C double that starts at zero, and the number of rows seen. *)
Record SumCtx : Type := mkSumCtx { rSum : float; cnt : Z }.

(** One row: [p->cnt++; p->rSum += value]. *)
Definition sumStep (p : SumCtx) (value : real) : SumCtx :=
  mkSumCtx (Float.add (rSum p) (to_float value)) (cnt p + 1).

(** The result: NULL over no rows, and a sum that is NaN is handed over
    as NULL too. *)
Definition sumFinalize (p : SumCtx) : option float :=
  if 0 <? cnt p then
    if is_nan (rSum p) then None else Some (rSum p)
  else None.

(** SUM(col) over the rows selected, taken in rowid order; the same
    aggregate gives the total of a group of GROUP BY. *)
Definition sql_sum (l : list real) : option float :=
  sumFinalize (fold_left sumStep l (mkSumCtx Float.zero 0)).

Record UserRow : Type := mkUser
  { u_id : Z; u_username : string; u_password : string }.

Record CategoryRow : Type := mkCategory
  { c_id : Z; c_name : string; c_user_id : Z }.

Record ExpenseRow : Type := mkExpense
  { e_id : Z; e_date : string; e_category : string; e_amount : real;
    e_user_id : Z }.

Record RecurringPaymentRow : Type := mkRecurringPayment
  { r_id : Z; r_name : string; r_amount : real; r_due_date : string;
    r_frequency : string; r_user_id : Z }.

Record BudgetRow : Type := mkBudget
  { b_id : Z; b_month : string; b_amount : real; b_user_id : Z }.

#[export] Instance UserRow_Row : Row UserRow := u_id.
#[export] Instance CategoryRow_Row : Row CategoryRow := c_id.
#[export] Instance ExpenseRow_Row : Row ExpenseRow := e_id.
#[export] Instance RecurringPaymentRow_Row : Row RecurringPaymentRow := r_id.
#[export] Instance BudgetRow_Row : Row BudgetRow := b_id.

(** The five tables created by [init_db]. *)
Record DB : Type := mkDB
  { Users : table UserRow;
    Categories : table CategoryRow;
    Expenses : table ExpenseRow;
    RecurringPayments : table RecurringPaymentRow;
    Budgets : table BudgetRow }.

Definition with_Users (t : table UserRow) (db : DB) : DB :=
  mkDB t (Categories db) (Expenses db) (RecurringPayments db) (Budgets db).
Definition with_Categories (t : table CategoryRow) (db : DB) : DB :=
  mkDB (Users db) t (Expenses db) (RecurringPayments db) (Budgets db).
Definition with_Expenses (t : table ExpenseRow) (db : DB) : DB :=
  mkDB (Users db) (Categories db) t (RecurringPayments db) (Budgets db).
Definition with_RecurringPayments (t : table RecurringPaymentRow) (db : DB)
  : DB :=
  mkDB (Users db) (Categories db) (Expenses db) t (Budgets db).
Definition with_Budgets (t : table BudgetRow) (db : DB) : DB :=
  mkDB (Users db) (Categories db) (Expenses db) (RecurringPayments db) t.

Definition empty_db : DB :=
  mkDB empty_table empty_table empty_table empty_table empty_table.

(** [init_db()]: CREATE TABLE IF NOT EXISTS on a store that is absent or
    already there. *)
Definition init_db (store : option DB) : DB :=
  match store with
  | Some db => db
  | None => empty_db
  end.

(** FOREIGN KEY (user_id) REFERENCES Users(id), with foreign keys ON. *)
Definition user_exists (user_id : Z) (db : DB) : bool :=
  existsb (fun u => u_id u =? user_id) (rows (Users db)).

Definition foreign_key (user_id : Z) (db : DB) : result unit :=
  if user_exists user_id db then Ok tt
  else Raise (IntegrityError "FOREIGN KEY constraint failed").

(** A bound parameter of a NOT NULL column; [None] is an absent column or
    NULL. *)
Definition not_null {A : Type} (col : string) (v : option A) : result A :=
  match v with
  | Some a => Ok a
  | None => Raise (IntegrityError ("NOT NULL constraint failed: " ++ col))
  end.

(** ** Domain services *)

Module User.

(** [User.add_user(username, password)]; the IntegrityError of the UNIQUE
    username is turned into a ValueError. *)
Definition add_user (username password : string) (db : DB)
  : result (Z * DB) :=
  if existsb (fun u => String.eqb (u_username u) username) (rows (Users db))
  then Raise (ValueError "Username already exists.")
  else
    let (i, t) := sql_insert (fun i => mkUser i username password)
                             (Users db) in
    Ok (i, with_Users t db).

(** [User.authenticate(username, password)]. *)
Definition authenticate (username password : string) (db : DB) : option Z :=
  match fetchone
          (sql_select (fun u => String.eqb (u_username u) username &&
                                String.eqb (u_password u) password)
                      (Users db)) with
  | Some u => Some (u_id u)
  | None => None
  end.

End User.

Module Category.

(** INSERT INTO Categories with the columns the statement names. *)
Definition insert_row (name : option string) (user_id : option Z) (db : DB)
  : result (Z * DB) :=
  n <- not_null "Categories.name" name ;;
  u <- not_null "Categories.user_id" user_id ;;
  _ <- foreign_key u db ;;
  let (i, t) := sql_insert (fun i => mkCategory i n u) (Categories db) in
  Ok (i, with_Categories t db).

(** [Category.add(name)]: the statement is
    [INSERT INTO Categories (name) VALUES (?)], so [user_id] is absent;
    every IntegrityError is reported as a duplicate. *)
Definition add (name : string) (db : DB) : result (Z * DB) :=
  if String.eqb name "" then
    Raise (ValueError "Category name must be a non-empty string.")
  else
    match insert_row (Some name) None db with
    | Ok r => Ok r
    | Raise (IntegrityError _) => Raise (ValueError "Category already exists.")
    | Raise e => Raise e
    end.

(** [Category.get_all(user_id)]. *)
Definition get_all (user_id : Z) (db : DB) : list string :=
  map c_name
      (order_by (fun a b => String.leb (c_name a) (c_name b))
                (sql_select (fun c => c_user_id c =? user_id)
                            (Categories db))).

(** [Category.delete(name, user_id)]. *)
Definition delete (name : string) (user_id : Z) (db : DB) : DB :=
  with_Categories
    (sql_delete (fun c => String.eqb (c_name c) name &&
                          (c_user_id c =? user_id))
                (Categories db)) db.

End Category.

Module Expense.

Definition not_found : exn :=
  ValueError "Expense not found or does not belong to the user.".

(** [Expense.add(date, category, amount, user_id)]. *)
Definition add (date category : string) (amount : real) (user_id : Z)
           (db : DB) : result DB :=
  _ <- foreign_key user_id db ;;
  let (_, t) := sql_insert
                  (fun i => mkExpense i date category amount user_id)
                  (Expenses db) in
  Ok (with_Expenses t db).

(** [Expense.get_all(user_id)]: the tuples (id, date, category, amount),
    most recent date first. *)
Definition get_all (user_id : Z) (db : DB)
  : list (Z * string * string * real) :=
  map (fun e => (e_id e, e_date e, e_category e, e_amount e))
      (order_by (fun a b => String.leb (e_date b) (e_date a))
                (sql_select (fun e => e_user_id e =? user_id)
                            (Expenses db))).

(** The rows of [WHERE date >= ? AND user_id = ?]; TEXT is compared
    byte-wise. *)
Definition since (start_date : string) (user_id : Z) (e : ExpenseRow)
  : bool :=
  String.leb start_date (e_date e) && (e_user_id e =? user_id).

(** [Expense.get_spending_since(start_date, user_id)]: the last line is
    [result[0] if result[0] else 0.0], and both NULL and zero are falsy. *)
Definition get_spending_since (start_date : string) (user_id : Z) (db : DB)
  : float :=
  match sql_sum (map e_amount
                     (sql_select (since start_date user_id) (Expenses db)))
  with
  | Some total => if is_zero total then Float.zero else total
  | None => Float.zero
  end.

Definition owned (expense_id user_id : Z) (e : ExpenseRow) : bool :=
  (e_id e =? expense_id) && (e_user_id e =? user_id).

(** [Expense.update(expense_id, new_date, new_category, new_amount,
    user_id)]. *)
Definition update (expense_id : Z) (new_date new_category : string)
           (new_amount : real) (user_id : Z) (db : DB) : result DB :=
  match fetchone (sql_select (owned expense_id user_id) (Expenses db)) with
  | None => Raise not_found
  | Some _ =>
      Ok (with_Expenses
            (sql_update (owned expense_id user_id)
                        (fun e => mkExpense (e_id e) new_date new_category
                                            new_amount (e_user_id e))
                        (Expenses db)) db)
  end.

(** [Expense.delete(expense_id, user_id)]. *)
Definition delete (expense_id user_id : Z) (db : DB) : result DB :=
  match fetchone (sql_select (owned expense_id user_id) (Expenses db)) with
  | None => Raise not_found
  | Some _ =>
      Ok (with_Expenses
            (sql_delete (owned expense_id user_id) (Expenses db)) db)
  end.

(** [Expense.get_daily_spending(user_id)]: one (date, total) pair per
    date, ascending; the rows of a group are summed in rowid order, and a
    total that is NULL reads as [None]. *)
Definition get_daily_spending (user_id : Z) (db : DB)
  : list (string * option float) :=
  let mine := sql_select (fun e => e_user_id e =? user_id) (Expenses db) in
  map (fun d =>
         (d, sql_sum
               (map e_amount
                    (filter (fun e => String.eqb (e_date e) d) mine))))
      (order_by String.leb (nodup string_dec (map e_date mine))).

End Expense.

Module RecurringPayment.

Definition not_found : exn :=
  ValueError "Recurring payment not found or does not belong to the user.".

(** [RecurringPayment.add(name, amount, due_date, frequency, user_id)]. *)
Definition add (name : string) (amount : real) (due_date frequency : string)
           (user_id : Z) (db : DB) : result DB :=
  _ <- foreign_key user_id db ;;
  let (_, t) := sql_insert
                  (fun i => mkRecurringPayment i name amount due_date
                                               frequency user_id)
                  (RecurringPayments db) in
  Ok (with_RecurringPayments t db).

(** [RecurringPayment.get_all(user_id)]: the tuples
    (id, name, amount, due_date, frequency), earliest due date first. *)
Definition get_all (user_id : Z) (db : DB)
  : list (Z * string * real * string * string) :=
  map (fun r => (r_id r, r_name r, r_amount r, r_due_date r, r_frequency r))
      (order_by (fun a b => String.leb (r_due_date a) (r_due_date b))
                (sql_select (fun r => r_user_id r =? user_id)
                            (RecurringPayments db))).

Definition owned (payment_id user_id : Z) (r : RecurringPaymentRow) : bool :=
  (r_id r =? payment_id) && (r_user_id r =? user_id).

(** [RecurringPayment.delete(payment_id, user_id)]. *)
Definition delete (payment_id user_id : Z) (db : DB) : result DB :=
  match fetchone (sql_select (owned payment_id user_id)
                             (RecurringPayments db)) with
  | None => Raise not_found
  | Some _ =>
      Ok (with_RecurringPayments
            (sql_delete (owned payment_id user_id) (RecurringPayments db))
            db)
  end.

Definition set_due_date (due_date : string) (r : RecurringPaymentRow)
  : RecurringPaymentRow :=
  mkRecurringPayment (r_id r) (r_name r) (r_amount r) due_date
                     (r_frequency r) (r_user_id r).

(** [RecurringPayment.mark_as_paid(payment_id, payment_date, user_id)]. *)
Definition mark_as_paid (payment_id : Z) (payment_date : string)
           (user_id : Z) (db : DB) : result DB :=
  match fetchone (sql_select (owned payment_id user_id)
                             (RecurringPayments db)) with
  | None => Raise not_found
  | Some row =>
      let frequency := r_frequency row in
      paid <- strptime_ymd payment_date ;;
      next_due_date <- calculate_next_due_date paid frequency ;;
      let next_due_date_str := strftime_ymd next_due_date in
      Ok (with_RecurringPayments
            (sql_update (owned payment_id user_id)
                        (set_due_date next_due_date_str)
                        (RecurringPayments db)) db)
  end.

(** [RecurringPayment.update_due_date]: the class defines [add],
    [get_all], [delete] and [mark_as_paid] and nothing else, so looking
    the attribute up raises before any statement runs. *)
Definition update_due_date (payment_id : Z) (due_date : string) (db : DB)
  : result DB :=
  Raise (AttributeError
           "type object 'RecurringPayment' has no attribute 'update_due_date'").

End RecurringPayment.

Module Budget.

Definition keyed (month : string) (user_id : Z) (b : BudgetRow) : bool :=
  String.eqb (b_month b) month && (b_user_id b =? user_id).

(** [Budget.set_monthly_budget(month, amount, user_id)]. *)
Definition set_monthly_budget (month : string) (amount : real) (user_id : Z)
           (db : DB) : result DB :=
  match fetchone (sql_select (keyed month user_id) (Budgets db)) with
  | Some _ =>
      Ok (with_Budgets
            (sql_update (keyed month user_id)
                        (fun b => mkBudget (b_id b) (b_month b) amount
                                           (b_user_id b))
                        (Budgets db)) db)
  | None =>
      _ <- foreign_key user_id db ;;
      let (_, t) := sql_insert (fun i => mkBudget i month amount user_id)
                               (Budgets db) in
      Ok (with_Budgets t db)
  end.

(** [Budget.get_monthly_budget(month, user_id)]. *)
Definition get_monthly_budget (month : string) (user_id : Z) (db : DB)
  : option real :=
  match fetchone (sql_select (keyed month user_id) (Budgets db)) with
  | Some b => Some (b_amount b)
  | None => None
  end.

End Budget.

(** ** The alert evaluator *)

(** What the evaluator shows: the three warnings and the error dialog of
    its exception handlers. *)
Inductive notification : Type :=
| PaymentDueTomorrow (name : string) (amount : real)
| PaymentDueToday (name : string) (amount : real)
| BudgetExceeded (budget : real) (spending : float)
| ErrorDialog (e : exn).

Section Evaluator.
(** [datetime.now().date()] *)
Variable today : date.
(** [self.current_user_id] *)
Variable current_user_id : Z.

(** The body of the loop of [check_recurring_payments] for one payment. *)
Definition check_payment (payment : Z * string * real * string * string)
           (db : DB) : result (DB * list notification) :=
  let '(payment_id, name, amount, due_date_str, frequency) := payment in
  due_date <- strptime_ymd due_date_str ;;
  let days_until_due := sub_days due_date today in
  if days_until_due =? 1 then Ok (db, [PaymentDueTomorrow name amount])
  else if days_until_due =? 0 then Ok (db, [PaymentDueToday name amount])
  else if days_until_due <? 0 then
    new_due_date <- calculate_next_due_date due_date frequency ;;
    db' <- RecurringPayment.update_due_date
             payment_id (strftime_ymd new_due_date) db ;;
    Ok (db', [])
  else Ok (db, []).

(** The loop: an exception leaves it, with the store and the warnings
    shown so far. *)
Fixpoint for_payments (payments : list (Z * string * real * string * string))
         (db : DB) : DB * list notification * option exn :=
  match payments with
  | [] => (db, [], None)
  | payment :: rest =>
      match check_payment payment db with
      | Raise e => (db, [], Some e)
      | Ok (db1, shown) =>
          let '(db2, shown', raised) := for_payments rest db1 in
          (db2, shown ++ shown', raised)
      end
  end.

(** [check_recurring_payments()]: the store afterwards and the dialogs
    shown, in order. *)
Definition check_recurring_payments (db : DB) : DB * list notification :=
  let payments := RecurringPayment.get_all current_user_id db in
  let '(db', shown, raised) := for_payments payments db in
  match raised with
  | None => (db', shown)
  | Some e => (db', shown ++ [ErrorDialog e])
  end.

(** [check_budget()]. *)
Definition check_budget (db : DB) : list notification :=
  let current_month := strftime_ym today in
  match Budget.get_monthly_budget current_month current_user_id db with
  | Some budget_amount =>
      let start_of_month := strftime_ymd (replace_day1 today) in
      let spending :=
        Expense.get_spending_since start_of_month current_user_id db in
      if Float.gtb spending (to_float budget_amount)
      then [BudgetExceeded budget_amount spending]
      else []
  | None => []
  end.
End Evaluator.

(** One run of the [alert] closure of [check_alerts]; nobody is logged in
    when [current_user_id] is [None], and [0] is falsy as well. *)
Definition alert (today : date) (current_user_id : option Z) (db : DB)
  : DB * list notification :=
  match current_user_id with
  | Some u =>
      if u =? 0 then (db, [])
      else
        let (db', shown) := check_recurring_payments today u db in
        (db', shown ++ check_budget today u db')
  | None => (db, [])
  end.

(** The committed store after a call that may have raised. *)
Definition store_after (db : DB) (r : result DB) : DB :=
  match r with
  | Ok db' => db'
  | Raise _ => db
  end.

(** ** Store invariants *)

Definition unique_ids {R : Type} `{Row R} (t : table R) : Prop :=
  NoDup (map rowid (rows t)).

Definition budget_key (b : BudgetRow) : string * Z := (b_month b, b_user_id b).

(** Primary keys are unique in every table, and the Budget table holds at
    most one row per (month, user). *)
Record wf (db : DB) : Prop := mkwf
  { wf_Users : unique_ids (Users db);
    wf_Categories : unique_ids (Categories db);
    wf_Expenses : unique_ids (Expenses db);
    wf_RecurringPayments : unique_ids (RecurringPayments db);
    wf_Budgets : unique_ids (Budgets db);
    wf_budget_keys : NoDup (map budget_key (rows (Budgets db))) }.

(** The stores the application can build: a fresh store, then any sequence
    of domain-service calls that commit. *)
Inductive step (db : DB) : DB -> Prop :=
| step_add_user username password i db' :
    User.add_user username password db = Ok (i, db') -> step db db'
| step_category_add name i db' :
    Category.add name db = Ok (i, db') -> step db db'
| step_category_delete name user_id :
    step db (Category.delete name user_id db)
| step_expense_add date category amount user_id db' :
    Expense.add date category amount user_id db = Ok db' -> step db db'
| step_expense_update expense_id date category amount user_id db' :
    Expense.update expense_id date category amount user_id db = Ok db' ->
    step db db'
| step_expense_delete expense_id user_id db' :
    Expense.delete expense_id user_id db = Ok db' -> step db db'
| step_payment_add name amount due_date frequency user_id db' :
    RecurringPayment.add name amount due_date frequency user_id db = Ok db' ->
    step db db'
| step_payment_delete payment_id user_id db' :
    RecurringPayment.delete payment_id user_id db = Ok db' -> step db db'
| step_payment_paid payment_id payment_date user_id db' :
    RecurringPayment.mark_as_paid payment_id payment_date user_id db = Ok db' ->
    step db db'
| step_budget_set month amount user_id db' :
    Budget.set_monthly_budget month amount user_id db = Ok db' -> step db db'
| step_alert today current_user_id :
    step db (fst (alert today current_user_id db)).

Inductive reachable : DB -> Prop :=
| reachable_init : reachable (init_db None)
| reachable_step db db' : reachable db -> step db db' -> reachable db'.

(** ** The rules in the words of the specification, and example stores *)

(** The Monthly rule in the words of the specification: the next calendar
    month, the day clamped to 28, the year incremented after December. *)
Definition spec_next_month (d : date) : date :=
  mkdate (if month d =? 12 then year d + 1 else year d)
         (if month d =? 12 then 1 else month d + 1)
         (Z.min (day d) 28).

(** The Yearly rule in the words of the specification. *)
Definition spec_next_year (d : date) : date :=
  mkdate (year d + 1) (month d) (day d).

(** The sum of a list of amounts in floating point: from zero, one rounded
    addition per amount, first to last. *)
Definition float_sum (l : list real) : float :=
  fold_left (fun acc a => Float.add acc (to_float a)) l Float.zero.

(** The amount Python reads from a decimal with two places, as
    [float("12.50")] for [money 12 50]: the double nearest to it. *)
Definition money (units hundredths : Z) : real :=
  match real_of_float (Float.div (Float.of_Z (100 * units + hundredths))
                                 (Float.of_Z 100)) with
  | Some r => r
  | None => Rzero
  end.

Definition store_alice : DB :=
  with_Users (mktable [mkUser 1 "alice" "p1"] 1) empty_db.

(** Alice (user 1) and Bob (user 2), one expense of Alice's. *)
Definition store_two_users : DB :=
  mkDB (mktable [mkUser 1 "alice" "p1"; mkUser 2 "bob" "p2"] 2)
       empty_table
       (mktable [mkExpense 1 "2025-01-10" "Food" (money 12 50) 1] 1)
       empty_table empty_table.

(** Alice's rent, due on the 14th of every month. *)
Definition store_rent : DB :=
  mkDB (mktable [mkUser 1 "alice" "p1"] 1)
       empty_table empty_table
       (mktable [mkRecurringPayment 1 "Rent" (money 1200 0) "2024-03-14"
                                    "Monthly" 1] 1)
       empty_table.

(** Alice's budget of 500 for March 2024, with 300 and 200 spent. *)
Definition store_on_budget : DB :=
  mkDB (mktable [mkUser 1 "alice" "p1"] 1)
       empty_table
       (mktable [mkExpense 1 "2024-03-02" "Rent" (money 300 0) 1;
                 mkExpense 2 "2024-03-09" "Food" (money 200 0) 1] 2)
       empty_table
       (mktable [mkBudget 1 "2024-03" (money 500 0) 1] 1).

(** A budget of 0.3 for March 2024, with 0.1 and 0.2 spent. *)
Definition store_tenths : DB :=
  mkDB (mktable [mkUser 1 "alice" "p1"] 1)
       empty_table
       (mktable [mkExpense 1 "2024-03-02" "Tea" (money 0 10) 1;
                 mkExpense 2 "2024-03-09" "Bun" (money 0 20) 1] 2)
       empty_table
       (mktable [mkBudget 1 "2024-03" (money 0 30) 1] 1).

(** What [get_spending_since] makes of the sum [t] of the amounts: a NaN
    reads as NULL, and NULL and zero both give [0.0]. *)
Definition total_or_zero (t : float) : float :=
  if is_nan t || is_zero t then Float.zero else t.

(** The same store after one more expense of one hundredth. *)
Definition store_over_budget : DB :=
  with_Expenses
    (mktable [mkExpense 1 "2024-03-02" "Rent" (money 300 0) 1;
              mkExpense 2 "2024-03-09" "Food" (money 200 0) 1;
              mkExpense 3 "2024-03-15" "Gum" (money 0 1) 1] 3)
    store_on_budget.

(** ** The pages that read the domain layer *)

(** [l[start:stop]]: an index below zero counts from the end, and both
    indices are clipped to the list. *)
Definition py_index (len i : Z) : Z :=
  if i <? 0 then Z.max 0 (i + len) else Z.min i len.

Definition py_slice {A : Type} (l : list A) (start stop : Z) : list A :=
  let len := Z.of_nat (List.length l) in
  let a := py_index len start in
  let b := py_index len stop in
  firstn (Z.to_nat (b - a)) (skipn (Z.to_nat a) l).

(** [date1 <= date2] on [datetime.date]: the order of the triples
    (year, month, day). *)
Definition date_leb (d1 d2 : date) : bool :=
  (year d1 <? year d2) ||
  ((year d1 =? year d2) &&
   ((month d1 <? month d2) ||
    ((month d1 =? month d2) && (day d1 <=? day d2)))).

Module ViewExpensesPage.

Definition PAGE_SIZE : Z := 20.

(** [self.current_page] and [self.total_pages]. *)
Record pager : Type := mkpager { current_page : Z; total_pages : Z }.

(** [max(1, (len(expenses) + PAGE_SIZE - 1) // PAGE_SIZE)]. *)
Definition count_pages {A : Type} (expenses : list A) : Z :=
  Z.max 1 ((Z.of_nat (List.length expenses) + PAGE_SIZE - 1) / PAGE_SIZE).

(** The rows [display_page] puts in the tree. *)
Definition display_page {A : Type} (st : pager) (expenses : list A) : list A :=
  let start_index := (current_page st - 1) * PAGE_SIZE in
  let end_index := start_index + PAGE_SIZE in
  py_slice expenses start_index end_index.

(** The state of the two buttons after [display_page]. *)
Definition prev_enabled (st : pager) : bool := 1 <? current_page st.
Definition next_enabled (st : pager) : bool :=
  current_page st <? total_pages st.

(** [refresh()], given the list fetched. *)
Definition refresh {A : Type} (expenses : list A) : pager :=
  mkpager 1 (count_pages expenses).

(** [next_page()] and [prev_page()]. *)
Definition next_page (st : pager) : pager :=
  if current_page st <? total_pages st
  then mkpager (current_page st + 1) (total_pages st)
  else st.

Definition prev_page (st : pager) : pager :=
  if 1 <? current_page st
  then mkpager (current_page st - 1) (total_pages st)
  else st.

(** The list the page works on: [Expense.get_all] of the user logged in,
    and nothing without one. *)
Definition fetch (current_user_id : option Z) (db : DB)
  : list (Z * string * string * real) :=
  match current_user_id with
  | Some u => if u =? 0 then [] else Expense.get_all u db
  | None => []
  end.

End ViewExpensesPage.

Module HomePage.

(** [categories[category] += amount] on a dict that keeps insertion order,
    after [categories[category] = 0] for a new key. *)
Fixpoint dict_add (category : string) (amount : real)
         (d : list (string * float)) : list (string * float) :=
  match d with
  | [] => [(category, Float.add (Float.of_Z 0) (to_float amount))]
  | (c, total) :: d' =>
      if String.eqb c category
      then (c, Float.add total (to_float amount)) :: d'
      else (c, total) :: dict_add category amount d'
  end.

(** The labels of today's expenses: one total per category, in the order
    the categories first occur in the list. *)
Definition todays_totals (today : string)
           (expenses : list (Z * string * string * real))
  : list (string * float) :=
  let todays_expenses :=
    filter (fun exp => String.eqb (snd (fst (fst exp))) today) expenses in
  fold_left (fun categories expense =>
               dict_add (snd (fst expense)) (snd expense) categories)
            todays_expenses [].

(** The comprehension that keeps the payments whose due date is not before
    today; a due date that does not parse raises. *)
Fixpoint upcoming_payments (today : date)
         (payments : list (Z * string * real * string * string))
  : result (list (Z * string * real * string * string)) :=
  match payments with
  | [] => Ok []
  | payment :: rest =>
      due <- strptime_ymd (snd (fst payment)) ;;
      kept <- upcoming_payments today rest ;;
      Ok (if date_leb today due then payment :: kept else kept)
  end.

End HomePage.

Module SpendingSummaryPage.

(** [d.weekday()], Monday being 0. *)
Definition weekday (d : date) : Z := (toordinal d + 6) mod 7.

(** The four period starts of [refresh]: today, the Monday of this week,
    the first of the month and the first of the year. *)
Definition start_of_week (today : date) : result date :=
  add_days today (- weekday today).

Definition start_of_year (today : date) : date := mkdate (year today) 1 1.

(** The four totals shown, for the user logged in. *)
Definition totals (today : date) (u : Z) (db : DB)
  : result (float * float * float * float) :=
  monday <- start_of_week today ;;
  Ok (Expense.get_spending_since (strftime_ymd today) u db,
      Expense.get_spending_since (strftime_ymd monday) u db,
      Expense.get_spending_since (strftime_ymd (replace_day1 today)) u db,
      Expense.get_spending_since (strftime_ymd (start_of_year today)) u db).

End SpendingSummaryPage.

(** ** Ownership in the store *)

(** Every row of a table that references a user references a registered
    one, no two users share a name, and no category is stored. *)
Record owned_by_users (db : DB) : Prop := mkowned
  { own_usernames : NoDup (map u_username (rows (Users db)));
    own_categories : rows (Categories db) = [];
    own_expenses :
      forall e, In e (rows (Expenses db)) -> user_exists (e_user_id e) db = true;
    own_payments :
      forall r, In r (rows (RecurringPayments db)) ->
                user_exists (r_user_id r) db = true;
    own_budgets :
      forall b, In b (rows (Budgets db)) -> user_exists (b_user_id b) db = true }.

(** ** Definitions used by the further properties *)

Definition expense_tuple (e : ExpenseRow) : Z * string * string * real :=
  (e_id e, e_date e, e_category e, e_amount e).

Definition payment_tuple (r : RecurringPaymentRow)
  : Z * string * real * string * string :=
  (r_id r, r_name r, r_amount r, r_due_date r, r_frequency r).

(** Bob (user 2) registered beside Alice and her rent. *)
Definition store_rent_two_users : DB :=
  with_Users (mktable [mkUser 1 "alice" "p1"; mkUser 2 "bob" "p2"] 2)
             store_rent.

(** The warning the scan shows for a payment that is not overdue. *)
Definition due_warning (today due : date) (name : string) (amount : real)
  : list notification :=
  if sub_days due today =? 1 then [PaymentDueTomorrow name amount]
  else if sub_days due today =? 0 then [PaymentDueToday name amount]
  else [].

(** [f] holds on every integer from [base] up to [base + p - 1]. *)
Fixpoint all_from (f : Z -> bool) (p : positive) (base : Z) : bool :=
  match p with
  | xH => f base
  | xO q => all_from f q base && all_from f q (base + Zpos q)
  | xI q =>
      all_from f q base && all_from f q (base + Zpos q)
      && f (base + Zpos q + Zpos q)
  end.

(** What is checked on each ordinal of the first 400 years. *)
Definition cycle_ok (n : Z) : bool :=
  let d := fromordinal n in
  (toordinal d =? n) && valid_date d && (year d <=? 400)
  && ((145731 <? n) || (year d <=? 399)).

(** The order of the triples, strictly. *)
Definition date_lt (d1 d2 : date) : Prop :=
  year d1 < year d2 \/
  (year d1 = year d2 /\
   (month d1 < month d2 \/ (month d1 = month d2 /\ day d1 < day d2))).

(** [n] rollovers in a row, as when a payment is marked as paid on each of
    its due dates. *)
Fixpoint rollovers (n : nat) (f : string) (d : date) : result date :=
  match n with
  | O => Ok d
  | S k => d' <- calculate_next_due_date d f ;; rollovers k f d'
  end.

(** [d.get(c)]: the total a dict holds for a key. *)
Fixpoint dict_get (c : string) (d : list (string * float)) : option float :=
  match d with
  | [] => None
  | (k, total) :: d' => if String.eqb k c then Some total else dict_get c d'
  end.

(** A key takes its place in a dict when it is first seen. *)
Definition see (keys : list string) (c : string) : list string :=
  if existsb (fun k => String.eqb k c) keys then keys else keys ++ [c].

(** The distinct strings of a list, in the order they first occur. *)
Definition first_seen (l : list string) : list string := fold_left see l [].

(** The total [categories[c] += amount] adds to: the one the dict holds,
    or the [0] a new key is given first. *)
Definition dict_start (c : string) (d : list (string * float)) : float :=
  match dict_get c d with
  | Some total => total
  | None => Float.of_Z 0
  end.

(** The stores of the examples after one more call. *)
Definition store_rent_two_users_paid : DB :=
  with_RecurringPayments
    (mktable [mkRecurringPayment 1 "Rent" (money 1200 0) "2024-04-20"
                                 "Monthly" 1] 1)
    store_rent_two_users.

Definition store_rent_paid_today : DB :=
  with_RecurringPayments
    (mktable [mkRecurringPayment 1 "Rent" (money 1200 0) "2024-04-15"
                                 "Monthly" 1] 1)
    store_rent.

Definition store_on_budget_650 : DB :=
  with_Budgets (mktable [mkBudget 1 "2024-03" (money 650 0) 1] 1)
               store_on_budget.

(** A store whose Categories table has rows for both users. *)
Definition store_with_categories : DB :=
  with_Categories
    (mktable [mkCategory 1 "Rent" 1; mkCategory 2 "Food" 1;
              mkCategory 3 "Food" 2] 3)
    store_two_users.

(** * Properties *)

(** ** Dates: evaluation *)

Example weekly_2024_01_01 :
  calculate_next_due_date (mkdate 2024 1 1) "Weekly" = Ok (mkdate 2024 1 8).
Proof. vm_compute. reflexivity. Qed.

Example weekly_year_end :
  calculate_next_due_date (mkdate 2023 12 28) "Weekly" = Ok (mkdate 2024 1 4).
Proof. vm_compute. reflexivity. Qed.

Example strptime_iso :
  strptime_ymd "2024-02-29" = Ok (mkdate 2024 2 29).
Proof. vm_compute. reflexivity. Qed.

Example strptime_short_fields :
  strptime_ymd "2024-1-5" = Ok (mkdate 2024 1 5).
Proof. vm_compute. reflexivity. Qed.

Example strptime_bad_day :
  is_ok (strptime_ymd "2023-02-29") = false.
Proof. vm_compute. reflexivity. Qed.

Example strftime_iso :
  strftime_ymd (mkdate 2024 2 8) = "2024-02-08".
Proof. vm_compute. reflexivity. Qed.

(** ** Lists, sorting and sums *)

Lemma In_insert_sorted {A : Type} (le : A -> A -> bool) (a x : A) (l : list A) :
  In x (insert_sorted le a l) <-> x = a \/ In x l.
Proof.
  induction l as [| y l IH]; simpl.
  - intuition.
  - destruct (le a y); simpl; rewrite ?IH; intuition.
Qed.

Lemma In_order_by {A : Type} (le : A -> A -> bool) (x : A) (l : list A) :
  In x (order_by le l) <-> In x l.
Proof.
  unfold order_by. induction l as [| y l IH]; simpl.
  - tauto.
  - rewrite In_insert_sorted, IH. intuition.
Qed.

Lemma fetchone_none {A : Type} (l : list A) : fetchone l = None <-> l = [].
Proof. destruct l; simpl; split; congruence. Qed.

Lemma fetchone_some_in {A : Type} (l : list A) (a : A) :
  fetchone l = Some a -> In a l.
Proof. destruct l; simpl; intros E; inversion E; auto. Qed.

Lemma fetchone_filter_none {A : Type} (p : A -> bool) (l : list A) :
  fetchone (filter p l) = None <-> forall a, In a l -> p a = false.
Proof.
  rewrite fetchone_none. split.
  - intros E a Ha. destruct (p a) eqn:Hp; auto.
    assert (In a (filter p l)) as Hin by (apply filter_In; auto).
    rewrite E in Hin. destruct Hin.
  - intros Hall. induction l as [| a l IH]; simpl; auto.
    rewrite (Hall a) by (left; auto). apply IH. intros; apply Hall; right; auto.
Qed.

Lemma NoDup_map_snoc {A B : Type} (f : A -> B) (l : list A) (x : A) :
  NoDup (map f l) -> ~ In (f x) (map f l) -> NoDup (map f (l ++ [x])).
Proof.
  induction l as [| a l IH]; simpl; intros Hnd Hx.
  - constructor; [exact Hx | constructor].
  - inversion Hnd as [| ? ? Ha Hl]; subst. constructor.
    + rewrite map_app, in_app_iff. simpl. intros [Hin | [Heq | []]]; auto.
    + apply IH; auto.
Qed.

Lemma NoDup_map_inj_on {A B : Type} (f : A -> B) (l : list A) (x y : A) :
  NoDup (map f l) -> In x l -> In y l -> f x = f y -> x = y.
Proof.
  induction l as [| a l IH]; simpl; intros Hnd Hx Hy E; [destruct Hx |].
  inversion Hnd as [| ? ? Ha Hl]; subst.
  destruct Hx as [-> | Hx], Hy as [-> | Hy]; auto.
  - exfalso. apply Ha. rewrite E. apply in_map; auto.
  - exfalso. apply Ha. rewrite <- E. apply in_map; auto.
Qed.

Section SqlFacts.
Context {R : Type} `{Row R}.

Lemma fold_max_ge (s : Z) (l : list Z) :
  s <= fold_right Z.max s l /\ forall x, In x l -> x <= fold_right Z.max s l.
Proof.
  induction l as [| a l [IH1 IH2]]; simpl.
  - split; [lia | intros x []].
  - split; [lia |]. intros x [-> | Hx]; [lia |]. specialize (IH2 x Hx). lia.
Qed.

Lemma next_rowid_fresh (t : table R) (r : R) :
  In r (rows t) -> rowid r < next_rowid t.
Proof.
  intros Hin. unfold next_rowid.
  assert (rowid r <= fold_right Z.max (seq t) (map rowid (rows t))).
  { apply fold_max_ge. apply in_map. exact Hin. }
  lia.
Qed.

Lemma unique_ids_insert (mk : Z -> R) (t : table R) :
  (forall i, rowid (mk i) = i) ->
  unique_ids t -> unique_ids (snd (sql_insert mk t)).
Proof.
  intros Hmk Hu. unfold unique_ids, sql_insert. simpl.
  apply NoDup_map_snoc; auto. rewrite Hmk.
  intros Hin. apply in_map_iff in Hin as (r & Hr & Hin).
  apply next_rowid_fresh in Hin. lia.
Qed.

Lemma unique_ids_update (p : R -> bool) (f : R -> R) (t : table R) :
  (forall r, rowid (f r) = rowid r) ->
  unique_ids t -> unique_ids (sql_update p f t).
Proof.
  intros Hf Hu. unfold unique_ids, sql_update in *. simpl.
  rewrite map_map.
  erewrite map_ext; [exact Hu |].
  intros r. simpl. destruct (p r); auto.
Qed.

Lemma unique_ids_delete (p : R -> bool) (t : table R) :
  unique_ids t -> unique_ids (sql_delete p t).
Proof.
  destruct t as [l s]. unfold unique_ids, sql_delete. simpl.
  induction l as [| r l IH]; simpl; intros Hu; [constructor |].
  apply NoDup_cons_iff in Hu as [Hfresh Hu].
  destruct (p r); simpl; [exact (IH Hu) |].
  apply NoDup_cons; [| exact (IH Hu)].
  contradict Hfresh.
  apply in_map_iff in Hfresh as (r' & <- & Hkept).
  apply filter_In in Hkept as [Hstored _]. apply in_map. exact Hstored.
Qed.

Lemma unique_ids_empty : unique_ids (@empty_table R).
Proof. constructor. Qed.
End SqlFacts.

(** ** The invariant holds in every reachable store *)

Lemma bind_ok {A B : Type} (c : result A) (k : A -> result B) (b : B) :
  bind c k = Ok b -> exists a, c = Ok a /\ k a = Ok b.
Proof. destruct c as [a | e]; simpl; intros E; [eauto | discriminate]. Qed.

Ltac ok_inv E :=
  repeat match type of E with
         | bind _ _ = Ok _ =>
             let a := fresh "a" in
             let Ha := fresh "Ha" in
             apply bind_ok in E as (a & Ha & E)
         end.

Lemma budget_keys_update (p : BudgetRow -> bool) (amount : real)
      (t : table BudgetRow) :
  map budget_key
      (rows (sql_update p (fun b => mkBudget (b_id b) (b_month b) amount
                                             (b_user_id b)) t))
  = map budget_key (rows t).
Proof.
  unfold sql_update. simpl. rewrite map_map. apply map_ext.
  intros b. destruct (p b); reflexivity.
Qed.

Lemma keyed_true (month : string) (user_id : Z) (b : BudgetRow) :
  Budget.keyed month user_id b = true <-> budget_key b = (month, user_id).
Proof.
  unfold Budget.keyed, budget_key.
  rewrite andb_true_iff, String.eqb_eq, Z.eqb_eq.
  split; [intros [-> ->]; reflexivity | intros E; inversion E; auto].
Qed.

Lemma budget_key_fresh (month : string) (user_id : Z) (t : table BudgetRow) :
  fetchone (sql_select (Budget.keyed month user_id) t) = None ->
  ~ In (month, user_id) (map budget_key (rows t)).
Proof.
  unfold sql_select. rewrite fetchone_filter_none. intros Hnone Hin.
  apply in_map_iff in Hin as (b & Hb & Hin).
  apply keyed_true in Hb. rewrite (Hnone b Hin) in Hb. discriminate.
Qed.

Lemma check_payment_store (today : date) payment (db db' : DB) shown :
  check_payment today payment db = Ok (db', shown) -> db' = db.
Proof.
  destruct payment as [[[[payment_id name] amount] due_date_str] frequency].
  unfold check_payment. intros E.
  apply bind_ok in E as (due_date & _ & E).
  destruct (sub_days due_date today =? 1); [inversion E; auto |].
  destruct (sub_days due_date today =? 0); [inversion E; auto |].
  destruct (sub_days due_date today <? 0); [| inversion E; auto].
  apply bind_ok in E as (next & _ & E). simpl in E. discriminate.
Qed.

Lemma for_payments_store (today : date) payments (db : DB) :
  fst (fst (for_payments today payments db)) = db.
Proof.
  revert db. induction payments as [| payment rest IH]; intros db; simpl; auto.
  destruct (check_payment today payment db) as [[db1 shown] | e] eqn:E; auto.
  apply check_payment_store in E. subst db1.
  specialize (IH db).
  destruct (for_payments today rest db) as [[db2 shown'] raised]. exact IH.
Qed.

Lemma check_recurring_payments_store (today : date) (u : Z) (db : DB) :
  fst (check_recurring_payments today u db) = db.
Proof.
  unfold check_recurring_payments.
  pose proof (for_payments_store today (RecurringPayment.get_all u db) db) as E.
  destruct (for_payments today (RecurringPayment.get_all u db) db)
    as [[db' shown] raised].
  simpl in E. subst db'. destruct raised; reflexivity.
Qed.

Lemma alert_store (today : date) (current_user_id : option Z) (db : DB) :
  fst (alert today current_user_id db) = db.
Proof.
  unfold alert. destruct current_user_id as [u |]; auto.
  destruct (u =? 0); auto.
  pose proof (check_recurring_payments_store today u db) as E.
  destruct (check_recurring_payments today u db) as [db' shown]. exact E.
Qed.

Lemma wf_init : wf (init_db None).
Proof. constructor; simpl; constructor. Qed.

Lemma step_wf (db db' : DB) : wf db -> step db db' -> wf db'.
Proof.
  intros [HU HC HE HR HB HK] Hstep.
  destruct Hstep as
    [username password i db' E | name i db' E | name user_id
    | date category amount user_id db' E
    | expense_id date category amount user_id db' E
    | expense_id user_id db' E
    | name amount due_date frequency user_id db' E
    | payment_id user_id db' E
    | payment_id payment_date user_id db' E
    | month amount user_id db' E
    | today current_user_id ].
  - unfold User.add_user in E.
    destruct (existsb _ _); [discriminate |]. inversion E; subst.
    constructor; simpl; auto.
    apply (unique_ids_insert (fun i => mkUser i username password)); auto.
  - unfold Category.add in E.
    destruct (String.eqb name ""); [discriminate |]. simpl in E. discriminate.
  - constructor; simpl; auto. apply unique_ids_delete; auto.
  - unfold Expense.add in E. ok_inv E. inversion E; subst.
    constructor; simpl; auto.
    apply (unique_ids_insert
             (fun i => mkExpense i date category amount user_id)); auto.
  - unfold Expense.update in E.
    destruct (fetchone _); [| discriminate]. inversion E; subst.
    constructor; simpl; auto. apply unique_ids_update; auto.
  - unfold Expense.delete in E.
    destruct (fetchone _); [| discriminate]. inversion E; subst.
    constructor; simpl; auto. apply unique_ids_delete; auto.
  - unfold RecurringPayment.add in E. ok_inv E. inversion E; subst.
    constructor; simpl; auto.
    apply (unique_ids_insert
             (fun i => mkRecurringPayment i name amount due_date frequency
                                          user_id)); auto.
  - unfold RecurringPayment.delete in E.
    destruct (fetchone _); [| discriminate]. inversion E; subst.
    constructor; simpl; auto. apply unique_ids_delete; auto.
  - unfold RecurringPayment.mark_as_paid in E.
    destruct (fetchone _); [| discriminate]. ok_inv E. inversion E; subst.
    constructor; simpl; auto. apply unique_ids_update; auto.
  - unfold Budget.set_monthly_budget in E.
    destruct (fetchone _) eqn:Hsel.
    + inversion E; subst. constructor; simpl; auto.
      * apply unique_ids_update; auto.
      * pose proof (budget_keys_update (Budget.keyed month user_id) amount
                                       (Budgets db)) as K.
        simpl in K. rewrite K. exact HK.
    + ok_inv E. inversion E; subst. constructor; simpl; auto.
      * apply (unique_ids_insert (fun i => mkBudget i month amount user_id));
          auto.
      * apply NoDup_map_snoc; auto. simpl.
        apply budget_key_fresh. exact Hsel.
  - rewrite alert_store. constructor; auto.
Qed.

Lemma reachable_wf (db : DB) : reachable db -> wf db.
Proof.
  induction 1 as [| db db' _ IH Hstep].
  - exact wf_init.
  - exact (step_wf IH Hstep).
Qed.

(** ** The rollover rule *)

Lemma valid_fields_iff (y m d : Z) :
  valid_fields y m d = true <->
  MINYEAR <= y <= MAXYEAR /\ 1 <= m <= 12 /\ 1 <= d <= days_in_month y m.
Proof.
  unfold valid_fields. rewrite !andb_true_iff, !Z.leb_le. tauto.
Qed.

Lemma month_cases (m : Z) :
  1 <= m <= 12 ->
  m = 1 \/ m = 2 \/ m = 3 \/ m = 4 \/ m = 5 \/ m = 6 \/
  m = 7 \/ m = 8 \/ m = 9 \/ m = 10 \/ m = 11 \/ m = 12.
Proof. lia. Qed.

Ltac each_month Hm :=
  apply month_cases in Hm;
  repeat (destruct Hm as [Hm | Hm]); subst.

Lemma days_in_month_ge_28 (y m : Z) : 1 <= m <= 12 -> 28 <= days_in_month y m.
Proof.
  intros Hm. unfold days_in_month.
  each_month Hm; simpl; try lia. destruct (is_leap y); simpl; lia.
Qed.

Lemma days_in_month_le_31 (y m : Z) : days_in_month y m <= 31.
Proof.
  unfold days_in_month. destruct ((m =? 2) && is_leap y); [lia |].
  unfold DAYS_IN_MONTH.
  repeat match goal with
         | |- context [match ?x with _ => _ end] => destruct x
         end; lia.
Qed.

Lemma datetime_date_ok (y m d : Z) :
  valid_fields y m d = true -> datetime_date y m d = Ok (mkdate y m d).
Proof. unfold datetime_date. intros ->. reflexivity. Qed.

Lemma datetime_date_raise (y m d : Z) :
  valid_fields y m d = false -> forall r, datetime_date y m d <> Ok r.
Proof. unfold datetime_date. intros -> r. discriminate. Qed.

Lemma monthly_fields (m : Z) :
  1 <= m <= 12 ->
  m / 12 = (if m =? 12 then 1 else 0) /\
  m mod 12 + 1 = (if m =? 12 then 1 else m + 1).
Proof. intros Hm. each_month Hm; split; reflexivity. Qed.

(** C1 (as amended): for every date [d] of the date type other than those
    of December 9999, the Monthly rule returns the date of the next
    calendar month whose day is [min (day d) 28], the year incremented
    exactly when [d] is in December; the date returned is a valid one. *)
Theorem monthly_rollover (d : date) :
  valid_date d = true ->
  year d < MAXYEAR \/ month d < 12 ->
  calculate_next_due_date d "Monthly" = Ok (spec_next_month d) /\
  valid_date (spec_next_month d) = true.
Proof.
  destruct d as [y m dd]. unfold valid_date, spec_next_month. simpl.
  intros Hv Hlast. apply valid_fields_iff in Hv as (Hy & Hm & Hd).
  unfold MINYEAR, MAXYEAR in *.
  destruct (monthly_fields Hm) as [Ediv Emod].
  assert (valid_fields (if m =? 12 then y + 1 else y)
                       (if m =? 12 then 1 else m + 1) (Z.min dd 28) = true)
    as Hnew.
  { apply valid_fields_iff. unfold MINYEAR, MAXYEAR.
    assert (1 <= (if m =? 12 then 1 else m + 1) <= 12) as Hm'
        by (destruct (Z.eqb_spec m 12); lia).
    pose proof (days_in_month_ge_28 (if m =? 12 then y + 1 else y) Hm').
    destruct (Z.eqb_spec m 12); lia. }
  split; [| exact Hnew].
  unfold calculate_next_due_date. simpl.
  rewrite Ediv, Emod.
  replace (y + (if m =? 12 then 1 else 0)) with (if m =? 12 then y + 1 else y)
    by (destruct (m =? 12); lia).
  apply datetime_date_ok. exact Hnew.
Qed.

(** The two Monthly examples of the specification. *)
Lemma monthly_rollover_witness :
  calculate_next_due_date (mkdate 2024 1 31) "Monthly"
  = Ok (mkdate 2024 2 28) /\
  valid_date (mkdate 2024 2 28) = true.
Proof.
  apply (monthly_rollover (mkdate 2024 1 31)).
  - reflexivity.
  - left. vm_compute. reflexivity.
Defined.

Example monthly_2024_01_30 :
  calculate_next_due_date (mkdate 2024 1 30) "Monthly" = Ok (mkdate 2024 2 28).
Proof. vm_compute. reflexivity. Qed.

Example monthly_december :
  calculate_next_due_date (mkdate 2024 12 31) "Monthly" = Ok (mkdate 2025 1 28).
Proof. vm_compute. reflexivity. Qed.

(** C1 (as stated) fails in December 9999: the date constructor rejects
    the year 10000 and the rule returns no date. *)
Lemma monthly_rollover_december_9999 :
  valid_date (mkdate 9999 12 15) = true /\
  calculate_next_due_date (mkdate 9999 12 15) "Monthly"
  = Raise (ValueError "date field out of range") /\
  calculate_next_due_date (mkdate 9999 12 15) "Monthly"
  <> Ok (spec_next_month (mkdate 9999 12 15)).
Proof. repeat split. discriminate. Qed.

(** C3 (as amended): for every date [d] of the date type that is not a
    29 February and whose year is below 9999, the Yearly rule returns the
    date with the same month, the same day and the year incremented. *)
Theorem yearly_rollover (d : date) :
  valid_date d = true ->
  year d < MAXYEAR ->
  ~ (month d = 2 /\ day d = 29) ->
  calculate_next_due_date d "Yearly" = Ok (spec_next_year d).
Proof.
  destruct d as [y m dd]. unfold valid_date, spec_next_year. simpl.
  intros Hv Hy' Hfeb. apply valid_fields_iff in Hv as (Hy & Hm & Hd).
  unfold calculate_next_due_date. simpl.
  apply datetime_date_ok. apply valid_fields_iff.
  unfold MINYEAR, MAXYEAR in *. repeat split; try lia.
  unfold days_in_month in *.
  destruct (Z.eqb_spec m 2) as [-> | Hm2]; simpl in *.
  - destruct (is_leap y), (is_leap (y + 1)); lia.
  - exact (proj2 Hd).
Qed.

Lemma yearly_rollover_witness :
  calculate_next_due_date (mkdate 2024 3 15) "Yearly" = Ok (mkdate 2025 3 15).
Proof.
  apply (yearly_rollover (mkdate 2024 3 15)).
  - reflexivity.
  - vm_compute. reflexivity.
  - simpl. intros [E _]. discriminate.
Defined.

(** C3 (as stated) fails on its own example: 2024-02-29 is a date, and the
    Yearly rule raises on it, since 2025-02-29 is rejected by the date
    constructor. *)
Lemma yearly_rollover_feb_29 :
  valid_date (mkdate 2024 2 29) = true /\
  calculate_next_due_date (mkdate 2024 2 29) "Yearly"
  = Raise (ValueError "date field out of range") /\
  calculate_next_due_date (mkdate 2024 2 29) "Yearly"
  <> Ok (mkdate 2025 2 29).
Proof. repeat split. discriminate. Qed.

(** C9: a frequency other than "Weekly", "Monthly" and "Yearly" gives, on
    every date, what "Monthly" gives. *)
Theorem unrecognized_frequency_is_monthly (d : date) (f : string) :
  f <> "Weekly" -> f <> "Monthly" -> f <> "Yearly" ->
  calculate_next_due_date d f = calculate_next_due_date d "Monthly".
Proof.
  intros HW HM HY. unfold calculate_next_due_date.
  apply String.eqb_neq in HW, HM, HY. rewrite HW, HM, HY. reflexivity.
Qed.

Lemma unrecognized_frequency_is_monthly_witness :
  calculate_next_due_date (mkdate 2024 1 31) "Quarterly"
  = calculate_next_due_date (mkdate 2024 1 31) "Monthly".
Proof.
  apply unrecognized_frequency_is_monthly; discriminate.
Defined.

(** ** Ownership of expenses *)

Lemma fetchone_filter_some {A : Type} (p : A -> bool) (l : list A) (a : A) :
  In a l -> p a = true -> exists b, fetchone (filter p l) = Some b.
Proof.
  intros Hin Hp. destruct (fetchone (filter p l)) as [b |] eqn:E; [eauto |].
  rewrite fetchone_filter_none in E. rewrite (E a Hin) in Hp. discriminate.
Qed.

Lemma fetchone_filter_spec {A : Type} (p : A -> bool) (l : list A) :
  (exists b, fetchone (filter p l) = Some b) <->
  (exists a, In a l /\ p a = true).
Proof.
  split.
  - intros [b Hb]. apply fetchone_some_in, filter_In in Hb. eauto.
  - intros (a & Hin & Hp). eapply fetchone_filter_some; eauto.
Qed.

Lemma owned_true (expense_id user_id : Z) (e : ExpenseRow) :
  Expense.owned expense_id user_id e = true <->
  e_id e = expense_id /\ e_user_id e = user_id.
Proof. unfold Expense.owned. rewrite andb_true_iff, !Z.eqb_eq. tauto. Qed.

Lemma no_row_owned_by_other (db : DB) (row : ExpenseRow) (B : Z) :
  unique_ids (Expenses db) ->
  In row (rows (Expenses db)) -> e_user_id row <> B ->
  fetchone (sql_select (Expense.owned (e_id row) B) (Expenses db)) = None.
Proof.
  intros Hu Hin Hne. unfold sql_select. apply fetchone_filter_none.
  intros e He. destruct (Expense.owned (e_id row) B e) eqn:Ho; auto.
  apply owned_true in Ho as [Hid Huser].
  assert (e = row) by (eapply (NoDup_map_inj_on rowid); eauto).
  subst e. contradiction.
Qed.

Lemma expense_update_ok (e : Z) (d c : string) (a : real) (u : Z) (db : DB) :
  is_ok (Expense.update e d c a u db) = true <->
  exists r, In r (rows (Expenses db)) /\ e_id r = e /\ e_user_id r = u.
Proof.
  unfold Expense.update, sql_select.
  destruct (fetchone (filter (Expense.owned e u) (rows (Expenses db))))
    as [b |] eqn:E; simpl.
  - split; auto. intros _.
    apply fetchone_some_in, filter_In in E as [Hin Ho].
    apply owned_true in Ho. eauto.
  - split; [discriminate |]. intros (r & Hin & Hid & Hu).
    rewrite fetchone_filter_none in E.
    assert (Expense.owned e u r = true) as Ho by (apply owned_true; auto).
    rewrite (E r Hin) in Ho. discriminate.
Qed.

Lemma expense_delete_ok (e u : Z) (db : DB) :
  is_ok (Expense.delete e u db) = true <->
  exists r, In r (rows (Expenses db)) /\ e_id r = e /\ e_user_id r = u.
Proof.
  unfold Expense.delete, sql_select.
  destruct (fetchone (filter (Expense.owned e u) (rows (Expenses db))))
    as [b |] eqn:E; simpl.
  - split; auto. intros _.
    apply fetchone_some_in, filter_In in E as [Hin Ho].
    apply owned_true in Ho. eauto.
  - split; [discriminate |]. intros (r & Hin & Hid & Hu).
    rewrite fetchone_filter_none in E.
    assert (Expense.owned e u r = true) as Ho by (apply owned_true; auto).
    rewrite (E r Hin) in Ho. discriminate.
Qed.

(** C5: an expense stored for a user other than [B] is not among the
    tuples listed for [B]; [update] and [delete] by [B] on its id raise the
    not-found-or-forbidden error and leave the store as it was; and, for any
    id and user, [update] and [delete] succeed exactly when a row with that
    id and that user_id exists. *)
Theorem expense_ownership_isolation (db : DB) (row : ExpenseRow) (B : Z) :
  wf db ->
  In row (rows (Expenses db)) ->
  e_user_id row <> B ->
  (forall t, In t (Expense.get_all B db) -> fst (fst (fst t)) <> e_id row) /\
  (forall d c a,
      Expense.update (e_id row) d c a B db = Raise Expense.not_found /\
      store_after db (Expense.update (e_id row) d c a B db) = db) /\
  (Expense.delete (e_id row) B db = Raise Expense.not_found /\
   store_after db (Expense.delete (e_id row) B db) = db) /\
  (forall e u d c a,
      is_ok (Expense.update e d c a u db) = true <->
      exists r, In r (rows (Expenses db)) /\ e_id r = e /\ e_user_id r = u) /\
  (forall e u,
      is_ok (Expense.delete e u db) = true <->
      exists r, In r (rows (Expenses db)) /\ e_id r = e /\ e_user_id r = u).
Proof.
  intros Hwf Hin Hne. pose proof (wf_Expenses Hwf) as Hu.
  pose proof (no_row_owned_by_other db row Hu Hin Hne) as Hnone.
  repeat split.
  - intros t Ht Hid. unfold Expense.get_all in Ht.
    apply in_map_iff in Ht as (e & <- & He). simpl in Hid.
    apply In_order_by in He. unfold sql_select in He.
    apply filter_In in He as [He HB]. apply Z.eqb_eq in HB.
    assert (e = row) by (eapply (NoDup_map_inj_on rowid); eauto).
    subst e. contradiction.
  - unfold Expense.update. rewrite Hnone. reflexivity.
  - unfold Expense.update. rewrite Hnone. reflexivity.
  - unfold Expense.delete. rewrite Hnone. reflexivity.
  - unfold Expense.delete. rewrite Hnone. reflexivity.
  - apply expense_update_ok.
  - apply expense_update_ok.
  - apply expense_delete_ok.
  - apply expense_delete_ok.
Qed.

Example store_two_users_built :
  (r1 <- User.add_user "alice" "p1" (init_db None) ;;
   r2 <- User.add_user "bob" "p2" (snd r1) ;;
   Expense.add "2025-01-10" "Food" (money 12 50) (fst r1) (snd r2))
  = Ok store_two_users.
Proof. vm_compute. reflexivity. Qed.

Lemma store_two_users_reachable : reachable store_two_users.
Proof.
  eapply reachable_step.
  - eapply reachable_step.
    + eapply reachable_step; [exact reachable_init |].
      apply step_add_user with (username := "alice") (password := "p1")
                               (i := 1).
      vm_compute. reflexivity.
    + apply step_add_user with (username := "bob") (password := "p2")
                               (i := 2).
      vm_compute. reflexivity.
  - apply step_expense_add with (date := "2025-01-10") (category := "Food")
                                (amount := money 12 50) (user_id := 1).
    vm_compute. reflexivity.
Qed.

Lemma expense_ownership_isolation_witness :
  Expense.get_all 2 store_two_users = [] /\
  Expense.update 1 "2025-02-01" "Rent" (money 900 0) 2 store_two_users
  = Raise Expense.not_found /\
  Expense.delete 1 2 store_two_users = Raise Expense.not_found /\
  is_ok (Expense.update 1 "2025-02-01" "Rent" (money 900 0) 1
                        store_two_users) = true.
Proof.
  pose proof (@expense_ownership_isolation
                store_two_users
                (mkExpense 1 "2025-01-10" "Food" (money 12 50) 1) 2
                (reachable_wf store_two_users_reachable)
                (or_introl eq_refl)
                ltac:(simpl; lia)) as (_ & Hupd & Hdel & Hok & _).
  split; [reflexivity |].
  split; [exact (proj1 (Hupd "2025-02-01" "Rent" (money 900 0))) |].
  split; [exact (proj1 Hdel) |].
  apply Hok. exists (mkExpense 1 "2025-01-10" "Food" (money 12 50) 1).
  simpl. auto.
Defined.

(** ** Marking a recurring payment as paid *)

Lemma payment_owned_true (payment_id user_id : Z) (r : RecurringPaymentRow) :
  RecurringPayment.owned payment_id user_id r = true <->
  r_id r = payment_id /\ r_user_id r = user_id.
Proof.
  unfold RecurringPayment.owned. rewrite andb_true_iff, !Z.eqb_eq. tauto.
Qed.

Lemma payment_lookup (db : DB) (row : RecurringPaymentRow) :
  unique_ids (RecurringPayments db) ->
  In row (rows (RecurringPayments db)) ->
  fetchone (sql_select (RecurringPayment.owned (r_id row) (r_user_id row))
                       (RecurringPayments db)) = Some row.
Proof.
  intros Hu Hin. unfold sql_select.
  assert (RecurringPayment.owned (r_id row) (r_user_id row) row = true) as Ho
      by (apply payment_owned_true; auto).
  destruct (fetchone_filter_some _ _ _ Hin Ho) as [b Hb].
  rewrite Hb. f_equal.
  apply fetchone_some_in, filter_In in Hb as [Hb Hob].
  apply payment_owned_true in Hob as [Hid _].
  eapply (NoDup_map_inj_on rowid); eauto.
Qed.

(** C10: for a stored payment [row], [mark_as_paid] called by its owner with
    a payment date that parses to [paid] stores, as the new due date, the
    rollover of [paid] by the stored frequency (not of the stored due date);
    the row keeps its id, name, amount, frequency and user_id, and every
    other row is left as it was. *)
Theorem mark_as_paid_rolls_payment_date
        (db : DB) (row : RecurringPaymentRow) (payment_date : string)
        (paid next : date) :
  wf db ->
  In row (rows (RecurringPayments db)) ->
  strptime_ymd payment_date = Ok paid ->
  calculate_next_due_date paid (r_frequency row) = Ok next ->
  exists db',
    RecurringPayment.mark_as_paid (r_id row) payment_date (r_user_id row) db
    = Ok db' /\
    rows (RecurringPayments db')
    = map (fun r =>
             if r_id r =? r_id row
             then mkRecurringPayment (r_id row) (r_name row) (r_amount row)
                                     (strftime_ymd next) (r_frequency row)
                                     (r_user_id row)
             else r)
          (rows (RecurringPayments db)) /\
    In (mkRecurringPayment (r_id row) (r_name row) (r_amount row)
                           (strftime_ymd next) (r_frequency row)
                           (r_user_id row))
       (rows (RecurringPayments db')).
Proof.
  intros Hwf Hin Hparse Hnext. pose proof (wf_RecurringPayments Hwf) as Hu.
  unfold RecurringPayment.mark_as_paid.
  rewrite (payment_lookup db row Hu Hin), Hparse. simpl. rewrite Hnext. simpl.
  eexists. split; [reflexivity |].
  assert (forall r, In r (rows (RecurringPayments db)) ->
                    (if RecurringPayment.owned (r_id row) (r_user_id row) r
                     then RecurringPayment.set_due_date (strftime_ymd next) r
                     else r)
                    = (if r_id r =? r_id row
                       then mkRecurringPayment
                              (r_id row) (r_name row) (r_amount row)
                              (strftime_ymd next) (r_frequency row)
                              (r_user_id row)
                       else r)) as Hrow.
  { intros r Hr. unfold RecurringPayment.owned.
    destruct (Z.eqb_spec (r_id r) (r_id row)) as [Hid | Hid]; simpl; auto.
    assert (r = row) by (eapply (NoDup_map_inj_on rowid); eauto).
    subst r. rewrite Z.eqb_refl. reflexivity. }
  split.
  - apply map_ext_in. exact Hrow.
  - apply in_map_iff. exists row. split; auto.
    rewrite Hrow by exact Hin. rewrite Z.eqb_refl. reflexivity.
Qed.

Lemma store_rent_reachable : reachable store_rent.
Proof.
  eapply reachable_step.
  - eapply reachable_step; [exact reachable_init |].
    apply step_add_user with (username := "alice") (password := "p1")
                             (i := 1).
    vm_compute. reflexivity.
  - apply step_payment_add with (name := "Rent") (amount := money 1200 0)
                                (due_date := "2024-03-14")
                                (frequency := "Monthly") (user_id := 1).
    vm_compute. reflexivity.
Qed.

Lemma mark_as_paid_rolls_payment_date_witness :
  exists db',
    RecurringPayment.mark_as_paid 1 "2024-03-20" 1 store_rent = Ok db' /\
    rows (RecurringPayments db')
    = [mkRecurringPayment 1 "Rent" (money 1200 0)
                                  "2024-04-20" "Monthly" 1].
Proof.
  destruct (@mark_as_paid_rolls_payment_date
              store_rent
              (mkRecurringPayment 1 "Rent" (money 1200 0)
                                  "2024-03-14" "Monthly" 1)
              "2024-03-20" (mkdate 2024 3 20) (mkdate 2024 4 20)
              (reachable_wf store_rent_reachable)
              (or_introl eq_refl) eq_refl eq_refl)
    as (db' & Hcall & Hrows & _).
  exists db'. split; [exact Hcall |]. rewrite Hrows. reflexivity.
Defined.

(** ** Budgets *)

Lemma unique_key_select (month : string) (user_id : Z) (l : list BudgetRow)
      (b : BudgetRow) :
  NoDup (map budget_key l) -> In b l ->
  Budget.keyed month user_id b = true ->
  filter (Budget.keyed month user_id) l = [b].
Proof.
  induction l as [| a l IH]; simpl; intros Hnd Hin Hk; [destruct Hin |].
  inversion Hnd as [| ? ? Ha Hl]; subst.
  destruct Hin as [-> | Hin].
  - rewrite Hk. f_equal.
    destruct (filter (Budget.keyed month user_id) l) as [| c l'] eqn:E; auto.
    assert (In c (filter (Budget.keyed month user_id) l)) as Hc
        by (rewrite E; left; auto).
    apply filter_In in Hc as [Hc Hkc]. exfalso. apply Ha.
    apply keyed_true in Hk, Hkc. rewrite Hk, <- Hkc. apply in_map. exact Hc.
  - destruct (Budget.keyed month user_id a) eqn:Hka.
    + exfalso. apply Ha. apply keyed_true in Hk, Hka.
      rewrite Hka, <- Hk. apply in_map. exact Hin.
    + apply IH; auto.
Qed.

Lemma set_monthly_budget_ok (month : string) (amount : real) (user_id : Z)
      (db : DB) :
  user_exists user_id db = true ->
  exists db',
    Budget.set_monthly_budget month amount user_id db = Ok db' /\
    Users db' = Users db /\
    exists b, In b (rows (Budgets db')) /\
              Budget.keyed month user_id b = true /\ b_amount b = amount.
Proof.
  intros Hex. unfold Budget.set_monthly_budget, sql_select.
  destruct (fetchone (filter (Budget.keyed month user_id) (rows (Budgets db))))
    as [b0 |] eqn:E.
  - eexists. split; [reflexivity |]. split; [reflexivity |].
    apply fetchone_some_in, filter_In in E as [Hin Hk].
    exists (mkBudget (b_id b0) (b_month b0) amount (b_user_id b0)).
    split; [| split; auto].
    simpl. apply in_map_iff. exists b0. rewrite Hk. auto.
  - unfold foreign_key. rewrite Hex. simpl.
    eexists. split; [reflexivity |]. split; [reflexivity |].
    eexists. split; [simpl; apply in_or_app; right; left; reflexivity |].
    split; [| reflexivity].
    unfold Budget.keyed. simpl. rewrite String.eqb_refl, Z.eqb_refl. reflexivity.
Qed.

(** C6: with the Budget table holding at most one row per (month, user)
    as it does in every reachable store, and [u] a registered user, setting
    the budget of month [m] to [a1] and then to [a2] succeeds twice, leaves
    exactly one Budget row for [(m, u)], and [get_monthly_budget] then
    returns [a2]. *)
Theorem budget_upsert (db : DB) (m : string) (u : Z) (a1 a2 : real) :
  wf db ->
  user_exists u db = true ->
  exists db1 db2,
    Budget.set_monthly_budget m a1 u db = Ok db1 /\
    Budget.set_monthly_budget m a2 u db1 = Ok db2 /\
    List.length (sql_select (Budget.keyed m u) (Budgets db2)) = 1%nat /\
    Budget.get_monthly_budget m u db2 = Some a2.
Proof.
  intros Hwf Hex.
  destruct (set_monthly_budget_ok m a1 u db Hex) as (db1 & E1 & HU1 & _).
  assert (user_exists u db1 = true) as Hex1
      by (unfold user_exists in *; rewrite HU1; exact Hex).
  destruct (set_monthly_budget_ok m a2 u db1 Hex1)
    as (db2 & E2 & _ & b & Hin & Hk & Ha).
  assert (wf db2) as Hwf2.
  { apply step_wf with (db := db1).
    - apply step_wf with (db := db); auto.
      apply step_budget_set with (month := m) (amount := a1) (user_id := u).
      exact E1.
    - apply step_budget_set with (month := m) (amount := a2) (user_id := u).
      exact E2. }
  exists db1, db2. split; [exact E1 |]. split; [exact E2 |].
  unfold Budget.get_monthly_budget, sql_select.
  rewrite (@unique_key_select m u _ b (wf_budget_keys Hwf2) Hin Hk).
  simpl. rewrite Ha. auto.
Qed.

Example store_alice_registered :
  User.add_user "alice" "p1" (init_db None) = Ok (1, store_alice).
Proof. vm_compute. reflexivity. Qed.

Lemma store_alice_reachable : reachable store_alice.
Proof.
  eapply reachable_step; [exact reachable_init |].
  apply step_add_user with (username := "alice") (password := "p1") (i := 1).
  exact store_alice_registered.
Qed.

(** The example of the specification: 500, then 700, for "2025-01". *)
Lemma budget_upsert_witness :
  exists db1 db2,
    Budget.set_monthly_budget "2025-01" (money 500 0) 1 store_alice = Ok db1 /\
    Budget.set_monthly_budget "2025-01" (money 700 0) 1 db1 = Ok db2 /\
    List.length (sql_select (Budget.keyed "2025-01" 1) (Budgets db2)) = 1%nat /\
    Budget.get_monthly_budget "2025-01" 1 db2 = Some (money 700 0).
Proof.
  apply (@budget_upsert store_alice "2025-01" 1 (money 500 0)
                       (money 700 0)).
  - exact (reachable_wf store_alice_reachable).
  - reflexivity.
Defined.

Example budget_upsert_rows :
  (db1 <- Budget.set_monthly_budget "2025-01" (money 500 0) 1 store_alice ;;
   db2 <- Budget.set_monthly_budget "2025-01" (money 700 0) 1 db1 ;;
   Ok (rows (Budgets db2)))
  = Ok [mkBudget 1 "2025-01" (money 700 0) 1].
Proof. vm_compute. reflexivity. Qed.

(** ** Floating-point comparison and sums *)




Lemma compare_refl (x : float) : is_nan x = false -> SFcompare x x = Some Eq.
Proof.
  destruct x as [s | s | | s m e]; simpl; intros H; try discriminate; auto.
  - destruct s; reflexivity.
  - rewrite Z.compare_refl.
    assert (Pos.compare_cont Eq m m = Eq) as -> by apply Pos.compare_refl.
    destruct s; reflexivity.
Qed.



Lemma fold_sumStep (l : list real) (p : SumCtx) :
  fold_left sumStep l p
  = mkSumCtx (fold_left (fun acc a => Float.add acc (to_float a)) l (rSum p))
             (cnt p + Z.of_nat (List.length l)).
Proof.
  revert p. induction l as [| a l IH]; intros [r c]; simpl.
  - f_equal. lia.
  - rewrite IH. unfold sumStep. cbn [rSum cnt]. f_equal. lia.
Qed.

(** The aggregate gives the floating-point sum of the values, NULL when
    there is none or the sum is NaN. *)
Lemma sql_sum_spec (l : list real) :
  sql_sum l
  = match l with
    | [] => None
    | _ => if is_nan (float_sum l) then None else Some (float_sum l)
    end.
Proof.
  unfold sql_sum, sumFinalize. rewrite fold_sumStep. cbn [rSum cnt].
  destruct l as [| a l]; [reflexivity |].
  assert ((0 <? 0 + Z.of_nat (List.length (a :: l))) = true) as ->
      by (apply Z.ltb_lt; simpl List.length; lia).
  reflexivity.
Qed.

Lemma spending_total (s : string) (u : Z) (db : DB) :
  Expense.get_spending_since s u db
  = total_or_zero
      (float_sum (map e_amount
                      (filter (Expense.since s u) (rows (Expenses db))))).
Proof.
  unfold Expense.get_spending_since, sql_select, total_or_zero.
  rewrite sql_sum_spec.
  destruct (map e_amount (filter (Expense.since s u) (rows (Expenses db))))
    as [| a l] eqn:E; [reflexivity |].
  destruct (is_nan (float_sum (a :: l))); reflexivity.
Qed.

Lemma total_or_zero_number (t : float) : is_nan (total_or_zero t) = false.
Proof. destruct t; reflexivity. Qed.

(** ** Spending since a date *)

(** C8: [get_spending_since s u] is the sum of the amounts of exactly the
    expenses of [u] whose date is at least [s] in the order of TEXT values:
    the floating-point sum of these amounts taken in the order of their
    ids, which it equals as a number whenever that sum is a number.  It is
    the number 0.0 when there is no such expense, and it is always a
    number. *)
Theorem spending_since_is_sum (s : string) (u : Z) (db : DB) :
  let matching :=
    filter (fun e => (s <=? e_date e)%string && (e_user_id e =? u))
           (rows (Expenses db)) in
  let total := float_sum (map e_amount matching) in
  (forall e, In e matching <->
             In e (rows (Expenses db)) /\
             e_user_id e = u /\ (s <=? e_date e)%string = true) /\
  (is_nan total = false ->
   Float.eqb (Expense.get_spending_since s u db) total = true) /\
  (is_nan total = false -> is_zero total = false ->
   Expense.get_spending_since s u db = total) /\
  (matching = [] -> Expense.get_spending_since s u db = Float.zero) /\
  is_nan (Expense.get_spending_since s u db) = false.
Proof.
  intros matching total.
  assert (Expense.get_spending_since s u db = total_or_zero total) as E
      by apply spending_total.
  split; [| split; [| split; [| split]]].
  - intros e. unfold matching. rewrite filter_In, andb_true_iff, Z.eqb_eq. tauto.
  - intros Hnum. rewrite E. unfold total_or_zero. rewrite Hnum. simpl.
    destruct (is_zero total) eqn:Hz.
    + destruct total; try discriminate. reflexivity.
    + unfold Float.eqb, SFeqb. rewrite compare_refl by exact Hnum. reflexivity.
  - intros Hnum Hnz. rewrite E. unfold total_or_zero.
    rewrite Hnum, Hnz. reflexivity.
  - intros Hnone. rewrite E. unfold total. rewrite Hnone. reflexivity.
  - rewrite E. apply total_or_zero_number.
Qed.

Lemma spending_since_is_sum_witness :
  Expense.get_spending_since "2025-01-11" 1 store_two_users = Float.zero /\
  Expense.get_spending_since "2025-01-01" 1 store_two_users
  = to_float (money 12 50).
Proof.
  split.
  - apply (proj1 (proj2 (proj2 (proj2 (spending_since_is_sum
                                         "2025-01-11" 1 store_two_users))))).
    reflexivity.
  - apply (proj1 (proj2 (proj2 (spending_since_is_sum
                                  "2025-01-01" 1 store_two_users))));
      reflexivity.
Defined.

Example spending_since_example :
  Expense.get_spending_since "2025-01-01" 1 store_two_users
  = to_float (money 12 50) /\
  Expense.get_spending_since "2025-01-11" 1 store_two_users = Float.zero /\
  Expense.get_spending_since "2025-01-01" 2 store_two_users = Float.zero.
Proof. vm_compute. auto. Qed.

(** Every addition rounds: three tenths are less than the total of one
    tenth and two tenths. *)
Example spending_since_rounds :
  Expense.get_spending_since "2024-03-01" 1 store_tenths
  = S754_finite false 5404319552844596 (-54) /\
  to_float (money 0 30) = S754_finite false 5404319552844595 (-54).
Proof. vm_compute. auto. Qed.

(** ** The budget alert *)


Example store_over_budget_built :
  Expense.add "2024-03-15" "Gum" (money 0 1) 1 store_on_budget
  = Ok store_over_budget.
Proof. vm_compute. reflexivity. Qed.


(** With 500 budgeted, the 300, 200 and 0.01 spent are 500 plus one
    hundredth. *)
Example budget_plus_one_hundredth :
  Expense.get_spending_since "2024-03-01" 1 store_over_budget
  = Float.add (to_float (money 500 0)) (to_float (money 0 1)) /\
  Float.ltb (to_float (money 500 0))
            (Expense.get_spending_since "2024-03-01" 1 store_over_budget)
  = true.
Proof. vm_compute. auto. Qed.

(** With a budget of three tenths, one tenth and two tenths spent are over
    it, as their floating-point total is. *)
Example budget_of_three_tenths :
  check_budget (mkdate 2024 3 15) 1 store_tenths
  = [BudgetExceeded (money 0 30)
                    (S754_finite false 5404319552844596 (-54))].
Proof. vm_compute. reflexivity. Qed.

(** ** Adding a category *)

(** [Category.add] commits nothing, whatever the name and the store: the
    statement leaves the NOT NULL column [user_id] out. *)
Lemma category_add_raises (name : string) (db : DB) :
  Category.add name db
  = Raise (ValueError (if String.eqb name ""
                       then "Category name must be a non-empty string."
                       else "Category already exists.")).
Proof.
  unfold Category.add. destruct (String.eqb name ""); reflexivity.
Qed.

(** C4 (the code departs from it): on a store with a registered user and
    no category at all, adding the category "Food" is reported as a
    duplicate and no row is stored. *)
Theorem category_add_on_empty_table :
  rows (Categories store_alice) = [] /\
  user_exists 1 store_alice = true /\
  Category.add "Food" store_alice
  = Raise (ValueError "Category already exists.") /\
  Category.add "" store_alice
  = Raise (ValueError "Category name must be a non-empty string.").
Proof. repeat split. Qed.

(** ** Overdue recurring payments *)

(** C2 (the code departs from it): Alice's rent was due on 2024-03-14 and
    the evaluator runs on 2024-03-15.  The rollover rule gives 2024-04-14,
    but the evaluator ends in its exception handler: the store is the one
    it started from, the stored due date is still 2024-03-14, and the only
    dialog shown is the error. *)
Theorem overdue_payment_is_not_advanced :
  RecurringPayment.get_all 1 store_rent
  = [(1, "Rent", money 1200 0, "2024-03-14", "Monthly")] /\
  sub_days (mkdate 2024 3 14) (mkdate 2024 3 15) = -1 /\
  calculate_next_due_date (mkdate 2024 3 14) "Monthly"
  = Ok (mkdate 2024 4 14) /\
  check_recurring_payments (mkdate 2024 3 15) 1 store_rent
  = (store_rent,
     [ErrorDialog
        (AttributeError
           "type object 'RecurringPayment' has no attribute 'update_due_date'")]).
Proof. vm_compute. repeat split. Qed.

(** An overdue payment sorts first and ends the scan: a payment due today
    that follows it is not announced. *)
Example overdue_payment_hides_due_today :
  forall db,
    RecurringPayment.add "Gym" (money 30 0) "2024-03-15" "Monthly" 1
                         store_rent = Ok db ->
    snd (check_recurring_payments (mkdate 2024 3 15) 1 db)
    = [ErrorDialog
         (AttributeError
            "type object 'RecurringPayment' has no attribute 'update_due_date'")].
Proof. intros db E. vm_compute in E. inversion E; subst. reflexivity. Qed.

(** Without an overdue payment the scan announces what is due today and
    tomorrow. *)
Example due_today_and_tomorrow :
  check_recurring_payments (mkdate 2024 3 14) 1 store_rent
  = (store_rent, [PaymentDueToday "Rent" (money 1200 0)]) /\
  check_recurring_payments (mkdate 2024 3 13) 1 store_rent
  = (store_rent, [PaymentDueTomorrow "Rent" (money 1200 0)]) /\
  check_recurring_payments (mkdate 2024 3 1) 1 store_rent
  = (store_rent, []).
Proof. vm_compute. repeat split. Qed.


(** * Further properties of the domain layer *)

(** ** Sorting *)

Lemma insert_sorted_perm {A : Type} (le : A -> A -> bool) (x : A) (l : list A) :
  Permutation (insert_sorted le x l) (x :: l).
Proof.
  induction l as [| y l IH]; simpl; auto.
  destruct (le x y); auto.
  rewrite IH. apply perm_swap.
Qed.

Lemma order_by_perm {A : Type} (le : A -> A -> bool) (l : list A) :
  Permutation (order_by le l) l.
Proof.
  unfold order_by. induction l as [| x l IH]; simpl; auto.
  rewrite insert_sorted_perm. auto.
Qed.

Section Sorting.
Context {A : Type} (le : A -> A -> bool).
Hypothesis le_total : forall a b, le a b = true \/ le b a = true.

Let R (a b : A) : Prop := le a b = true.

Lemma insert_sorted_hd (x y : A) (l : list A) :
  R y x -> HdRel R y l -> HdRel R y (insert_sorted le x l).
Proof.
  intros Hyx Hhd. destruct l as [| z l]; simpl.
  - constructor. exact Hyx.
  - destruct (le x z); constructor; auto. inversion Hhd; auto.
Qed.

Lemma insert_sorted_sorted (x : A) (l : list A) :
  Sorted R l -> Sorted R (insert_sorted le x l).
Proof.
  induction l as [| y l IH]; simpl; intros Hs.
  - repeat constructor.
  - inversion Hs as [| ? ? Hl Hhd]; subst.
    destruct (le x y) eqn:Hxy.
    + constructor; auto.
    + constructor; auto. apply insert_sorted_hd; auto.
      destruct (le_total x y) as [E | E]; [congruence | exact E].
Qed.

Lemma order_by_sorted (l : list A) : Sorted R (order_by le l).
Proof.
  unfold order_by. induction l as [| x l IH]; simpl.
  - constructor.
  - apply insert_sorted_sorted. exact IH.
Qed.
End Sorting.

Lemma Sorted_map {A B : Type} (f : A -> B) (R : B -> B -> Prop) (l : list A) :
  Sorted (fun a b => R (f a) (f b)) l -> Sorted R (map f l).
Proof.
  induction 1 as [| a l Hl IH Hhd]; simpl; constructor; auto.
  destruct Hhd; simpl; constructor; auto.
Qed.

Lemma leb_trans (s1 s2 s3 : string) :
  (s1 <=? s2)%string = true -> (s2 <=? s3)%string = true ->
  (s1 <=? s3)%string = true.
Proof.
  unfold String.leb. revert s2 s3.
  induction s1 as [| c1 s1 IH]; intros [| c2 s2] [| c3 s3]; simpl; auto;
    try discriminate.
  unfold Ascii.compare.
  destruct (N.compare_spec (N_of_ascii c1) (N_of_ascii c2)) as [E12 | L12 | G12];
    destruct (N.compare_spec (N_of_ascii c2) (N_of_ascii c3)) as [E23 | L23 | G23];
    destruct (N.compare_spec (N_of_ascii c1) (N_of_ascii c3)) as [E13 | L13 | G13];
    auto; try discriminate; try lia.
  apply IH.
Qed.

(** A WHERE clause can be applied before or after ORDER BY. *)
Section SortedFilter.
Context {A : Type} (le : A -> A -> bool) (p : A -> bool).
Hypothesis le_total : forall a b, le a b = true \/ le b a = true.
Hypothesis le_trans :
  forall a b c, le a b = true -> le b c = true -> le a c = true.

Let R (a b : A) : Prop := le a b = true.

Lemma insert_sorted_first (x : A) (l : list A) :
  (forall y, In y l -> le x y = true) -> insert_sorted le x l = x :: l.
Proof.
  destruct l as [| y l]; simpl; auto.
  intros Hall. rewrite Hall by (left; reflexivity). reflexivity.
Qed.

Lemma filter_insert_sorted (x : A) (l : list A) :
  Sorted R l ->
  filter p (insert_sorted le x l)
  = if p x then insert_sorted le x (filter p l) else filter p l.
Proof.
  induction l as [| y l IH]; intros Hs.
  - simpl. destruct (p x); reflexivity.
  - assert (StronglySorted R (y :: l)) as Hss.
    { apply Sorted_StronglySorted; [| exact Hs].
      intros a b c. apply le_trans. }
    inversion Hss as [| ? ? Hsl Hall]; subst.
    inversion Hs as [| ? ? Hsorted _]; subst.
    cbn [insert_sorted]. destruct (le x y) eqn:Hxy.
    + change (filter p (x :: y :: l))
        with (if p x then x :: filter p (y :: l) else filter p (y :: l)).
      destruct (p x); [| reflexivity].
      symmetry. apply insert_sorted_first.
      intros z Hz. apply filter_In in Hz as [[<- | Hz] _]; auto.
      eapply le_trans; [exact Hxy |].
      rewrite Forall_forall in Hall. apply Hall. exact Hz.
    + cbn [filter]. rewrite IH by exact Hsorted.
      destruct (p x), (p y); cbn [insert_sorted]; rewrite ?Hxy; reflexivity.
Qed.

Lemma order_by_filter (l : list A) :
  filter p (order_by le l) = order_by le (filter p l).
Proof.
  induction l as [| x l IH]; [reflexivity |].
  change (order_by le (x :: l)) with (insert_sorted le x (order_by le l)).
  rewrite filter_insert_sorted by (apply order_by_sorted; exact le_total).
  rewrite IH. cbn [filter]. destruct (p x); reflexivity.
Qed.
End SortedFilter.

(** ** Users *)

Lemma add_user_inv (username password : string) (i : Z) (db db' : DB) :
  User.add_user username password db = Ok (i, db') ->
  (forall r, In r (rows (Users db)) -> u_username r <> username) /\
  i = next_rowid (Users db) /\
  db' = with_Users (mktable (rows (Users db) ++ [mkUser i username password]) i)
                   db.
Proof.
  unfold User.add_user.
  destruct (existsb _ _) eqn:Hex; [discriminate |]. simpl.
  intros E. inversion E; subst. split; [| split; reflexivity].
  intros r Hr Heq.
  assert (existsb (fun u => String.eqb (u_username u) username)
                  (rows (Users db)) = true) as Habs.
  { apply existsb_exists. exists r. split; auto. apply String.eqb_eq. auto. }
  congruence.
Qed.

Lemma filter_none {A : Type} (p : A -> bool) (l : list A) :
  (forall a, In a l -> p a = false) -> filter p l = [].
Proof.
  induction l as [| a l IH]; simpl; intros Hall; auto.
  rewrite (Hall a) by (left; auto). apply IH. intros; apply Hall; right; auto.
Qed.

(** X1: a registration that succeeds returns an id no stored user has;
    afterwards the new credentials authenticate to that id, the same name
    with any other password is refused, and every other name authenticates
    exactly as it did before. *)
Theorem register_then_authenticate
        (username password : string) (i : Z) (db db' : DB) :
  User.add_user username password db = Ok (i, db') ->
  User.authenticate username password db' = Some i /\
  (forall p, p <> password -> User.authenticate username p db' = None) /\
  (forall u p, u <> username ->
               User.authenticate u p db' = User.authenticate u p db) /\
  (forall r, In r (rows (Users db)) -> u_id r <> i).
Proof.
  intros E. apply add_user_inv in E as (Hfresh & Hi & ->).
  assert (forall p, filter (fun u => String.eqb (u_username u) username &&
                                     String.eqb (u_password u) p)
                           (rows (Users db)) = []) as Hold.
  { intros p. apply filter_none. intros r Hr.
    apply andb_false_iff. left. apply String.eqb_neq. auto. }
  unfold User.authenticate, sql_select. simpl.
  repeat split.
  - rewrite filter_app, Hold. simpl. rewrite !String.eqb_refl. reflexivity.
  - intros p Hp. rewrite filter_app, Hold. simpl.
    rewrite String.eqb_refl. simpl.
    apply String.eqb_neq in Hp. rewrite String.eqb_sym, Hp. reflexivity.
  - intros u p Hu. rewrite filter_app. simpl.
    apply String.eqb_neq in Hu. rewrite String.eqb_sym, Hu. simpl.
    rewrite app_nil_r. reflexivity.
  - intros r Hr Heq. apply next_rowid_fresh in Hr.
    change (rowid r) with (u_id r) in Hr. lia.
Qed.

Lemma register_then_authenticate_witness :
  User.authenticate "alice" "p1" store_alice = Some 1 /\
  User.authenticate "alice" "wrong" store_alice = None.
Proof.
  destruct (@register_then_authenticate "alice" "p1" 1 (init_db None)
                                        store_alice eq_refl)
    as (Hok & Hbad & _).
  split; [exact Hok |]. apply Hbad. discriminate.
Defined.

(** X2: once a name is registered, registering it again, with any
    password, raises the duplicate-username ValueError. *)
Theorem register_twice_is_refused
        (username password password' : string) (i : Z) (db db' : DB) :
  User.add_user username password db = Ok (i, db') ->
  User.add_user username password' db'
  = Raise (ValueError "Username already exists.").
Proof.
  intros E. apply add_user_inv in E as (_ & _ & ->).
  unfold User.add_user. simpl.
  rewrite existsb_app. simpl. rewrite String.eqb_refl.
  rewrite orb_true_r. reflexivity.
Qed.

Lemma register_twice_is_refused_witness :
  User.add_user "alice" "p2" store_alice
  = Raise (ValueError "Username already exists.").
Proof.
  apply (@register_twice_is_refused "alice" "p1" "p2" 1 (init_db None)
                                    store_alice).
  reflexivity.
Defined.

(** ** Ownership is kept by every operation *)

Lemma foreign_key_ok (user_id : Z) (db : DB) (x : unit) :
  foreign_key user_id db = Ok x -> user_exists user_id db = true.
Proof.
  unfold foreign_key. destruct (user_exists user_id db); [auto | discriminate].
Qed.

Lemma in_update {R : Type} (p : R -> bool) (f : R -> R) (l : list R) (r' : R) :
  In r' (map (fun r => if p r then f r else r) l) ->
  exists r, In r l /\ (r' = r \/ r' = f r).
Proof.
  intros Hin. apply in_map_iff in Hin as (r & <- & Hr).
  exists r. split; auto. destruct (p r); auto.
Qed.

Lemma owned_init : owned_by_users (init_db None).
Proof. constructor; simpl; try constructor; intros ? []. Qed.

Lemma user_exists_same_users (u : Z) (db db' : DB) :
  Users db' = Users db -> user_exists u db' = user_exists u db.
Proof. unfold user_exists. intros ->. reflexivity. Qed.

Ltac same_users d :=
  rewrite (@user_exists_same_users _ d) by reflexivity; simpl; auto.

Lemma step_owned (db db' : DB) :
  owned_by_users db -> step db db' -> owned_by_users db'.
Proof.
  intros [HN HC HE HR HB] Hstep.
  destruct Hstep as
    [username password i db' E | name i db' E | name user_id
    | date category amount user_id db' E
    | expense_id date category amount user_id db' E
    | expense_id user_id db' E
    | name amount due_date frequency user_id db' E
    | payment_id user_id db' E
    | payment_id payment_date user_id db' E
    | month amount user_id db' E
    | today current_user_id ].
  - apply add_user_inv in E as (Hfresh & _ & ->).
    assert (forall u, user_exists u db = true ->
                      user_exists u
                        (with_Users
                           (mktable (rows (Users db)
                                     ++ [mkUser i username password]) i) db)
                      = true) as Hmono.
    { intros u Hu. unfold user_exists in *. simpl.
      rewrite existsb_app, Hu. reflexivity. }
    constructor; simpl; auto.
    apply NoDup_map_snoc; auto. simpl.
    intros Hin. apply in_map_iff in Hin as (r & Hname & Hr).
    exact (Hfresh r Hr Hname).
  - rewrite category_add_raises in E. discriminate.
  - constructor; simpl; auto; try solve [intros; same_users db].
    rewrite HC. reflexivity.
  - unfold Expense.add in E. ok_inv E. apply foreign_key_ok in Ha.
    unfold sql_insert in E. simpl in E. inversion E; subst.
    constructor; simpl; auto; try solve [intros; same_users db].
    intros x Hx. same_users db.
    apply in_app_or in Hx as [Hx | [<- | []]]; auto.
  - unfold Expense.update in E.
    destruct (fetchone _); [| discriminate]. inversion E; subst.
    constructor; simpl; auto; try solve [intros; same_users db].
    intros x Hx. same_users db.
    apply in_update in Hx as (x0 & Hx0 & [-> | ->]);
      simpl; apply (HE x0 Hx0).
  - unfold Expense.delete in E.
    destruct (fetchone _); [| discriminate]. inversion E; subst.
    constructor; simpl; auto; try solve [intros; same_users db].
    intros x Hx. same_users db. apply filter_In in Hx as [Hx _]. auto.
  - unfold RecurringPayment.add in E. ok_inv E. apply foreign_key_ok in Ha.
    unfold sql_insert in E. simpl in E. inversion E; subst.
    constructor; simpl; auto; try solve [intros; same_users db].
    intros x Hx. same_users db.
    apply in_app_or in Hx as [Hx | [<- | []]]; auto.
  - unfold RecurringPayment.delete in E.
    destruct (fetchone _); [| discriminate]. inversion E; subst.
    constructor; simpl; auto; try solve [intros; same_users db].
    intros x Hx. same_users db. apply filter_In in Hx as [Hx _]. auto.
  - unfold RecurringPayment.mark_as_paid in E.
    destruct (fetchone _); [| discriminate]. ok_inv E. inversion E; subst.
    constructor; simpl; auto; try solve [intros; same_users db].
    intros x Hx. same_users db.
    apply in_update in Hx as (x0 & Hx0 & [-> | ->]);
      simpl; apply (HR x0 Hx0).
  - unfold Budget.set_monthly_budget in E.
    destruct (fetchone _) eqn:Hsel.
    + inversion E; subst.
      constructor; simpl; auto; try solve [intros; same_users db].
      intros x Hx. same_users db.
      apply in_update in Hx as (x0 & Hx0 & [-> | ->]);
        simpl; apply (HB x0 Hx0).
    + ok_inv E. apply foreign_key_ok in Ha.
      unfold sql_insert in E. simpl in E. inversion E; subst.
      constructor; simpl; auto; try solve [intros; same_users db].
      intros x Hx. same_users db.
      apply in_app_or in Hx as [Hx | [<- | []]]; auto.
  - rewrite alert_store. constructor; auto.
Qed.

(** X3: in every store the application can build, every expense, recurring
    payment and budget belongs to a registered user, no two users have the
    same name, and the Categories table is empty. *)
Theorem reachable_store_is_owned (db : DB) :
  reachable db -> owned_by_users db.
Proof.
  induction 1 as [| db db' _ IH Hstep].
  - exact owned_init.
  - exact (step_owned IH Hstep).
Qed.

Lemma reachable_store_is_owned_witness : owned_by_users store_two_users.
Proof.
  apply reachable_store_is_owned. exact store_two_users_reachable.
Defined.

Lemma reachable_usernames_unique (db : DB) :
  reachable db -> NoDup (map u_username (rows (Users db))).
Proof.
  intros Hreach. apply own_usernames.
  induction Hreach as [| db db' _ IH Hstep];
    [exact owned_init | exact (step_owned IH Hstep)].
Qed.

(** X4: in every store the application can build, [authenticate] returns
    an id exactly for the stored triples (id, username, password). *)
Theorem authenticate_iff_stored (db : DB) (username password : string) (i : Z) :
  reachable db ->
  (User.authenticate username password db = Some i <->
   In (mkUser i username password) (rows (Users db))).
Proof.
  intros Hreach.
  pose proof (reachable_usernames_unique Hreach) as Hnd.
  unfold User.authenticate, sql_select.
  set (p := fun u => String.eqb (u_username u) username &&
                     String.eqb (u_password u) password).
  assert (forall r, p r = true <->
                    u_username r = username /\ u_password r = password) as Hp.
  { intros r. unfold p. rewrite andb_true_iff, !String.eqb_eq. tauto. }
  split.
  - destruct (fetchone (filter p (rows (Users db)))) as [r |] eqn:E;
      [| discriminate].
    intros Hi. inversion Hi; subst.
    apply fetchone_some_in, filter_In in E as [Hin Hr].
    apply Hp in Hr as [Hu Hpw]. destruct r; simpl in *; subst. exact Hin.
  - intros Hin.
    destruct (fetchone_filter_some p _ _ Hin) as [r Hr].
    { apply Hp. simpl. auto. }
    rewrite Hr. f_equal.
    apply fetchone_some_in, filter_In in Hr as [Hrin Hpr].
    apply Hp in Hpr as [Hu _].
    assert (r = mkUser i username password) as ->.
    { apply (NoDup_map_inj_on u_username _ _ _ Hnd Hrin Hin). simpl. exact Hu. }
    reflexivity.
Qed.

Lemma authenticate_iff_stored_witness :
  User.authenticate "bob" "p2" store_two_users = Some 2 /\
  User.authenticate "bob" "p1" store_two_users <> Some 2.
Proof.
  split.
  - apply (authenticate_iff_stored "bob" "p2" 2 store_two_users_reachable).
    simpl. auto.
  - intros Habs.
    apply (authenticate_iff_stored "bob" "p1" 2 store_two_users_reachable)
      in Habs.
    simpl in Habs. destruct Habs as [E | [E | []]]; discriminate.
Defined.

(** ** Categories *)

Lemma table_eta {R : Type} (t : table R) : mktable (rows t) (seq t) = t.
Proof. destruct t; reflexivity. Qed.

Lemma filter_all {A : Type} (p : A -> bool) (l : list A) :
  (forall a, In a l -> p a = true) -> filter p l = l.
Proof.
  induction l as [| a l IH]; simpl; intros Hall; auto.
  rewrite (Hall a) by (left; auto). f_equal.
  apply IH. intros; apply Hall; right; auto.
Qed.

Lemma category_listed (name : string) (u : Z) (db : DB) :
  In name (Category.get_all u db) <->
  exists c, In c (rows (Categories db)) /\ c_name c = name /\ c_user_id c = u.
Proof.
  unfold Category.get_all, sql_select. rewrite in_map_iff. split.
  - intros (c & Hn & Hc). apply In_order_by, filter_In in Hc as [Hc Hu].
    apply Z.eqb_eq in Hu. eauto.
  - intros (c & Hc & Hn & Hu). exists c. split; auto.
    apply In_order_by, filter_In. split; auto. apply Z.eqb_eq. auto.
Qed.

(** X5: the names [Category.get_all] returns are in ascending order and
    are, with their multiplicities, the names of the rows stored for the
    user. *)
Theorem category_get_all_sorted (u : Z) (db : DB) :
  Sorted (fun a b => (a <=? b)%string = true) (Category.get_all u db) /\
  Permutation (Category.get_all u db)
              (map c_name
                   (filter (fun c => c_user_id c =? u) (rows (Categories db)))).
Proof.
  unfold Category.get_all, sql_select. split.
  - apply Sorted_map.
    apply (order_by_sorted (fun a b => (c_name a <=? c_name b)%string)).
    intros a b. apply String.leb_total.
  - apply Permutation_map. apply order_by_perm.
Qed.

Lemma filter_map_pred {A B : Type} (f : A -> B) (q : B -> bool) (l : list A) :
  filter q (map f l) = map f (filter (fun a => q (f a)) l).
Proof.
  induction l as [| a l IH]; simpl; auto.
  destruct (q (f a)); simpl; rewrite IH; reflexivity.
Qed.

Lemma filter_twice {A : Type} (p q r s : A -> bool) (l : list A) :
  (forall a, p a && q a = r a && s a) ->
  filter p (filter q l) = filter r (filter s l).
Proof.
  intros Hsame. induction l as [| a l IH]; simpl; auto.
  specialize (Hsame a).
  destruct (q a) eqn:Hq, (s a) eqn:Hs; simpl; rewrite ?IH;
    destruct (p a), (r a); simpl in Hsame; try discriminate; reflexivity.
Qed.

(** X6: [Category.delete name u] touches the Categories table only; the
    list of [u] afterwards is the list before without that name, in the
    same order; the list of every other user is the list it was; and when
    the name was not listed for [u] the store does not change. *)
Theorem category_delete_removes_one (name : string) (u : Z) (db : DB) :
  let db' := Category.delete name u db in
  Category.get_all u db'
  = filter (fun n => negb (String.eqb n name)) (Category.get_all u db) /\
  (forall u', u' <> u -> Category.get_all u' db' = Category.get_all u' db) /\
  (Users db' = Users db /\ Expenses db' = Expenses db /\
   RecurringPayments db' = RecurringPayments db /\
   Budgets db' = Budgets db) /\
  (~ In name (Category.get_all u db) -> db' = db).
Proof.
  intros db'. split; [| split; [| split]].
  - unfold db', Category.get_all, Category.delete, sql_select, sql_delete.
    cbn [with_Categories Categories rows].
    rewrite filter_map_pred. f_equal.
    rewrite order_by_filter.
    + f_equal. apply filter_twice. intros c.
      destruct (String.eqb (c_name c) name), (c_user_id c =? u); reflexivity.
    + intros a b. apply String.leb_total.
    + intros a b c. apply leb_trans.
  - intros u' Hne.
    unfold db', Category.get_all, Category.delete, sql_select, sql_delete.
    cbn [with_Categories Categories rows]. do 2 f_equal.
    rewrite <- (filter_all (fun _ => true) (rows (Categories db))) at 2
      by reflexivity.
    apply filter_twice. intros c.
    destruct (Z.eqb_spec (c_user_id c) u'), (Z.eqb_spec (c_user_id c) u);
      try congruence; simpl; rewrite ?andb_true_r, ?andb_false_r; reflexivity.
  - repeat split.
  - intros Hnot. unfold db', Category.delete, sql_delete.
    rewrite filter_all.
    + rewrite table_eta. destruct db; reflexivity.
    + intros c Hc. apply negb_true_iff, andb_false_iff.
      destruct (String.eqb_spec (c_name c) name) as [En | En]; auto.
      right. apply Z.eqb_neq. intros Eu. apply Hnot.
      apply category_listed. eauto.
Qed.

Lemma category_delete_removes_one_witness :
  Category.get_all 1 (Category.delete "Food" 1 store_with_categories)
  = ["Rent"] /\
  Category.get_all 2 (Category.delete "Food" 1 store_with_categories)
  = ["Food"] /\
  Category.delete "Travel" 1 store_with_categories = store_with_categories.
Proof.
  destruct (category_delete_removes_one "Food" 1 store_with_categories)
    as (Hown & Hothers & _).
  split; [exact Hown |]. split; [apply Hothers; lia |].
  apply (proj2 (proj2 (proj2 (category_delete_removes_one
                                "Travel" 1 store_with_categories)))).
  simpl. intros [E | [E | []]]; discriminate.
Defined.

Example category_get_all_example :
  Category.get_all 1 store_with_categories = ["Food"; "Rent"].
Proof. reflexivity. Qed.

(** ** Expenses *)

Lemma expense_listed (t : Z * string * string * real) (u : Z) (db : DB) :
  In t (Expense.get_all u db) <->
  exists e, In e (rows (Expenses db)) /\ e_user_id e = u /\ expense_tuple e = t.
Proof.
  unfold Expense.get_all, sql_select. rewrite in_map_iff. split.
  - intros (e & Ht & He). apply In_order_by, filter_In in He as [He Hu].
    apply Z.eqb_eq in Hu. eauto.
  - intros (e & He & Hu & Ht). exists e. split; auto.
    apply In_order_by, filter_In. split; auto. apply Z.eqb_eq. auto.
Qed.

(** X7: the tuples [Expense.get_all] returns are ordered by date, latest
    first, and are exactly the user's rows, each listed once. *)
Theorem expense_get_all_sorted (u : Z) (db : DB) :
  Sorted (fun a b => (snd (fst (fst b)) <=? snd (fst (fst a)))%string = true)
         (Expense.get_all u db) /\
  Permutation (Expense.get_all u db)
              (map expense_tuple
                   (filter (fun e => e_user_id e =? u) (rows (Expenses db)))).
Proof.
  unfold Expense.get_all, sql_select. split.
  - apply (Sorted_map
             (fun e => (e_id e, e_date e, e_category e, e_amount e))
             (fun a b =>
                (snd (fst (fst b)) <=? snd (fst (fst a)))%string = true)).
    simpl.
    apply (order_by_sorted (fun a b => (e_date b <=? e_date a)%string)).
    intros a b. apply String.leb_total.
  - apply Permutation_map. apply order_by_perm.
Qed.



Lemma float_sum_snoc (l : list real) (a : real) :
  float_sum (l ++ [a]) = Float.add (float_sum l) (to_float a).
Proof. unfold float_sum. rewrite fold_left_app. reflexivity. Qed.

(** A stored amount added to either zero gives the same float. *)
Lemma add_to_zero (t : float) (a : real) :
  is_zero t = true ->
  Float.add t (to_float a) = Float.add Float.zero (to_float a).
Proof.
  destruct t as [s | | |]; try discriminate. intros _.
  destruct a; destruct s; reflexivity.
Qed.

(** X9: an expense added for [u] with date [d] changes no total it is not
    counted in: not those of [u] from a start after [d], nor any total of
    another user.  Where it is counted, [s <= d] in the order of TEXT
    values, and the amounts counted before have a sum that is a number,
    the spending since [s] becomes the spending before plus the amount, in
    one floating-point addition, read as [get_spending_since] reads a
    total. *)
Theorem expense_add_raises_spending
        (d category : string) (amount : real) (u : Z) (db db' : DB) :
  Expense.add d category amount u db = Ok db' ->
  forall s u',
    ((s <=? d)%string && (u =? u') = false ->
     Expense.get_spending_since s u' db'
     = Expense.get_spending_since s u' db) /\
    ((s <=? d)%string && (u =? u') = true ->
     is_nan (float_sum (map e_amount
                            (filter (Expense.since s u')
                                    (rows (Expenses db))))) = false ->
     Expense.get_spending_since s u' db'
     = total_or_zero (Float.add (Expense.get_spending_since s u' db)
                                (to_float amount))).
Proof.
  intros E s u'. unfold Expense.add in E. ok_inv E.
  unfold sql_insert in E. simpl in E. inversion E; subst. clear E.
  rewrite !spending_total. cbn [with_Expenses Expenses rows].
  rewrite filter_app. cbn [filter].
  set (l := filter (Expense.since s u') (rows (Expenses db))).
  replace (Expense.since s u' _) with ((s <=? d)%string && (u =? u'))
    by reflexivity.
  split; intros Hc; rewrite Hc.
  - rewrite app_nil_r. reflexivity.
  - intros Hnum. rewrite map_app. cbn [map e_amount].
    rewrite float_sum_snoc.
    set (t := float_sum (map e_amount l)) in *.
    assert (total_or_zero t = if is_zero t then Float.zero else t) as ->
        by (unfold total_or_zero; rewrite Hnum; reflexivity).
    destruct (is_zero t) eqn:Hz; [| reflexivity].
    rewrite (add_to_zero t amount Hz). reflexivity.
Qed.

Lemma expense_add_raises_spending_witness :
  Expense.get_spending_since "2024-03-01" 1 store_over_budget
  = total_or_zero
      (Float.add (Expense.get_spending_since "2024-03-01" 1 store_on_budget)
                 (to_float (money 0 1))) /\
  Expense.get_spending_since "2024-03-16" 1 store_over_budget
  = Expense.get_spending_since "2024-03-16" 1 store_on_budget.
Proof.
  pose proof (@expense_add_raises_spending
                "2024-03-15" "Gum" (money 0 1) 1 store_on_budget
                store_over_budget eq_refl) as H.
  split.
  - apply (proj2 (H "2024-03-01" 1)); reflexivity.
  - apply (proj1 (H "2024-03-16" 1)). reflexivity.
Defined.

Lemma expense_lookup (db : DB) (row : ExpenseRow) :
  unique_ids (Expenses db) ->
  In row (rows (Expenses db)) ->
  fetchone (sql_select (Expense.owned (e_id row) (e_user_id row))
                       (Expenses db)) = Some row.
Proof.
  intros Hu Hin. unfold sql_select.
  assert (Expense.owned (e_id row) (e_user_id row) row = true) as Ho
      by (apply owned_true; auto).
  destruct (fetchone_filter_some _ _ _ Hin Ho) as [b Hb].
  rewrite Hb. f_equal.
  apply fetchone_some_in, filter_In in Hb as [Hb Hob].
  apply owned_true in Hob as [Hid _].
  eapply (NoDup_map_inj_on rowid); eauto.
Qed.

Lemma owned_by_id (db : DB) (row r : ExpenseRow) :
  unique_ids (Expenses db) ->
  In row (rows (Expenses db)) -> In r (rows (Expenses db)) ->
  Expense.owned (e_id row) (e_user_id row) r = (e_id r =? e_id row).
Proof.
  intros Hu Hrow Hr. unfold Expense.owned.
  destruct (Z.eqb_spec (e_id r) (e_id row)) as [Hid | Hid]; simpl; auto.
  assert (r = row) by (eapply (NoDup_map_inj_on rowid); eauto).
  subst r. apply Z.eqb_refl.
Qed.

Lemma filter_map_untouched {A : Type} (p : A -> bool) (f : A -> A) (l : list A) :
  (forall r, In r l -> f r = r \/ (p (f r) = false /\ p r = false)) ->
  filter p (map f l) = filter p l.
Proof.
  induction l as [| r l IH]; simpl; intros Hf; auto.
  rewrite IH by (intros; apply Hf; right; auto).
  destruct (Hf r (or_introl eq_refl)) as [-> | [-> ->]]; reflexivity.
Qed.

(** X10: [Expense.update] by the owner of a stored expense succeeds; the
    row with that id then holds the new date, category and amount under the
    same id and user, every other row is as it was, and so is the list of
    every other user. *)
Theorem expense_update_overwrites
        (db : DB) (row : ExpenseRow) (d c : string) (a : real) :
  wf db ->
  In row (rows (Expenses db)) ->
  exists db',
    Expense.update (e_id row) d c a (e_user_id row) db = Ok db' /\
    rows (Expenses db')
    = map (fun r => if e_id r =? e_id row
                    then mkExpense (e_id row) d c a (e_user_id row)
                    else r)
          (rows (Expenses db)) /\
    In (e_id row, d, c, a) (Expense.get_all (e_user_id row) db') /\
    (forall u', u' <> e_user_id row ->
                Expense.get_all u' db' = Expense.get_all u' db).
Proof.
  intros Hwf Hin. pose proof (wf_Expenses Hwf) as Hu.
  unfold Expense.update. rewrite (expense_lookup db row Hu Hin).
  eexists. split; [reflexivity |].
  assert (map (fun r => if Expense.owned (e_id row) (e_user_id row) r
                        then mkExpense (e_id r) d c a (e_user_id r)
                        else r)
              (rows (Expenses db))
          = map (fun r => if e_id r =? e_id row
                          then mkExpense (e_id row) d c a (e_user_id row)
                          else r)
                (rows (Expenses db))) as Hrows.
  { apply map_ext_in. intros r Hr.
    rewrite (owned_by_id db row r Hu Hin Hr).
    destruct (Z.eqb_spec (e_id r) (e_id row)) as [Hid | Hid]; auto.
    assert (r = row) by (eapply (NoDup_map_inj_on rowid); eauto).
    subst r. reflexivity. }
  split; [exact Hrows |]. split.
  - apply expense_listed. simpl. rewrite Hrows.
    exists (mkExpense (e_id row) d c a (e_user_id row)).
    split; [| split; reflexivity].
    apply in_map_iff. exists row. rewrite Z.eqb_refl. auto.
  - intros u' Hu'. unfold Expense.get_all, sql_select. simpl.
    rewrite filter_map_untouched; [reflexivity |].
    intros r Hr. rewrite (owned_by_id db row r Hu Hin Hr).
    destruct (Z.eqb_spec (e_id r) (e_id row)) as [Hid | Hid]; auto.
    assert (r = row) by (eapply (NoDup_map_inj_on rowid); eauto).
    subst r. right. simpl. apply Z.eqb_neq in Hu'.
    rewrite Z.eqb_sym, Hu'. auto.
Qed.

Lemma expense_update_overwrites_witness :
  exists db',
    Expense.update 1 "2025-02-01" "Rent" (money 900 0) 1 store_two_users
    = Ok db' /\
    rows (Expenses db') = [mkExpense 1 "2025-02-01" "Rent" (money 900 0) 1].
Proof.
  destruct (@expense_update_overwrites
              store_two_users (mkExpense 1 "2025-01-10" "Food" (money 12 50) 1)
              "2025-02-01" "Rent" (money 900 0)
              (reachable_wf store_two_users_reachable)
              (or_introl eq_refl)) as (db' & Hcall & Hrows & _).
  exists db'. split; [exact Hcall |]. rewrite Hrows. reflexivity.
Defined.

(** X11: [Expense.delete] by the owner of a stored expense succeeds and
    removes the row with that id and no other; the expense is then absent
    from the owner's list, and deleting it a second time raises the
    not-found error. *)
Theorem expense_delete_removes_one (db : DB) (row : ExpenseRow) :
  wf db ->
  In row (rows (Expenses db)) ->
  exists db',
    Expense.delete (e_id row) (e_user_id row) db = Ok db' /\
    rows (Expenses db')
    = filter (fun r => negb (e_id r =? e_id row)) (rows (Expenses db)) /\
    (forall t, In t (Expense.get_all (e_user_id row) db') ->
               fst (fst (fst t)) <> e_id row) /\
    Expense.delete (e_id row) (e_user_id row) db' = Raise Expense.not_found.
Proof.
  intros Hwf Hin. pose proof (wf_Expenses Hwf) as Hu.
  unfold Expense.delete at 1. rewrite (expense_lookup db row Hu Hin).
  eexists. split; [reflexivity |].
  assert (filter (fun r => negb (Expense.owned (e_id row) (e_user_id row) r))
                 (rows (Expenses db))
          = filter (fun r => negb (e_id r =? e_id row)) (rows (Expenses db)))
    as Hrows.
  { apply filter_ext_in. intros r Hr.
    rewrite (owned_by_id db row r Hu Hin Hr). reflexivity. }
  split; [exact Hrows |]. split.
  - intros t Ht Hid. apply expense_listed in Ht as (e & He & _ & <-).
    simpl in He, Hid. rewrite Hrows in He.
    apply filter_In in He as [_ Hne].
    apply negb_true_iff, Z.eqb_neq in Hne. contradiction.
  - unfold Expense.delete, sql_select. simpl. rewrite Hrows.
    rewrite filter_none; [reflexivity |].
    intros r Hr. apply filter_In in Hr as [_ Hne].
    apply negb_true_iff in Hne. unfold Expense.owned. rewrite Hne. reflexivity.
Qed.

Lemma expense_delete_removes_one_witness :
  exists db',
    Expense.delete 1 1 store_two_users = Ok db' /\
    rows (Expenses db') = [] /\
    Expense.delete 1 1 db' = Raise Expense.not_found.
Proof.
  destruct (@expense_delete_removes_one
              store_two_users (mkExpense 1 "2025-01-10" "Food" (money 12 50) 1)
              (reachable_wf store_two_users_reachable)
              (or_introl eq_refl)) as (db' & Hcall & Hrows & _ & Hagain).
  exists db'. split; [exact Hcall |]. split; [| exact Hagain].
  rewrite Hrows. reflexivity.
Defined.

(** ** Daily totals *)

(** X12: [Expense.get_daily_spending] lists each date on which the user
    has an expense once, in ascending order; the total beside a date is
    the floating-point sum of the user's amounts on that date, taken in
    the order of their ids, and is [None] when that sum is NaN. *)
Theorem daily_spending_groups_by_date (u : Z) (db : DB) :
  let mine := filter (fun e => e_user_id e =? u) (rows (Expenses db)) in
  let daily := Expense.get_daily_spending u db in
  Sorted (fun a b => (a <=? b)%string = true) (map fst daily) /\
  NoDup (map fst daily) /\
  (forall d, In d (map fst daily) <-> exists e, In e mine /\ e_date e = d) /\
  (forall d total,
      In (d, total) daily ->
      let t :=
        float_sum (map e_amount
                       (filter (fun e => String.eqb (e_date e) d) mine)) in
      total = if is_nan t then None else Some t).
Proof.
  intros mine daily.
  set (keys := order_by String.leb (nodup string_dec (map e_date mine))).
  assert (map fst daily = keys) as Hfst.
  { unfold daily, Expense.get_daily_spending, sql_select. fold mine. fold keys.
    rewrite map_map. simpl. apply map_id. }
  assert (NoDup keys) as Hnd.
  { apply (Permutation_NoDup
             (l := nodup string_dec (map e_date mine))).
    - symmetry. apply order_by_perm.
    - apply NoDup_nodup. }
  assert (forall d, In d keys <-> In d (map e_date mine)) as Hkeys.
  { intros d. unfold keys. rewrite In_order_by, nodup_In. tauto. }
  rewrite Hfst. repeat split.
  - apply (order_by_sorted String.leb). apply String.leb_total.
  - exact Hnd.
  - intros Hd. apply Hkeys, in_map_iff in Hd as (e & He & Hin). eauto.
  - intros (e & Hin & He). apply Hkeys, in_map_iff. eauto.
  - intros d total Hin t.
    unfold daily, Expense.get_daily_spending, sql_select in Hin.
    fold mine in Hin. fold keys in Hin.
    apply in_map_iff in Hin as (k & Hk & Hkin).
    inversion Hk; subst. rewrite sql_sum_spec. fold t.
    apply Hkeys, in_map_iff in Hkin as (e & He & Hin).
    assert (In e (filter (fun e' => String.eqb (e_date e') d) mine)) as Hgroup
        by (apply filter_In; split; auto; apply String.eqb_eq; auto).
    destruct (filter (fun e' => String.eqb (e_date e') d) mine);
      [destruct Hgroup | reflexivity].
Qed.

Lemma daily_spending_groups_by_date_witness :
  NoDup (map fst (Expense.get_daily_spending 1 store_over_budget)) /\
  (In "2024-03-09" (map fst (Expense.get_daily_spending 1 store_over_budget))
   <-> exists e,
      In e (filter (fun e => e_user_id e =? 1)
                   (rows (Expenses store_over_budget))) /\
      e_date e = "2024-03-09").
Proof.
  destruct (daily_spending_groups_by_date 1 store_over_budget)
    as (_ & Hnd & Hdates & _).
  split; [exact Hnd | exact (Hdates "2024-03-09")].
Defined.

Example daily_spending_example :
  Expense.get_daily_spending 1 store_over_budget
  = [("2024-03-02", Some (to_float (money 300 0)));
     ("2024-03-09", Some (to_float (money 200 0)));
     ("2024-03-15", Some (to_float (money 0 1)))].
Proof. vm_compute. reflexivity. Qed.

(** ** Recurring payments *)

Lemma payment_listed (t : Z * string * real * string * string) (u : Z)
      (db : DB) :
  In t (RecurringPayment.get_all u db) <->
  exists r, In r (rows (RecurringPayments db)) /\
            r_user_id r = u /\ payment_tuple r = t.
Proof.
  unfold RecurringPayment.get_all, sql_select. rewrite in_map_iff. split.
  - intros (r & Ht & Hr). apply In_order_by, filter_In in Hr as [Hr Hu].
    apply Z.eqb_eq in Hu. eauto.
  - intros (r & Hr & Hu & Ht). exists r. split; auto.
    apply In_order_by, filter_In. split; auto. apply Z.eqb_eq. auto.
Qed.

(** X13: the tuples [RecurringPayment.get_all] returns are ordered by due
    date, earliest first, and are exactly the user's rows, each listed
    once. *)
Theorem payment_get_all_sorted (u : Z) (db : DB) :
  Sorted (fun a b => (snd (fst a) <=? snd (fst b))%string = true)
         (RecurringPayment.get_all u db) /\
  Permutation (RecurringPayment.get_all u db)
              (map payment_tuple
                   (filter (fun r => r_user_id r =? u)
                           (rows (RecurringPayments db)))).
Proof.
  unfold RecurringPayment.get_all, sql_select. split.
  - apply (Sorted_map
             (fun r => (r_id r, r_name r, r_amount r, r_due_date r,
                        r_frequency r))
             (fun a b => (snd (fst a) <=? snd (fst b))%string = true)).
    simpl.
    apply (order_by_sorted (fun a b => (r_due_date a <=? r_due_date b)%string)).
    intros a b. apply String.leb_total.
  - apply Permutation_map. apply order_by_perm.
Qed.

Lemma no_payment_owned_by_other (db : DB) (row : RecurringPaymentRow) (B : Z) :
  unique_ids (RecurringPayments db) ->
  In row (rows (RecurringPayments db)) -> r_user_id row <> B ->
  fetchone (sql_select (RecurringPayment.owned (r_id row) B)
                       (RecurringPayments db)) = None.
Proof.
  intros Hu Hin Hne. unfold sql_select. apply fetchone_filter_none.
  intros r Hr. destruct (RecurringPayment.owned (r_id row) B r) eqn:Ho; auto.
  apply payment_owned_true in Ho as [Hid Huser].
  assert (r = row) by (eapply (NoDup_map_inj_on rowid); eauto).
  subst r. contradiction.
Qed.

(** X14: a recurring payment stored for a user other than [B] is not
    among the tuples listed for [B]; [delete] by [B] on its id raises the
    not-found error, and so does [mark_as_paid] by [B], whatever the
    payment date string, even one that is no date; the store is left as it
    was. *)
Theorem payment_ownership_isolation
        (db : DB) (row : RecurringPaymentRow) (B : Z) :
  wf db ->
  In row (rows (RecurringPayments db)) ->
  r_user_id row <> B ->
  (forall t, In t (RecurringPayment.get_all B db) ->
             fst (fst (fst (fst t))) <> r_id row) /\
  (RecurringPayment.delete (r_id row) B db = Raise RecurringPayment.not_found
   /\ store_after db (RecurringPayment.delete (r_id row) B db) = db) /\
  (forall payment_date,
      RecurringPayment.mark_as_paid (r_id row) payment_date B db
      = Raise RecurringPayment.not_found /\
      store_after db
                  (RecurringPayment.mark_as_paid (r_id row) payment_date B db)
      = db).
Proof.
  intros Hwf Hin Hne. pose proof (wf_RecurringPayments Hwf) as Hu.
  pose proof (no_payment_owned_by_other db row Hu Hin Hne) as Hnone.
  split; [| split].
  - intros t Ht Hid. apply payment_listed in Ht as (r & Hr & HB & <-).
    simpl in Hid.
    assert (r = row) by (eapply (NoDup_map_inj_on rowid); eauto).
    subst r. contradiction.
  - unfold RecurringPayment.delete. rewrite Hnone. split; reflexivity.
  - intros payment_date. unfold RecurringPayment.mark_as_paid.
    rewrite Hnone. split; reflexivity.
Qed.

Lemma store_rent_two_users_reachable : reachable store_rent_two_users.
Proof.
  eapply reachable_step; [exact store_rent_reachable |].
  apply step_add_user with (username := "bob") (password := "p2") (i := 2).
  vm_compute. reflexivity.
Qed.

Lemma payment_ownership_isolation_witness :
  RecurringPayment.get_all 2 store_rent_two_users = [] /\
  RecurringPayment.delete 1 2 store_rent_two_users
  = Raise RecurringPayment.not_found /\
  RecurringPayment.mark_as_paid 1 "not a date" 2 store_rent_two_users
  = Raise RecurringPayment.not_found.
Proof.
  destruct (@payment_ownership_isolation
              store_rent_two_users
              (mkRecurringPayment 1 "Rent" (money 1200 0)
                                  "2024-03-14" "Monthly" 1) 2
              (reachable_wf store_rent_two_users_reachable)
              (or_introl eq_refl)
              ltac:(simpl; lia)) as (_ & Hdel & Hpaid).
  split; [reflexivity |].
  split; [exact (proj1 Hdel) | exact (proj1 (Hpaid "not a date"))].
Defined.

Lemma filter_map_commute {A : Type} (p : A -> bool) (f : A -> A) (l : list A) :
  (forall r, p (f r) = p r) -> filter p (map f l) = map f (filter p l).
Proof.
  intros Hp. induction l as [| r l IH]; simpl; auto.
  rewrite Hp. destruct (p r); simpl; rewrite IH; reflexivity.
Qed.

(** X15: whenever [mark_as_paid] succeeds, whatever its arguments, it has
    changed nothing but due dates: the other four tables are the same, no
    payment row was added or removed, every row keeps its id, name,
    amount, frequency and user_id, and the rows that are not the payment
    [payment_id] of [user_id] are unchanged. *)
Theorem mark_as_paid_changes_due_dates_only
        (payment_id : Z) (payment_date : string) (user_id : Z) (db db' : DB) :
  RecurringPayment.mark_as_paid payment_id payment_date user_id db = Ok db' ->
  Users db' = Users db /\ Categories db' = Categories db /\
  Expenses db' = Expenses db /\ Budgets db' = Budgets db /\
  map (RecurringPayment.set_due_date "") (rows (RecurringPayments db'))
  = map (RecurringPayment.set_due_date "") (rows (RecurringPayments db)) /\
  filter (fun r => negb (RecurringPayment.owned payment_id user_id r))
         (rows (RecurringPayments db'))
  = filter (fun r => negb (RecurringPayment.owned payment_id user_id r))
           (rows (RecurringPayments db)).
Proof.
  unfold RecurringPayment.mark_as_paid. intros E.
  destruct (fetchone _) as [row |]; [| discriminate].
  ok_inv E. inversion E; subst.
  simpl. repeat split.
  - rewrite map_map. apply map_ext. intros r.
    destruct (RecurringPayment.owned payment_id user_id r); reflexivity.
  - apply filter_map_untouched. intros r _.
    destruct (RecurringPayment.owned payment_id user_id r) eqn:Ho; auto.
    right. split; [| reflexivity].
    unfold RecurringPayment.owned in *. simpl. rewrite Ho. reflexivity.
Qed.

Lemma mark_as_paid_changes_due_dates_only_witness :
  RecurringPayment.mark_as_paid 1 "2024-03-20" 1 store_rent_two_users
  = Ok store_rent_two_users_paid
  /\ Users store_rent_two_users_paid = Users store_rent_two_users
  /\ map (RecurringPayment.set_due_date "")
         (rows (RecurringPayments store_rent_two_users_paid))
     = map (RecurringPayment.set_due_date "")
           (rows (RecurringPayments store_rent_two_users)).
Proof.
  assert (RecurringPayment.mark_as_paid 1 "2024-03-20" 1 store_rent_two_users
          = Ok store_rent_two_users_paid) as E by reflexivity.
  destruct (@mark_as_paid_changes_due_dates_only
              1 "2024-03-20" 1 store_rent_two_users
              store_rent_two_users_paid E)
    as (HU & _ & _ & _ & Hrows & _).
  split; [exact E |]. split; [exact HU | exact Hrows].
Defined.

(** ** Budgets are kept per month and user *)

Lemma keyed_after_set (month month' : string) (u u' : Z) (amount : real)
      (b : BudgetRow) :
  Budget.keyed month' u' (mkBudget (b_id b) (b_month b) amount (b_user_id b))
  = Budget.keyed month' u' b.
Proof. reflexivity. Qed.

(** X16: in any store, a [set_monthly_budget] that succeeds is read back by
    [get_monthly_budget] for the same month and user, and the budget of
    every other month or user reads as it did before. *)
Theorem budget_set_then_get
        (month : string) (amount : real) (u : Z) (db db' : DB) :
  Budget.set_monthly_budget month amount u db = Ok db' ->
  Budget.get_monthly_budget month u db' = Some amount /\
  (forall month' u',
      month' <> month \/ u' <> u ->
      Budget.get_monthly_budget month' u' db'
      = Budget.get_monthly_budget month' u' db).
Proof.
  unfold Budget.set_monthly_budget, Budget.get_monthly_budget, sql_select.
  destruct (fetchone (filter (Budget.keyed month u) (rows (Budgets db))))
    as [b0 |] eqn:Hsel; intros E.
  - inversion E; subst; clear E. simpl.
    set (g := fun r => if Budget.keyed month u r
                       then mkBudget (b_id r) (b_month r) amount (b_user_id r)
                       else r).
    assert (forall m' u' r, Budget.keyed m' u' (g r) = Budget.keyed m' u' r)
      as Hkey by (intros m' u' r; unfold g;
                  destruct (Budget.keyed month u r); reflexivity).
    split.
    + rewrite (filter_map_commute (Budget.keyed month u) g) by apply Hkey.
      destruct (filter (Budget.keyed month u) (rows (Budgets db)))
        as [| b1 l] eqn:Hf; [discriminate |].
      assert (Budget.keyed month u b1 = true) as Hk1.
      { assert (In b1 (filter (Budget.keyed month u) (rows (Budgets db))))
          as Hin by (rewrite Hf; left; reflexivity).
        apply filter_In in Hin. tauto. }
      simpl. unfold g. rewrite Hk1. reflexivity.
    + intros month' u' Hother.
      rewrite (filter_map_untouched (Budget.keyed month' u') g);
        [reflexivity |].
      intros b _. rewrite Hkey. unfold g.
      destruct (Budget.keyed month u b) eqn:Hk; auto.
      right. apply keyed_true in Hk.
      assert (Budget.keyed month' u' b = false) as Hk'.
      { destruct (Budget.keyed month' u' b) eqn:Hk'; auto.
        apply keyed_true in Hk'. rewrite Hk in Hk'.
        inversion Hk'; subst. destruct Hother; contradiction. }
      split; exact Hk'.
  - ok_inv E. unfold sql_insert in E. simpl in E.
    inversion E; subst; clear E. simpl.
    apply fetchone_none in Hsel. split.
    + rewrite filter_app, Hsel. simpl.
      unfold Budget.keyed. simpl. rewrite String.eqb_refl, Z.eqb_refl.
      reflexivity.
    + intros month' u' Hother. rewrite filter_app. simpl.
      assert (Budget.keyed month' u'
                (mkBudget (next_rowid (Budgets db)) month amount u) = false)
        as ->.
      { unfold Budget.keyed. simpl. apply andb_false_iff.
        destruct Hother as [Hm | Hu'].
        - left. apply String.eqb_neq. congruence.
        - right. apply Z.eqb_neq. congruence. }
      rewrite app_nil_r. reflexivity.
Qed.

Lemma budget_set_then_get_witness :
  Budget.set_monthly_budget "2024-03" (money 650 0) 1 store_on_budget
  = Ok store_on_budget_650 /\
  Budget.get_monthly_budget "2024-03" 1 store_on_budget_650
  = Some (money 650 0) /\
  Budget.get_monthly_budget "2024-04" 1 store_on_budget_650
  = Budget.get_monthly_budget "2024-04" 1 store_on_budget.
Proof.
  assert (Budget.set_monthly_budget "2024-03" (money 650 0) 1 store_on_budget
          = Ok store_on_budget_650) as E by reflexivity.
  destruct (@budget_set_then_get "2024-03" (money 650 0) 1 store_on_budget
                                 store_on_budget_650 E)
    as [Hget Hother].
  split; [exact E |]. split; [exact Hget |].
  apply Hother. left. discriminate.
Defined.

(** ** The scan of the recurring payments *)

Lemma for_payments_raises (today : date) payments (db : DB) payment :
  In payment payments ->
  (forall db0, is_ok (check_payment today payment db0) = false) ->
  exists shown e, for_payments today payments db = (db, shown, Some e).
Proof.
  intros Hin Hraise. revert db.
  induction payments as [| p rest IH]; intros db; [destruct Hin |].
  simpl. destruct (check_payment today p db) as [[db1 shown] | e] eqn:E.
  - apply check_payment_store in E as Hdb. subst db1.
    destruct Hin as [-> | Hin].
    + specialize (Hraise db). rewrite E in Hraise. discriminate.
    + destruct (IH Hin db) as (shown' & e & ->). eauto.
  - eauto.
Qed.

(** X17: if the user has a payment whose due date is before today, the
    scan ends in its exception handler: the last dialog shown is the error
    dialog, and the store is the one the scan started from. *)
Theorem overdue_payment_ends_in_error
        (today : date) (u : Z) (db : DB) (r : RecurringPaymentRow) (due : date) :
  In r (rows (RecurringPayments db)) ->
  r_user_id r = u ->
  strptime_ymd (r_due_date r) = Ok due ->
  sub_days due today < 0 ->
  exists shown e,
    check_recurring_payments today u db = (db, shown ++ [ErrorDialog e]).
Proof.
  intros Hin Hu Hparse Hover.
  assert (In (payment_tuple r) (RecurringPayment.get_all u db)) as Hlisted
      by (apply payment_listed; eauto).
  destruct (for_payments_raises today _ db _ Hlisted) as (shown & e & Hfor).
  - intros db0. unfold check_payment, payment_tuple. rewrite Hparse. simpl.
    destruct (Z.eqb_spec (sub_days due today) 1); [lia |].
    destruct (Z.eqb_spec (sub_days due today) 0); [lia |].
    destruct (Z.ltb_spec (sub_days due today) 0); [| lia].
    destruct (calculate_next_due_date due (r_frequency r)); reflexivity.
  - exists shown, e. unfold check_recurring_payments. rewrite Hfor. reflexivity.
Qed.

Lemma overdue_payment_ends_in_error_witness :
  exists shown e,
    check_recurring_payments (mkdate 2024 3 15) 1 store_rent
    = (store_rent, shown ++ [ErrorDialog e]).
Proof.
  apply (@overdue_payment_ends_in_error
           (mkdate 2024 3 15) 1 store_rent
           (mkRecurringPayment 1 "Rent" (money 1200 0)
                                  "2024-03-14" "Monthly" 1)
           (mkdate 2024 3 14)).
  - left. reflexivity.
  - reflexivity.
  - reflexivity.
  - vm_compute. reflexivity.
Defined.

Lemma for_payments_no_raise (today : date) payments (db : DB) :
  (forall payment, In payment payments ->
     exists due, strptime_ymd (snd (fst payment)) = Ok due /\
                 0 <= sub_days due today) ->
  for_payments today payments db
  = (db,
     flat_map (fun payment =>
                 match strptime_ymd (snd (fst payment)) with
                 | Ok due => due_warning today due
                                         (snd (fst (fst (fst payment))))
                                         (snd (fst (fst payment)))
                 | Raise _ => []
                 end) payments,
     None).
Proof.
  induction payments as [| p rest IH]; intros Hall; [reflexivity |].
  simpl. destruct (Hall p (or_introl eq_refl)) as (due & Hparse & Hdue).
  destruct p as [[[[payment_id name] amount] due_date_str] frequency].
  simpl in *. rewrite Hparse. simpl. unfold due_warning.
  specialize (IH (fun q Hq => Hall q (or_intror Hq))).
  destruct (Z.eqb_spec (sub_days due today) 1); [rewrite IH; reflexivity |].
  destruct (Z.eqb_spec (sub_days due today) 0); [rewrite IH; reflexivity |].
  destruct (Z.ltb_spec (sub_days due today) 0); [lia |].
  rewrite IH. reflexivity.
Qed.

(** X18: if every due date of the user parses and none is before today,
    the scan shows no error dialog: it shows, in due-date order, one
    due-tomorrow warning for each payment due in one day and one due-today
    warning for each payment due today, nothing for the others, and leaves
    the store as it was. *)
Theorem scan_without_overdue_payment (today : date) (u : Z) (db : DB) :
  (forall r, In r (rows (RecurringPayments db)) -> r_user_id r = u ->
             exists due, strptime_ymd (r_due_date r) = Ok due /\
                         0 <= sub_days due today) ->
  check_recurring_payments today u db
  = (db,
     flat_map (fun payment =>
                 match strptime_ymd (snd (fst payment)) with
                 | Ok due => due_warning today due
                                         (snd (fst (fst (fst payment))))
                                         (snd (fst (fst payment)))
                 | Raise _ => []
                 end)
              (RecurringPayment.get_all u db)).
Proof.
  intros Hall. unfold check_recurring_payments.
  rewrite for_payments_no_raise; [reflexivity |].
  intros payment Hin. apply payment_listed in Hin as (r & Hr & Hu & <-).
  simpl. apply Hall; auto.
Qed.

Lemma scan_without_overdue_payment_witness :
  check_recurring_payments (mkdate 2024 3 13) 1 store_rent
  = (store_rent, [PaymentDueTomorrow "Rent" (money 1200 0)]).
Proof.
  rewrite (@scan_without_overdue_payment (mkdate 2024 3 13) 1 store_rent).
  - reflexivity.
  - intros r [<- | []] _. exists (mkdate 2024 3 14).
    split; [reflexivity | vm_compute; discriminate].
Defined.

(** ** How far a rollover moves the due date *)

Lemma is_leap_mod (y : Z) :
  is_leap y = true <-> y mod 4 = 0 /\ (y mod 100 <> 0 \/ y mod 400 = 0).
Proof.
  unfold is_leap.
  rewrite andb_true_iff, orb_true_iff, negb_true_iff, !Z.eqb_eq, Z.eqb_neq.
  tauto.
Qed.

Lemma days_before_year_succ (y : Z) :
  days_before_year (y + 1)
  = days_before_year y + 365 + (if is_leap y then 1 else 0).
Proof.
  unfold days_before_year. replace (y + 1 - 1) with y by lia.
  destruct (is_leap y) eqn:Hleap.
  - apply is_leap_mod in Hleap. Z.div_mod_to_equations. lia.
  - assert (~ (y mod 4 = 0 /\ (y mod 100 <> 0 \/ y mod 400 = 0))) as Hn.
    { intros H. apply is_leap_mod in H. congruence. }
    Z.div_mod_to_equations. lia.
Qed.

Lemma leap_years_are_apart (y : Z) :
  is_leap y = true -> is_leap (y + 1) = false.
Proof.
  intros Hleap. destruct (is_leap (y + 1)) eqn:Hnext; auto.
  apply is_leap_mod in Hleap, Hnext. Z.div_mod_to_equations. lia.
Qed.

Lemma datetime_date_inv (y m d : Z) (r : date) :
  datetime_date y m d = Ok r -> r = mkdate y m d /\ valid_fields y m d = true.
Proof.
  unfold datetime_date. destruct (valid_fields y m d); [| discriminate].
  intros E. inversion E. auto.
Qed.

Lemma monthly_inv (d d' : date) :
  valid_date d = true ->
  calculate_next_due_date d "Monthly" = Ok d' ->
  d' = spec_next_month d /\ valid_date d' = true.
Proof.
  destruct d as [y m dd]. unfold valid_date. simpl. intros Hv E.
  apply valid_fields_iff in Hv as (Hy & Hm & Hd).
  unfold calculate_next_due_date in E. simpl in E.
  apply datetime_date_inv in E as [-> Hv']. unfold spec_next_month. simpl.
  destruct (monthly_fields Hm) as [Ediv Emod].
  rewrite Ediv, Emod in *. split.
  - f_equal. destruct (m =? 12); lia.
  - exact Hv'.
Qed.

Lemma next_month_distance (d : date) :
  valid_date d = true -> 28 <= sub_days (spec_next_month d) d <= 31.
Proof.
  intros Hv.
  destruct d as [y m dd]. unfold valid_date in Hv. simpl in Hv.
  apply valid_fields_iff in Hv as (Hy & Hm & Hd).
  unfold sub_days, toordinal, spec_next_month. simpl.
  unfold days_in_month in Hd.
  each_month Hm; simpl in *;
    rewrite ?days_before_year_succ;
    unfold days_before_month; simpl;
    destruct (is_leap y); simpl in *; lia.
Qed.

(** X19: whenever the Monthly rule returns a date for a date [d], that
    date is a valid one and lies between 28 and 31 days after [d]. *)
Theorem monthly_step_length (d d' : date) :
  valid_date d = true ->
  calculate_next_due_date d "Monthly" = Ok d' ->
  valid_date d' = true /\ 28 <= sub_days d' d <= 31.
Proof.
  intros Hv E. destruct (monthly_inv d Hv E) as [-> Hv'].
  split; [exact Hv' |]. apply next_month_distance. exact Hv.
Qed.

Lemma monthly_step_length_witness :
  valid_date (mkdate 2024 2 28) = true /\
  28 <= sub_days (mkdate 2024 2 28) (mkdate 2024 1 31) <= 31.
Proof.
  apply (@monthly_step_length (mkdate 2024 1 31) (mkdate 2024 2 28));
    reflexivity.
Defined.

Lemma yearly_inv (d d' : date) :
  calculate_next_due_date d "Yearly" = Ok d' ->
  d' = spec_next_year d /\ valid_date d' = true.
Proof.
  unfold calculate_next_due_date. simpl. intros E.
  apply datetime_date_inv in E as [-> Hv']. split; [reflexivity | exact Hv'].
Qed.

Lemma next_year_distance (d : date) :
  sub_days (spec_next_year d) d = 365 \/ sub_days (spec_next_year d) d = 366.
Proof.
  destruct d as [y m dd]. unfold sub_days, toordinal, spec_next_year. simpl.
  rewrite days_before_year_succ. unfold days_before_month.
  pose proof (leap_years_are_apart y) as Hapart.
  destruct (is_leap y); simpl.
  - rewrite Hapart by reflexivity. destruct (2 <? m); simpl; lia.
  - destruct (is_leap (y + 1)), (2 <? m); simpl; lia.
Qed.

(** X20: whenever the Yearly rule returns a date for a date [d], that
    date is a valid one with the month and day of [d], and lies 365 or 366
    days after [d]. *)
Theorem yearly_step_length (d d' : date) :
  valid_date d = true ->
  calculate_next_due_date d "Yearly" = Ok d' ->
  valid_date d' = true /\ month d' = month d /\ day d' = day d /\
  (sub_days d' d = 365 \/ sub_days d' d = 366).
Proof.
  intros Hv E. apply yearly_inv in E as [-> Hv'].
  split; [exact Hv' |]. split; [reflexivity |]. split; [reflexivity |].
  apply next_year_distance.
Qed.

Lemma yearly_step_length_witness :
  valid_date (mkdate 2025 3 15) = true /\
  month (mkdate 2025 3 15) = 3 /\ day (mkdate 2025 3 15) = 15 /\
  (sub_days (mkdate 2025 3 15) (mkdate 2024 3 15) = 365 \/
   sub_days (mkdate 2025 3 15) (mkdate 2024 3 15) = 366).
Proof.
  apply (@yearly_step_length (mkdate 2024 3 15) (mkdate 2025 3 15));
    reflexivity.
Defined.

(** ** Ordinals and dates *)

Lemma all_from_spec (f : Z -> bool) (p : positive) (base : Z) :
  all_from f p base = true ->
  forall k, base <= k < base + Zpos p -> f k = true.
Proof.
  revert base. induction p as [q IH | q IH |]; simpl; intros base Hall k Hk.
  - apply andb_true_iff in Hall as [Hall H3].
    apply andb_true_iff in Hall as [H1 H2].
    destruct (Z_lt_ge_dec k (base + Zpos q)) as [Hlt | Hge].
    + apply (IH base H1). lia.
    + destruct (Z_lt_ge_dec k (base + Zpos q + Zpos q)) as [Hlt' | Hge'].
      * apply (IH _ H2). lia.
      * replace k with (base + Zpos q + Zpos q) by lia. exact H3.
  - apply andb_true_iff in Hall as [H1 H2].
    destruct (Z_lt_ge_dec k (base + Zpos q)) as [Hlt | Hge].
    + apply (IH base H1). lia.
    + apply (IH _ H2). lia.
  - replace k with base by lia. exact Hall.
Qed.

Lemma first_cycle_checked : all_from cycle_ok 146097 1 = true.
Proof. vm_compute. reflexivity. Qed.

Lemma is_leap_period (y k : Z) : is_leap (y + 400 * k) = is_leap y.
Proof.
  unfold is_leap.
  replace ((y + 400 * k) mod 4) with (y mod 4)
    by (replace (y + 400 * k) with (y + (100 * k) * 4) by ring;
        symmetry; apply Z_mod_plus_full).
  replace ((y + 400 * k) mod 100) with (y mod 100)
    by (replace (y + 400 * k) with (y + (4 * k) * 100) by ring;
        symmetry; apply Z_mod_plus_full).
  replace ((y + 400 * k) mod 400) with (y mod 400)
    by (replace (y + 400 * k) with (y + k * 400) by ring;
        symmetry; apply Z_mod_plus_full).
  reflexivity.
Qed.

Lemma days_before_year_period (y k : Z) :
  days_before_year (y + 400 * k) = days_before_year y + 146097 * k.
Proof. unfold days_before_year. Z.div_mod_to_equations. lia. Qed.

Lemma toordinal_period (y m d k : Z) :
  toordinal (mkdate (y + 400 * k) m d) = toordinal (mkdate y m d) + 146097 * k.
Proof.
  unfold toordinal, days_before_month. cbn [year month day].
  rewrite days_before_year_period, is_leap_period. lia.
Qed.

Lemma fromordinal_period (n k : Z) :
  fromordinal (n + 146097 * k)
  = mkdate (year (fromordinal n) + 400 * k) (month (fromordinal n))
           (day (fromordinal n)).
Proof.
  unfold fromordinal.
  replace (n + 146097 * k - 1) with (n - 1 + k * 146097) by ring.
  rewrite Z.div_add, Z_mod_plus_full by lia.
  set (r := (n - 1) mod 146097).
  set (n100 := r / 36524).
  set (n4 := r mod 36524 / 1461).
  set (n1 := (r mod 36524) mod 1461 / 365).
  cbv zeta.
  destruct ((n1 =? 4) || (n100 =? 4)); cbn [year month day];
    [f_equal; lia |].
  match goal with
  | |- (if ?c then _ else _) = _ =>
      destruct c; cbn [year month day]; f_equal; first [reflexivity | lia]
  end.
Qed.

Lemma days_in_month_period (y m k : Z) :
  days_in_month (y + 400 * k) m = days_in_month y m.
Proof. unfold days_in_month. rewrite is_leap_period. reflexivity. Qed.

(** Every ordinal up to [MAXORDINAL] is the ordinal of the date it
    denotes, and that date is a valid one. *)
Lemma toordinal_fromordinal (n : Z) :
  1 <= n <= MAXORDINAL ->
  toordinal (fromordinal n) = n /\ valid_date (fromordinal n) = true.
Proof.
  unfold MAXORDINAL. intros Hn.
  set (k := (n - 1) / 146097). set (n0 := (n - 1) mod 146097 + 1).
  assert (n = n0 + 146097 * k) as Hsplit
      by (unfold n0, k; Z.div_mod_to_equations; lia).
  assert (1 <= n0 < 1 + 146097) as Hn0
      by (unfold n0; Z.div_mod_to_equations; lia).
  assert (0 <= k <= 24) as Hk by (unfold k; Z.div_mod_to_equations; lia).
  pose proof (@all_from_spec cycle_ok 146097 1 first_cycle_checked n0 Hn0)
    as Hok.
  unfold cycle_ok in Hok.
  repeat (apply andb_true_iff in Hok as [Hok ?]).
  apply Z.eqb_eq in Hok.
  match goal with H : valid_date _ = true |- _ => rename H into Hvalid end.
  match goal with H : (year _ <=? 400) = true |- _ =>
                    apply Z.leb_le in H; rename H into Hy400 end.
  match goal with H : (_ || _) = true |- _ => rename H into Hlast end.
  rewrite Hsplit, fromordinal_period.
  destruct (fromordinal n0) as [y0 m0 d0]. cbn [year month day] in *.
  split.
  - rewrite toordinal_period. lia.
  - unfold valid_date in *. cbn [year month day] in *.
    apply valid_fields_iff in Hvalid as (Hy & Hm & Hd).
    apply valid_fields_iff. rewrite days_in_month_period.
    unfold MINYEAR, MAXYEAR in *. repeat split; lia.
Qed.

Lemma days_before_year_mono (a b : Z) :
  a <= b -> days_before_year a <= days_before_year b.
Proof.
  intros Hab. destruct (Z.eq_dec a b) as [-> | Hne]; [lia |].
  unfold days_before_year. Z.div_mod_to_equations. lia.
Qed.

Ltac calendar :=
  cbv [days_before_month days_in_month DAYS_BEFORE_MONTH DAYS_IN_MONTH
       Z.ltb Z.eqb Z.compare Pos.compare Pos.compare_cont Pos.eqb andb] in *.

Lemma day_of_year_bounds (y m d : Z) :
  1 <= m <= 12 -> 1 <= d <= days_in_month y m ->
  1 <= days_before_month y m + d <= 365 + (if is_leap y then 1 else 0).
Proof.
  intros Hm Hd.
  each_month Hm; calendar; destruct (is_leap y); lia.
Qed.

Lemma days_before_month_next (y m1 m2 : Z) :
  1 <= m1 -> m1 < m2 -> m2 <= 12 ->
  days_before_month y m1 + days_in_month y m1 <= days_before_month y m2.
Proof.
  intros H1 H12 H2.
  assert (1 <= m1 <= 12) as Hm1 by lia.
  assert (1 <= m2 <= 12) as Hm2 by lia.
  each_month Hm1; each_month Hm2; try lia;
    calendar; destruct (is_leap y); lia.
Qed.

Lemma toordinal_lt (d1 d2 : date) :
  valid_date d1 = true -> valid_date d2 = true ->
  date_lt d1 d2 -> toordinal d1 < toordinal d2.
Proof.
  destruct d1 as [y1 m1 dd1], d2 as [y2 m2 dd2].
  unfold valid_date, date_lt, toordinal. simpl. intros Hv1 Hv2 Hlt.
  apply valid_fields_iff in Hv1 as (Hy1 & Hm1 & Hd1).
  apply valid_fields_iff in Hv2 as (Hy2 & Hm2 & Hd2).
  pose proof (@day_of_year_bounds y1 m1 dd1 Hm1 Hd1) as Hb1.
  pose proof (@day_of_year_bounds y2 m2 dd2 Hm2 Hd2) as Hb2.
  destruct Hlt as [Hy | [-> [Hm | [-> Hd]]]].
  - pose proof (days_before_year_succ y1) as Hs.
    pose proof (@days_before_year_mono (y1 + 1) y2 ltac:(lia)) as Hmono.
    lia.
  - pose proof (@days_before_month_next y2 m1 m2 ltac:(lia) Hm ltac:(lia)).
    lia.
  - lia.
Qed.

Lemma date_order_cases (d1 d2 : date) : date_lt d1 d2 \/ d1 = d2 \/ date_lt d2 d1.
Proof.
  destruct d1 as [y1 m1 dd1], d2 as [y2 m2 dd2]. unfold date_lt. simpl.
  destruct (Z.lt_trichotomy y1 y2) as [? | [-> | ?]]; auto.
  destruct (Z.lt_trichotomy m1 m2) as [? | [-> | ?]]; auto 6.
  destruct (Z.lt_trichotomy dd1 dd2) as [? | [-> | ?]]; auto 8.
Qed.

Lemma date_leb_spec (d1 d2 : date) :
  date_leb d1 d2 = true <-> date_lt d1 d2 \/ d1 = d2.
Proof.
  destruct d1 as [y1 m1 dd1], d2 as [y2 m2 dd2].
  unfold date_leb, date_lt. simpl. split.
  - intros H.
    destruct (Z.ltb_spec y1 y2); [auto |].
    destruct (Z.eqb_spec y1 y2); [subst | simpl in H; discriminate].
    destruct (Z.ltb_spec m1 m2); [auto |].
    destruct (Z.eqb_spec m1 m2); [subst | simpl in H; discriminate].
    simpl in H. apply Z.leb_le in H.
    destruct (Z.eq_dec dd1 dd2); [subst; auto |].
    left. right. split; auto. right. split; auto. lia.
  - intros [[Hy | [-> [Hm | [-> Hd]]]] | E].
    + apply Z.ltb_lt in Hy. rewrite Hy. reflexivity.
    + rewrite Z.eqb_refl. apply Z.ltb_lt in Hm. rewrite Hm.
      apply orb_true_r.
    + rewrite !Z.eqb_refl. assert ((dd1 <=? dd2) = true) as -> by (apply Z.leb_le; lia).
      simpl. rewrite !orb_true_r. reflexivity.
    + inversion E; subst. rewrite !Z.eqb_refl, Z.leb_refl. simpl.
      rewrite !orb_true_r. reflexivity.
Qed.

(** On valid dates the order of the triples is the order of the
    ordinals. *)
Lemma date_leb_toordinal (d1 d2 : date) :
  valid_date d1 = true -> valid_date d2 = true ->
  (date_leb d1 d2 = true <-> toordinal d1 <= toordinal d2).
Proof.
  intros Hv1 Hv2. rewrite date_leb_spec. split.
  - intros [Hlt | ->]; [| lia]. pose proof (toordinal_lt Hv1 Hv2 Hlt). lia.
  - intros Hle. destruct (date_order_cases d1 d2) as [? | [? | Hgt]]; auto.
    pose proof (toordinal_lt Hv2 Hv1 Hgt). lia.
Qed.

Lemma toordinal_inj (d1 d2 : date) :
  valid_date d1 = true -> valid_date d2 = true ->
  toordinal d1 = toordinal d2 -> d1 = d2.
Proof.
  intros Hv1 Hv2 E. destruct (date_order_cases d1 d2) as [Hlt | [? | Hgt]]; auto.
  - pose proof (toordinal_lt Hv1 Hv2 Hlt). lia.
  - pose proof (toordinal_lt Hv2 Hv1 Hgt). lia.
Qed.

Lemma toordinal_range (d : date) :
  valid_date d = true -> 1 <= toordinal d <= MAXORDINAL.
Proof.
  intros Hv. split.
  - destruct d as [y m dd]. unfold valid_date in Hv. simpl in Hv.
    apply valid_fields_iff in Hv as (Hy & Hm & Hd).
    pose proof (@day_of_year_bounds y m dd Hm Hd).
    pose proof (@days_before_year_mono 1 y (proj1 Hy)) as Hmono.
    unfold toordinal. simpl. change (days_before_year 1) with 0 in Hmono. lia.
  - change MAXORDINAL with (toordinal (mkdate 9999 12 31)).
    apply date_leb_toordinal; auto.
    destruct d as [y m dd]. unfold valid_date in Hv. simpl in Hv.
    apply valid_fields_iff in Hv as (Hy & Hm & Hd).
    pose proof (days_in_month_le_31 y m).
    apply date_leb_spec. unfold date_lt, MAXYEAR in *. simpl.
    destruct (Z.eq_dec y 9999), (Z.eq_dec m 12), (Z.eq_dec dd 31);
      subst; auto; left; lia.
Qed.

Lemma fromordinal_toordinal (d : date) :
  valid_date d = true -> fromordinal (toordinal d) = d.
Proof.
  intros Hv. pose proof (@toordinal_range d Hv) as Hr.
  destruct (@toordinal_fromordinal (toordinal d) Hr) as [E Hv'].
  apply toordinal_inj; auto.
Qed.

(** X21: for every valid date up to 9999-12-24 the Weekly rule returns
    the valid date exactly seven days later; for the last seven days of
    the year 9999 it raises OverflowError. *)
Theorem weekly_rollover (d : date) :
  valid_date d = true ->
  (date_leb d (mkdate 9999 12 24) = true ->
   exists d', calculate_next_due_date d "Weekly" = Ok d' /\
              valid_date d' = true /\ sub_days d' d = 7) /\
  (date_leb d (mkdate 9999 12 24) = false ->
   calculate_next_due_date d "Weekly"
   = Raise (OverflowError "date value out of range")).
Proof.
  intros Hv. pose proof (@toordinal_range d Hv) as Hr.
  pose proof (@date_leb_toordinal d (mkdate 9999 12 24) Hv eq_refl) as Hle.
  change (toordinal (mkdate 9999 12 24)) with (MAXORDINAL - 7) in Hle.
  unfold calculate_next_due_date, add_days. simpl. unfold MAXORDINAL in *.
  split; intros Hd.
  - apply Hle in Hd.
    assert ((0 <? toordinal d + 7) && (toordinal d + 7 <=? 3652059) = true)
      as -> by lia.
    destruct (@toordinal_fromordinal (toordinal d + 7)) as [E Hv'];
      [unfold MAXORDINAL; lia |].
    eexists. split; [reflexivity |]. split; [exact Hv' |].
    unfold sub_days. lia.
  - assert (~ toordinal d <= 3652059 - 7) as Hn
        by (intros H; apply Hle in H; congruence).
    assert ((0 <? toordinal d + 7) && (toordinal d + 7 <=? 3652059) = false)
      as -> by lia.
    reflexivity.
Qed.

Lemma weekly_rollover_witness :
  (exists d', calculate_next_due_date (mkdate 2024 2 26) "Weekly" = Ok d' /\
              valid_date d' = true /\ sub_days d' (mkdate 2024 2 26) = 7) /\
  calculate_next_due_date (mkdate 9999 12 25) "Weekly"
  = Raise (OverflowError "date value out of range").
Proof.
  split.
  - apply (@weekly_rollover (mkdate 2024 2 26)); reflexivity.
  - apply (@weekly_rollover (mkdate 9999 12 25)); reflexivity.
Defined.

(** ** Writing a date and reading it back *)

Lemma digit_val_digit (n : Z) : digit_val (digit n) = Some (n mod 10).
Proof.
  unfold digit. pose proof (Z.mod_pos_bound n 10 ltac:(lia)) as Hk.
  set (k := n mod 10) in *.
  assert (k = 0 \/ k = 1 \/ k = 2 \/ k = 3 \/ k = 4 \/
          k = 5 \/ k = 6 \/ k = 7 \/ k = 8 \/ k = 9) as Hcases by lia.
  repeat (destruct Hcases as [-> | Hcases]); try reflexivity.
  rewrite Hcases. reflexivity.
Qed.

Lemma two_digits (a b : Z) (r : string) :
  two 0 9 0 9 (String (digit a) (String (digit b) r))
  = Some (10 * (a mod 10) + b mod 10, r).
Proof.
  unfold two, in_range. rewrite !digit_val_digit.
  pose proof (Z.mod_pos_bound a 10 ltac:(lia)).
  pose proof (Z.mod_pos_bound b 10 ltac:(lia)).
  assert ((0 <=? a mod 10) && (a mod 10 <=? 9) = true) as -> by lia.
  assert ((0 <=? b mod 10) && (b mod 10 <=? 9) = true) as -> by lia.
  reflexivity.
Qed.

Lemma directive_Y_pad4 (y : Z) (r : string) :
  0 <= y <= 9999 -> directive_Y (pad4 y ++ r) = Some (y, r).
Proof.
  intros Hy. unfold directive_Y, pad4, pad2. cbn [append].
  rewrite !two_digits. do 2 f_equal.
  Z.div_mod_to_equations. lia.
Qed.

Lemma decimal_year_pad4 (y : Z) : 1000 <= y -> decimal_year y = pad4 y.
Proof.
  intros Hy. unfold decimal_year.
  assert ((y <? 10) = false) as -> by lia.
  assert ((y <? 100) = false) as -> by lia.
  assert ((y <? 1000) = false) as -> by lia.
  reflexivity.
Qed.

(** A year below 1000 is written with fewer than four digits, which [%Y]
    does not read. *)
Lemma directive_Y_short (y : Z) (r : string) :
  y < 1000 -> directive_Y (decimal_year y ++ String "-" r) = None.
Proof.
  intros Hy. unfold decimal_year.
  destruct (y <? 10) eqn:H1; [| destruct (y <? 100) eqn:H2].
  - unfold directive_Y. cbn [append]. unfold two, in_range.
    rewrite digit_val_digit. cbn.
    destruct ((0 <=? y mod 10) && (y mod 10 <=? 9)); reflexivity.
  - unfold directive_Y, pad2. cbn [append]. rewrite two_digits.
    destruct r; reflexivity.
  - assert ((y <? 1000) = true) as -> by lia.
    unfold directive_Y, pad2. cbn [append]. rewrite two_digits.
    unfold two, in_range. rewrite digit_val_digit. cbn.
    destruct ((0 <=? y mod 10) && (y mod 10 <=? 9)); reflexivity.
Qed.

Lemma day_cases (d : Z) :
  1 <= d <= 31 ->
  d = 1 \/ d = 2 \/ d = 3 \/ d = 4 \/ d = 5 \/ d = 6 \/ d = 7 \/ d = 8 \/
  d = 9 \/ d = 10 \/ d = 11 \/ d = 12 \/ d = 13 \/ d = 14 \/ d = 15 \/
  d = 16 \/ d = 17 \/ d = 18 \/ d = 19 \/ d = 20 \/ d = 21 \/ d = 22 \/
  d = 23 \/ d = 24 \/ d = 25 \/ d = 26 \/ d = 27 \/ d = 28 \/ d = 29 \/
  d = 30 \/ d = 31.
Proof. lia. Qed.

Lemma match_ymd_strftime (y m d : Z) :
  1000 <= y <= 9999 -> 1 <= m <= 12 -> 1 <= d <= 31 ->
  match_ymd (strftime_ymd (mkdate y m d)) = Some (y, m, d, "").
Proof.
  intros Hy Hm Hd. unfold match_ymd, strftime_ymd. cbn [year month day].
  rewrite decimal_year_pad4 by lia.
  rewrite directive_Y_pad4 by lia.
  apply day_cases in Hd.
  each_month Hm;
    repeat (destruct Hd as [Hd | Hd]); subst; reflexivity.
Qed.

Lemma strptime_valid (s : string) (d : date) :
  strptime_ymd s = Ok d -> valid_date d = true.
Proof.
  unfold strptime_ymd. destruct (match_ymd s) as [[[[y m] dd] r] |];
    [| discriminate].
  destruct (String.eqb r ""); [| discriminate].
  intros E. apply datetime_date_inv in E as [-> Hv]. exact Hv.
Qed.

Lemma strptime_of_strftime_aux (d : date) :
  valid_date d = true -> 1000 <= year d ->
  strptime_ymd (strftime_ymd d) = Ok d.
Proof.
  destruct d as [y m dd]. unfold valid_date. cbn [year month day].
  intros Hv Hlate.
  pose proof Hv as Hfields. apply valid_fields_iff in Hfields as (Hy & Hm & Hd).
  pose proof (days_in_month_le_31 y m).
  unfold strptime_ymd, MINYEAR, MAXYEAR in *.
  rewrite match_ymd_strftime by lia. cbn [String.eqb].
  apply datetime_date_ok. exact Hv.
Qed.

Lemma strptime_short_year (d : date) :
  year d < 1000 ->
  strptime_ymd (strftime_ymd d)
  = Raise (ValueError "time data does not match format").
Proof.
  intros Hy. unfold strptime_ymd, match_ymd, strftime_ymd.
  change ("-" ++ pad2 (month d) ++ "-" ++ pad2 (day d))%string
    with (String "-" (pad2 (month d) ++ "-" ++ pad2 (day d))%string).
  rewrite directive_Y_short by exact Hy. reflexivity.
Qed.

(** X22: a valid date of the year 1000 or later is read back from its ISO
    form, [strptime] of [strftime] of the date being that date, so that
    two such dates with the same ISO form are the same date.  A date of an
    earlier year is written with fewer than four digits for the year and
    is not read back: [strptime] raises ValueError.  Whatever [strptime]
    returns is a valid date. *)
Theorem strptime_of_strftime (d : date) :
  valid_date d = true ->
  (1000 <= year d -> strptime_ymd (strftime_ymd d) = Ok d) /\
  (year d < 1000 ->
   strptime_ymd (strftime_ymd d)
   = Raise (ValueError "time data does not match format")) /\
  (forall d2, valid_date d2 = true -> 1000 <= year d -> 1000 <= year d2 ->
              strftime_ymd d2 = strftime_ymd d -> d2 = d) /\
  (forall s d2, strptime_ymd s = Ok d2 -> valid_date d2 = true).
Proof.
  intros Hv. split; [| split; [| split]].
  - intros Hlate. apply strptime_of_strftime_aux; assumption.
  - apply strptime_short_year.
  - intros d2 Hv2 Hlate Hlate2 Hsame.
    pose proof (@strptime_of_strftime_aux d2 Hv2 Hlate2) as E2.
    rewrite Hsame, (@strptime_of_strftime_aux d Hv Hlate) in E2.
    inversion E2. reflexivity.
  - intros s d2 E. exact (@strptime_valid s d2 E).
Qed.

Lemma strptime_of_strftime_witness :
  strptime_ymd (strftime_ymd (mkdate 2024 2 29)) = Ok (mkdate 2024 2 29) /\
  strptime_ymd (strftime_ymd (mkdate 999 2 15))
  = Raise (ValueError "time data does not match format").
Proof.
  split.
  - apply (@strptime_of_strftime (mkdate 2024 2 29)); [reflexivity |].
    simpl. lia.
  - apply (@strptime_of_strftime (mkdate 999 2 15)); [reflexivity |].
    simpl. lia.
Defined.

Example strftime_short_year :
  strftime_ymd (mkdate 999 2 15) = "999-02-15" /\
  strftime_ym (mkdate 5 2 15) = "5-02" /\
  strptime_ymd "0999-02-15" = Ok (mkdate 999 2 15).
Proof. vm_compute. auto. Qed.

(** ** Rollovers move forward *)

Lemma weekly_inv (d d' : date) :
  valid_date d = true ->
  calculate_next_due_date d "Weekly" = Ok d' ->
  valid_date d' = true /\ sub_days d' d = 7.
Proof.
  intros Hv E. pose proof (@toordinal_range d Hv) as Hr.
  unfold calculate_next_due_date, add_days in E. simpl in E.
  destruct ((0 <? toordinal d + 7) && (toordinal d + 7 <=? MAXORDINAL)) eqn:Hc;
    [| discriminate].
  inversion E; subst; clear E.
  destruct (@toordinal_fromordinal (toordinal d + 7)) as [Eo Hv']; [lia |].
  split; [exact Hv' |]. unfold sub_days. lia.
Qed.

Lemma frequency_cases (d : date) (f : string) :
  calculate_next_due_date d f = calculate_next_due_date d "Weekly" \/
  calculate_next_due_date d f = calculate_next_due_date d "Monthly" \/
  calculate_next_due_date d f = calculate_next_due_date d "Yearly".
Proof.
  unfold calculate_next_due_date.
  destruct (String.eqb f "Weekly"); auto.
  destruct (String.eqb f "Monthly"); auto.
  destruct (String.eqb f "Yearly"); auto.
Qed.

Lemma rollover_step (d d' : date) (f : string) :
  valid_date d = true ->
  calculate_next_due_date d f = Ok d' ->
  valid_date d' = true /\ 7 <= sub_days d' d.
Proof.
  intros Hv E.
  destruct (frequency_cases d f) as [Hf | [Hf | Hf]]; rewrite Hf in E.
  - destruct (@weekly_inv d d' Hv E) as [Hv' Hd]. split; [exact Hv' | lia].
  - destruct (@monthly_inv d d' Hv E) as [-> Hv']. split; [exact Hv' |].
    pose proof (@next_month_distance d Hv). lia.
  - destruct (@yearly_inv d d' E) as [-> Hv']. split; [exact Hv' |].
    destruct (next_year_distance d); lia.
Qed.

Lemma date_leb_days (today due : date) :
  valid_date today = true -> valid_date due = true ->
  date_leb today due = (0 <=? sub_days due today).
Proof.
  intros Ht Hd. pose proof (@date_leb_toordinal today due Ht Hd) as Hiff.
  unfold sub_days.
  destruct (date_leb today due), (Z.leb_spec 0 (toordinal due - toordinal today));
    auto.
  - assert (toordinal today <= toordinal due) by (apply Hiff; reflexivity). lia.
  - assert (true = false) by (symmetry; apply Hiff; lia). congruence.
Qed.

(** X23: when every due date in the list parses, the dashboard keeps, in
    the same order, exactly the payments for which the scan computes
    [days_until_due >= 0]: a payment is listed as upcoming if and only if
    the scan does not treat it as overdue. *)
Theorem upcoming_is_not_overdue
        (today : date) (payments : list (Z * string * real * string * string)) :
  valid_date today = true ->
  (forall p, In p payments -> is_ok (strptime_ymd (snd (fst p))) = true) ->
  HomePage.upcoming_payments today payments
  = Ok (filter (fun p => match strptime_ymd (snd (fst p)) with
                         | Ok due => 0 <=? sub_days due today
                         | Raise _ => false
                         end) payments).
Proof.
  intros Ht. induction payments as [| p rest IH]; intros Hall; [reflexivity |].
  simpl. pose proof (Hall p (or_introl eq_refl)) as Hp.
  destruct (strptime_ymd (snd (fst p))) as [due | e] eqn:Hparse;
    [| discriminate].
  simpl. rewrite IH by (intros; apply Hall; right; auto). simpl.
  rewrite (@date_leb_days today due Ht (@strptime_valid _ due Hparse)).
  reflexivity.
Qed.

Lemma upcoming_is_not_overdue_witness :
  HomePage.upcoming_payments (mkdate 2024 3 15)
                             (RecurringPayment.get_all 1 store_rent)
  = Ok [] /\
  HomePage.upcoming_payments (mkdate 2024 3 14)
                             (RecurringPayment.get_all 1 store_rent)
  = Ok (RecurringPayment.get_all 1 store_rent).
Proof.
  split.
  - rewrite (@upcoming_is_not_overdue (mkdate 2024 3 15)).
    + reflexivity.
    + reflexivity.
    + intros p [<- | []]. reflexivity.
  - rewrite (@upcoming_is_not_overdue (mkdate 2024 3 14)).
    + reflexivity.
    + reflexivity.
    + intros p [<- | []]. reflexivity.
Defined.

(** X24: a payment marked as paid with today's date is silent afterwards:
    the due date stored for it reads back as a date at least seven days
    after today, so the scan of the same day shows nothing for it and does
    not take its overdue branch. *)
Theorem paid_today_is_silent
        (db db' : DB) (row : RecurringPaymentRow) (today : date) :
  wf db ->
  In row (rows (RecurringPayments db)) ->
  valid_date today = true ->
  RecurringPayment.mark_as_paid (r_id row) (strftime_ymd today)
                                (r_user_id row) db = Ok db' ->
  forall row',
    In row' (rows (RecurringPayments db')) -> r_id row' = r_id row ->
    (exists later, strptime_ymd (r_due_date row') = Ok later /\
                   7 <= sub_days later today) /\
    forall db0, check_payment today (payment_tuple row') db0 = Ok (db0, []).
Proof.
  intros Hwf Hin Ht E row' Hin' Hid.
  pose proof (wf_RecurringPayments Hwf) as Hu.
  unfold RecurringPayment.mark_as_paid in E.
  rewrite (payment_lookup db row Hu Hin) in E.
  destruct (Z.lt_ge_cases (year today) 1000) as [Hearly | Hlate];
    [rewrite (strptime_short_year today Hearly) in E; discriminate |].
  rewrite (@strptime_of_strftime_aux today Ht Hlate) in E. simpl in E.
  destruct (calculate_next_due_date today (r_frequency row)) as [next | e]
    eqn:Hnext; [| discriminate].
  simpl in E. inversion E; subst; clear E. simpl in Hin'.
  destruct (@rollover_step today next (r_frequency row) Ht Hnext)
    as [Hvnext Hdist].
  assert (r_due_date row' = strftime_ymd next) as Hdue.
  { apply in_map_iff in Hin' as (r0 & Hr0 & Hin0).
    assert (r0 = row) as ->.
    { eapply (NoDup_map_inj_on rowid); eauto.
      change (r_id r0 = r_id row). rewrite <- Hid, <- Hr0.
      destruct (RecurringPayment.owned (r_id row) (r_user_id row) r0);
        reflexivity. }
    assert (RecurringPayment.owned (r_id row) (r_user_id row) row = true)
      as Ho by (apply payment_owned_true; auto).
    rewrite Ho in Hr0. rewrite <- Hr0. reflexivity. }
  assert (1000 <= year next) as Hlate'.
  { assert (date_leb today next = true) as Hle
        by (apply date_leb_toordinal; auto; unfold sub_days in Hdist; lia).
    unfold date_leb in Hle. lia. }
  assert (strptime_ymd (r_due_date row') = Ok next) as Hparse
      by (rewrite Hdue; apply strptime_of_strftime_aux; assumption).
  split; [eauto |].
  intros db0. unfold check_payment, payment_tuple. rewrite Hparse. simpl.
  destruct (Z.eqb_spec (sub_days next today) 1); [lia |].
  destruct (Z.eqb_spec (sub_days next today) 0); [lia |].
  destruct (Z.ltb_spec (sub_days next today) 0); [lia | reflexivity].
Qed.

Lemma paid_today_is_silent_witness :
  RecurringPayment.mark_as_paid 1 "2024-03-15" 1 store_rent
  = Ok store_rent_paid_today /\
  check_recurring_payments (mkdate 2024 3 15) 1 store_rent_paid_today
  = (store_rent_paid_today, []).
Proof.
  assert (RecurringPayment.mark_as_paid 1 (strftime_ymd (mkdate 2024 3 15)) 1
                                        store_rent = Ok store_rent_paid_today)
    as E by reflexivity.
  destruct (@paid_today_is_silent
              store_rent store_rent_paid_today
              (mkRecurringPayment 1 "Rent" (money 1200 0)
                                  "2024-03-14" "Monthly" 1)
              (mkdate 2024 3 15)
              (reachable_wf store_rent_reachable) (or_introl eq_refl)
              eq_refl E
              (mkRecurringPayment 1 "Rent" (money 1200 0)
                                  "2024-04-15" "Monthly" 1)
              (or_introl eq_refl) eq_refl) as [_ Hsilent].
  split; [exact E |].
  unfold check_recurring_payments.
  change (RecurringPayment.get_all 1 store_rent_paid_today)
    with [payment_tuple
            (mkRecurringPayment 1 "Rent" (money 1200 0)
                                  "2024-04-15" "Monthly" 1)].
  cbn [for_payments]. rewrite Hsilent. reflexivity.
Defined.

(** ** Repeated rollovers *)

Lemma monthly_next_index (y m dd : Z) :
  1 <= y -> 1 <= m <= 12 -> 1 <= dd <= 28 ->
  12 * y + m <= 12 * 9999 + 11 ->
  calculate_next_due_date (mkdate y m dd) "Monthly"
  = Ok (mkdate ((12 * y + m) / 12) ((12 * y + m) mod 12 + 1) dd).
Proof.
  intros Hy Hm Hd Hmax. unfold calculate_next_due_date.
  cbn [String.eqb Ascii.eqb Bool.eqb year month day].
  replace (y + m / 12) with ((12 * y + m) / 12)
    by (Z.div_mod_to_equations; lia).
  replace (m mod 12 + 1) with ((12 * y + m) mod 12 + 1)
    by (Z.div_mod_to_equations; lia).
  rewrite Z.min_l by lia.
  apply datetime_date_ok. apply valid_fields_iff.
  assert (1 <= (12 * y + m) mod 12 + 1 <= 12) as Hm'
      by (Z.div_mod_to_equations; lia).
  pose proof (days_in_month_ge_28 ((12 * y + m) / 12) Hm').
  unfold MINYEAR, MAXYEAR. repeat split; try lia;
    Z.div_mod_to_equations; lia.
Qed.

(** X25: from a valid date whose day is at most 28, [k] Monthly rollovers
    in a row advance the date by [k] calendar months and keep the day, as
    long as the result is not past December 9999; twelve of them give the
    same day and month of the next year. *)
Theorem monthly_rollovers_advance (k : nat) (d : date) :
  valid_date d = true ->
  day d <= 28 ->
  12 * year d + month d - 1 + Z.of_nat k <= 12 * 9999 + 11 ->
  rollovers k "Monthly" d
  = Ok (mkdate ((12 * year d + month d - 1 + Z.of_nat k) / 12)
               ((12 * year d + month d - 1 + Z.of_nat k) mod 12 + 1)
               (day d)) /\
  (k = 12%nat ->
   rollovers k "Monthly" d = Ok (mkdate (year d + 1) (month d) (day d))).
Proof.
  intros Hv H28 Hmax.
  assert (rollovers k "Monthly" d
          = Ok (mkdate ((12 * year d + month d - 1 + Z.of_nat k) / 12)
                       ((12 * year d + month d - 1 + Z.of_nat k) mod 12 + 1)
                       (day d))) as Hgen.
  { revert d Hv H28 Hmax. induction k as [| k IH]; intros [y m dd] Hv H28 Hmax;
      unfold valid_date in Hv; cbn [year month day] in *;
      apply valid_fields_iff in Hv as (Hy & Hm & Hd); unfold MINYEAR in Hy.
    - cbn [rollovers]. do 2 f_equal.
      + change (Z.of_nat 0) with 0. Z.div_mod_to_equations. lia.
      + change (Z.of_nat 0) with 0. Z.div_mod_to_equations. lia.
    - cbn [rollovers]. rewrite monthly_next_index by lia. cbn [bind].
      assert (1 <= (12 * y + m) mod 12 + 1 <= 12) as Hm'
          by (Z.div_mod_to_equations; lia).
      rewrite IH; cbn [year month day].
      + do 2 f_equal.
        * f_equal. rewrite Nat2Z.inj_succ. Z.div_mod_to_equations. lia.
        * f_equal. f_equal. rewrite Nat2Z.inj_succ.
          Z.div_mod_to_equations. lia.
      + unfold valid_date. cbn [year month day]. apply valid_fields_iff.
        pose proof (days_in_month_ge_28 ((12 * y + m) / 12) Hm').
        unfold MINYEAR, MAXYEAR. rewrite Nat2Z.inj_succ in Hmax.
        repeat split; try lia; Z.div_mod_to_equations; lia.
      + lia.
      + rewrite Nat2Z.inj_succ in Hmax. Z.div_mod_to_equations. lia. }
  split; [exact Hgen |].
  intros ->. rewrite Hgen. destruct d as [y m dd].
  unfold valid_date in Hv. cbn [year month day] in *.
  apply valid_fields_iff in Hv as (Hy & Hm & Hd).
  change (Z.of_nat 12) with 12. do 2 f_equal; Z.div_mod_to_equations; lia.
Qed.

Lemma monthly_rollovers_advance_witness :
  rollovers 12 "Monthly" (mkdate 2024 1 28) = Ok (mkdate 2025 1 28).
Proof.
  apply (@monthly_rollovers_advance 12 (mkdate 2024 1 28)).
  - reflexivity.
  - vm_compute. discriminate.
  - vm_compute. discriminate.
  - reflexivity.
Defined.

(** ** The week of the spending summary *)

(** X26: for every valid date the start of the week exists (the
    subtraction never leaves the range of dates): it is a valid date, a
    Monday, and today is between zero and six days after it. *)
Theorem start_of_week_is_monday (today : date) :
  valid_date today = true ->
  exists monday,
    SpendingSummaryPage.start_of_week today = Ok monday /\
    valid_date monday = true /\
    SpendingSummaryPage.weekday monday = 0 /\
    0 <= sub_days today monday <= 6.
Proof.
  intros Hv. pose proof (@toordinal_range today Hv) as Hr.
  unfold SpendingSummaryPage.start_of_week, SpendingSummaryPage.weekday,
    add_days.
  set (n := toordinal today) in *.
  assert (0 <= (n + 6) mod 7 <= n - 1) as Hw
      by (Z.div_mod_to_equations; lia).
  assert ((0 <? n + - ((n + 6) mod 7))
          && (n + - ((n + 6) mod 7) <=? MAXORDINAL) = true) as -> by lia.
  destruct (@toordinal_fromordinal (n + - ((n + 6) mod 7))) as [E Hv'];
    [lia |].
  eexists. split; [reflexivity |]. split; [exact Hv' |].
  unfold sub_days. fold n. rewrite E. split.
  - Z.div_mod_to_equations. lia.
  - pose proof (Z.mod_pos_bound (n + 6) 7 ltac:(lia)). lia.
Qed.

Lemma start_of_week_is_monday_witness :
  exists monday,
    SpendingSummaryPage.start_of_week (mkdate 2024 3 15) = Ok monday /\
    valid_date monday = true /\
    SpendingSummaryPage.weekday monday = 0 /\
    0 <= sub_days (mkdate 2024 3 15) monday <= 6.
Proof. apply start_of_week_is_monday. reflexivity. Defined.

Example start_of_week_2024_03_15 :
  SpendingSummaryPage.start_of_week (mkdate 2024 3 15)
  = Ok (mkdate 2024 3 11).
Proof. vm_compute. reflexivity. Qed.

(** ** The pages of the expense list *)

Lemma firstn_plus {A : Type} (a b : nat) (l : list A) :
  firstn (a + b)%nat l = firstn a l ++ firstn b (skipn a l).
Proof.
  revert l. induction a as [| a IH]; intros l; simpl; auto.
  destruct l as [| x l]; simpl.
  - rewrite firstn_nil. reflexivity.
  - rewrite IH. reflexivity.
Qed.

Lemma py_slice_nonneg {A : Type} (l : list A) (a b : Z) :
  0 <= a <= b ->
  py_slice l a b = firstn (Z.to_nat (b - a)) (skipn (Z.to_nat a) l).
Proof.
  intros Hab. unfold py_slice, py_index.
  assert ((a <? 0) = false) as -> by lia.
  assert ((b <? 0) = false) as -> by lia.
  set (len := Z.of_nat (List.length l)).
  destruct (Z_lt_ge_dec a len) as [Ha | Ha].
  - rewrite (Z.min_l a len) by lia.
    destruct (Z_lt_ge_dec b len) as [Hb | Hb].
    + rewrite (Z.min_l b len) by lia. reflexivity.
    + rewrite (Z.min_r b len) by lia.
      rewrite !firstn_all2; auto; rewrite length_skipn; unfold len in *; lia.
  - rewrite (Z.min_r a len), (Z.min_r b len) by lia.
    rewrite !(@skipn_all2 A _ l) by (unfold len in *; lia).
    rewrite !firstn_nil. reflexivity.
Qed.

Lemma concat_chunks {A : Type} (n k : nat) (l : list A) :
  List.concat (map (fun i => firstn n (skipn (i * n)%nat l)) (List.seq 0 k))
  = firstn (k * n)%nat l.
Proof.
  induction k as [| k IH]; [reflexivity |].
  rewrite seq_S, map_app, concat_app, IH. simpl.
  rewrite app_nil_r. rewrite <- firstn_plus. f_equal. lia.
Qed.

Lemma display_page_chunk {A : Type} (i : nat) (total : Z) (l : list A) :
  ViewExpensesPage.display_page
    (ViewExpensesPage.mkpager (Z.of_nat (S i)) total) l
  = firstn 20 (skipn (i * 20)%nat l).
Proof.
  unfold ViewExpensesPage.display_page, ViewExpensesPage.PAGE_SIZE.
  cbn [ViewExpensesPage.current_page].
  rewrite py_slice_nonneg by lia. f_equal.
  - lia.
  - f_equal. lia.
Qed.

(** X27: after [refresh] the pager is on page 1 of at least one page; the
    pages 1 to [total_pages], as [display_page] shows them, are the list
    cut into consecutive pieces, so every expense is on exactly one page
    in the order of the list; a page never has more than 20 rows and every
    page before the last has exactly 20; the two buttons keep the page
    number between 1 and [total_pages]. *)
Theorem pages_partition_the_list {A : Type} (expenses : list A) :
  let st := ViewExpensesPage.refresh expenses in
  let total := ViewExpensesPage.total_pages st in
  let page p :=
    ViewExpensesPage.display_page (ViewExpensesPage.mkpager p total) expenses
  in
  ViewExpensesPage.current_page st = 1 /\ 1 <= total /\
  List.concat (map page (map Z.of_nat (List.seq 1 (Z.to_nat total)))) = expenses /\
  (forall p, 1 <= p -> (List.length (page p) <= 20)%nat) /\
  (forall p, 1 <= p < total -> List.length (page p) = 20%nat) /\
  (forall s, 1 <= ViewExpensesPage.current_page s
                  <= ViewExpensesPage.total_pages s ->
             1 <= ViewExpensesPage.current_page (ViewExpensesPage.next_page s)
                  <= ViewExpensesPage.total_pages s /\
             1 <= ViewExpensesPage.current_page (ViewExpensesPage.prev_page s)
                  <= ViewExpensesPage.total_pages s).
Proof.
  intros st total page.
  assert (total = Z.max 1 ((Z.of_nat (List.length expenses) + 20 - 1) / 20))
    as Htotal by reflexivity.
  assert (1 <= total /\ Z.of_nat (List.length expenses) <= 20 * total
          /\ 20 * (total - 1) <= Z.of_nat (List.length expenses)) as Hbounds.
  { rewrite Htotal. Z.div_mod_to_equations. lia. }
  destruct Hbounds as (H1 & Hcover & Hfull).
  split; [reflexivity |]. split; [exact H1 |].
  assert (forall p, 1 <= p ->
                    page p = firstn 20 (skipn (Z.to_nat (p - 1) * 20)%nat expenses))
    as Hpage.
  { intros p Hp. unfold page.
    replace p with (Z.of_nat (S (Z.to_nat (p - 1)))) at 1 by lia.
    apply display_page_chunk. }
  split; [| split; [| split]].
  - rewrite map_map, <- seq_shift, map_map.
    rewrite (map_ext _ (fun i => firstn 20 (skipn (i * 20)%nat expenses)))
      by (intros i; apply display_page_chunk).
    rewrite concat_chunks. apply firstn_all2. lia.
  - intros p Hp. rewrite Hpage by exact Hp. apply firstn_le_length.
  - intros p Hp. rewrite Hpage by lia.
    rewrite length_firstn, length_skipn. lia.
  - intros s Hs.
    unfold ViewExpensesPage.next_page, ViewExpensesPage.prev_page.
    destruct (Z.ltb_spec (ViewExpensesPage.current_page s)
                         (ViewExpensesPage.total_pages s));
      destruct (Z.ltb_spec 1 (ViewExpensesPage.current_page s));
      cbn [ViewExpensesPage.current_page ViewExpensesPage.total_pages]; lia.
Qed.

Example pages_of_45_rows :
  let l := List.seq 0 45 in
  ViewExpensesPage.total_pages (ViewExpensesPage.refresh l) = 3 /\
  ViewExpensesPage.display_page (ViewExpensesPage.mkpager 3 3) l
  = [40; 41; 42; 43; 44]%nat /\
  ViewExpensesPage.total_pages (ViewExpensesPage.refresh (@nil nat)) = 1.
Proof. vm_compute. auto. Qed.

Lemma pages_partition_the_list_witness :
  List.concat
    (map (fun p => ViewExpensesPage.display_page
                     (ViewExpensesPage.mkpager p 3) (List.seq 0 45))
         [1; 2; 3])
  = List.seq 0 45 /\
  List.length (ViewExpensesPage.display_page
                 (ViewExpensesPage.mkpager 2 3) (List.seq 0 45)) = 20%nat.
Proof.
  destruct (pages_partition_the_list (List.seq 0 45))
    as (_ & _ & Hcover & _ & Hfull & _).
  split; [exact Hcover |].
  apply (Hfull 2). vm_compute. split; [discriminate | reflexivity].
Defined.

(** ** Today's expenses on the dashboard *)

Lemma dict_add_keys (c : string) (a : real) (d : list (string * float))
      (k : string) :
  In k (map fst (HomePage.dict_add c a d)) <-> k = c \/ In k (map fst d).
Proof.
  induction d as [| [c' t] d IH]; simpl.
  - intuition.
  - destruct (String.eqb_spec c' c) as [-> | Hne]; simpl.
    + intuition.
    + rewrite IH. intuition.
Qed.

Lemma dict_add_nodup (c : string) (a : real) (d : list (string * float)) :
  NoDup (map fst d) -> NoDup (map fst (HomePage.dict_add c a d)).
Proof.
  induction d as [| [c' t] d IH]; simpl; intros Hnd.
  - constructor; [intros [] | constructor].
  - inversion Hnd as [| ? ? Hc' Hd]; subst.
    destruct (String.eqb_spec c' c) as [-> | Hne]; simpl.
    + constructor; auto.
    + constructor; auto. rewrite dict_add_keys. intros [-> | Hin]; auto.
Qed.

(** The total a key starts from: what the dict holds, or the [0] a new
    key is given. *)
Lemma dict_get_add (c : string) (a : real) (d : list (string * float))
      (k : string) :
  dict_get k (HomePage.dict_add c a d)
  = if String.eqb c k
    then Some (Float.add (dict_start c d) (to_float a))
    else dict_get k d.
Proof.
  unfold dict_start.
  induction d as [| [c' t] d IH]; cbn [HomePage.dict_add dict_get].
  - destruct (String.eqb c k); reflexivity.
  - destruct (String.eqb_spec c' c) as [-> | Hne]; cbn [dict_get].
    + destruct (String.eqb c k); reflexivity.
    + rewrite IH.
      destruct (String.eqb_spec c' k) as [-> | Hk]; [| reflexivity].
      assert (String.eqb c k = false) as ->
          by (apply String.eqb_neq; congruence).
      reflexivity.
Qed.

Lemma dict_add_order (c : string) (a : real) (d : list (string * float)) :
  map fst (HomePage.dict_add c a d) = see (map fst d) c.
Proof.
  unfold see. induction d as [| [c' t] d IH]; [reflexivity |].
  cbn [HomePage.dict_add map fst existsb].
  destruct (String.eqb c' c); [reflexivity |].
  cbn [map fst orb]. rewrite IH.
  destruct (existsb (fun k => String.eqb k c) (map fst d)); reflexivity.
Qed.

Section Accumulate.

Let step (categories : list (string * float))
    (expense : Z * string * string * real) :=
  HomePage.dict_add (snd (fst expense)) (snd expense) categories.

Let amounts_of (k : string) (l : list (Z * string * string * real)) :=
  map snd (filter (fun e => String.eqb (snd (fst e)) k) l).

Lemma accumulate_keys (l : list (Z * string * string * real))
      (d : list (string * float)) :
  NoDup (map fst d) ->
  NoDup (map fst (fold_left step l d)) /\
  (forall k, In k (map fst (fold_left step l d)) <->
             In k (map fst d) \/ In k (map (fun e => snd (fst e)) l)) /\
  map fst (fold_left step l d)
  = fold_left see (map (fun e => snd (fst e)) l) (map fst d).
Proof.
  revert d. induction l as [| e l IH]; intros d Hnd; simpl.
  - split; auto. split; [tauto | reflexivity].
  - destruct (IH (step d e) (dict_add_nodup _ _ d Hnd))
      as (Hnd' & Hkeys & Horder).
    split; [exact Hnd' |]. split.
    + intros k. rewrite Hkeys. unfold step at 1. rewrite dict_add_keys.
      intuition.
    + rewrite Horder. unfold step at 1. rewrite dict_add_order. reflexivity.
Qed.

(** After the loop a key holds what it started from plus, one after the
    other, the amounts of the list under that key. *)
Lemma accumulate_get (l : list (Z * string * string * real))
      (d : list (string * float)) (k : string) :
  dict_get k (fold_left step l d)
  = match amounts_of k l with
    | [] => dict_get k d
    | _ :: _ =>
        Some (fold_left (fun acc a => Float.add acc (to_float a))
                        (amounts_of k l) (dict_start k d))
    end.
Proof.
  revert d. induction l as [| e l IH]; intros d; [reflexivity |].
  change (fold_left step (e :: l) d) with (fold_left step l (step d e)).
  rewrite IH.
  pose proof (dict_get_add (snd (fst e)) (snd e) d k) as Hget.
  fold (step d e) in Hget.
  assert (dict_start k (step d e)
          = if String.eqb (snd (fst e)) k
            then Float.add (dict_start (snd (fst e)) d) (to_float (snd e))
            else dict_start k d) as Hstart
      by (unfold dict_start at 1; rewrite Hget;
          destruct (String.eqb (snd (fst e)) k); reflexivity).
  rewrite Hget, Hstart. unfold amounts_of. cbn [filter].
  destruct (String.eqb_spec (snd (fst e)) k) as [E | Hne]; [| reflexivity].
  cbn [map fold_left]. rewrite E.
  destruct (map snd (filter (fun e0 => String.eqb (snd (fst e0)) k) l));
    reflexivity.
Qed.
End Accumulate.

Lemma dict_get_of_entry (c : string) (t : float) (d : list (string * float)) :
  NoDup (map fst d) -> In (c, t) d -> dict_get c d = Some t.
Proof.
  induction d as [| [c' t'] d IH]; simpl; intros Hnd Hin; [destruct Hin |].
  inversion Hnd as [| ? ? Hc' Hd]; subst.
  destruct Hin as [E | Hin].
  - inversion E; subst. rewrite String.eqb_refl. reflexivity.
  - destruct (String.eqb_spec c' c) as [-> | Hne].
    + exfalso. apply Hc'. apply (in_map fst) in Hin. exact Hin.
    + apply IH; auto.
Qed.

(** X28: the dashboard shows one label per category that has an expense
    dated today, in the order the categories first occur among today's
    expenses, and the total on a label is the floating-point sum of
    today's amounts in that category, taken from [0] in the order of the
    list. *)
Theorem todays_totals_by_category
        (today : string) (expenses : list (Z * string * string * real)) :
  let todays :=
    filter (fun e => String.eqb (snd (fst (fst e))) today) expenses in
  let labels := HomePage.todays_totals today expenses in
  NoDup (map fst labels) /\
  map fst labels = first_seen (map (fun e => snd (fst e)) todays) /\
  (forall c, In c (map fst labels) <->
             exists e, In e todays /\ snd (fst e) = c) /\
  (forall c total,
      In (c, total) labels ->
      total = float_sum (map snd
                             (filter (fun e => String.eqb (snd (fst e)) c)
                                     todays))).
Proof.
  intros todays labels.
  destruct (accumulate_keys todays [] (NoDup_nil _)) as (Hnd & Hkeys & Horder).
  fold (HomePage.todays_totals today expenses) in *.
  unfold labels, HomePage.todays_totals. fold todays.
  split; [exact Hnd |]. split; [exact Horder |]. split.
  - intros c. rewrite Hkeys. simpl. rewrite in_map_iff.
    split; [intros [[] | (e & Hc & He)] | intros (e & He & Hc)]; eauto.
  - intros c total Hin.
    pose proof (dict_get_of_entry c total _ Hnd Hin) as Hget.
    rewrite accumulate_get in Hget.
    destruct (map snd (filter (fun e => String.eqb (snd (fst e)) c) todays))
      as [| a l] eqn:E; [discriminate |].
    inversion Hget. reflexivity.
Qed.

Lemma todays_totals_by_category_witness :
  HomePage.todays_totals "2024-03-09"
                         (Expense.get_all 1 store_over_budget)
  = [("Food", to_float (money 200 0))] /\
  NoDup (map fst (HomePage.todays_totals
                    "2024-03-09" (Expense.get_all 1 store_over_budget))).
Proof.
  split; [vm_compute; reflexivity |].
  exact (proj1 (todays_totals_by_category
                  "2024-03-09" (Expense.get_all 1 store_over_budget))).
Defined.

(** A label adds its amounts in the order of the list: two tenths and one
    tenth under one category give the rounded total. *)
Example todays_totals_round :
  HomePage.todays_totals
    "2024-03-09"
    [(1, "2024-03-09", "Food", money 0 10);
     (2, "2024-03-09", "Rent", money 300 0);
     (3, "2024-03-09", "Food", money 0 20)]
  = [("Food", S754_finite false 5404319552844596 (-54));
     ("Rent", to_float (money 300 0))].
Proof. vm_compute. reflexivity. Qed.

(** ** ISO dates compare as text the way the dates compare *)

Lemma compare_digit (a b : Z) :
  Ascii.compare (digit a) (digit b) = (a mod 10 ?= b mod 10).
Proof.
  unfold digit.
  pose proof (Z.mod_pos_bound a 10 ltac:(lia)) as Ha.
  pose proof (Z.mod_pos_bound b 10 ltac:(lia)) as Hb.
  set (x := a mod 10) in *. set (y := b mod 10) in *.
  assert (x = 0 \/ x = 1 \/ x = 2 \/ x = 3 \/ x = 4 \/
          x = 5 \/ x = 6 \/ x = 7 \/ x = 8 \/ x = 9) as Hx by lia.
  assert (y = 0 \/ y = 1 \/ y = 2 \/ y = 3 \/ y = 4 \/
          y = 5 \/ y = 6 \/ y = 7 \/ y = 8 \/ y = 9) as Hy by lia.
  clearbody x y. clear Ha Hb.
  repeat (destruct Hx as [Hx | Hx]); subst x;
    repeat (destruct Hy as [Hy | Hy]); subst y; reflexivity.
Qed.

Lemma compare_pad2 (a b : Z) (s t : string) :
  0 <= a <= 99 -> 0 <= b <= 99 ->
  String.compare (pad2 a ++ s) (pad2 b ++ t)
  = match a ?= b with
    | Eq => String.compare s t
    | c => c
    end.
Proof.
  intros Ha Hb. unfold pad2. cbn [append String.compare].
  rewrite !compare_digit.
  destruct (Z.compare_spec ((a / 10) mod 10) ((b / 10) mod 10)) as [E1 | L1 | G1];
    [destruct (Z.compare_spec (a mod 10) (b mod 10)) as [E2 | L2 | G2] | |];
    destruct (Z.compare_spec a b) as [E | L | G]; try reflexivity;
    exfalso; Z.div_mod_to_equations; lia.
Qed.

Lemma compare_pad4 (a b : Z) (s t : string) :
  0 <= a <= 9999 -> 0 <= b <= 9999 ->
  String.compare (pad4 a ++ s) (pad4 b ++ t)
  = match a ?= b with
    | Eq => String.compare s t
    | c => c
    end.
Proof.
  intros Ha Hb.
  assert (forall n r,
             (pad4 n ++ r)%string = (pad2 (n / 100) ++ (pad2 (n mod 100) ++ r))%string)
    as Hsplit.
  { intros n r. unfold pad4, pad2. cbn [append].
    replace (n / 100 / 10) with (n / 1000)
      by (rewrite Z.div_div by lia; reflexivity).
    unfold digit.
    replace ((n mod 100 / 10) mod 10) with ((n / 10) mod 10)
      by (Z.div_mod_to_equations; lia).
    replace ((n mod 100) mod 10) with (n mod 10)
      by (Z.div_mod_to_equations; lia).
    reflexivity. }
  rewrite !Hsplit.
  rewrite compare_pad2 by (Z.div_mod_to_equations; lia).
  rewrite compare_pad2 by (Z.div_mod_to_equations; lia).
  destruct (Z.compare_spec (a / 100) (b / 100)) as [E1 | L1 | G1];
    [destruct (Z.compare_spec (a mod 100) (b mod 100)) as [E2 | L2 | G2] | |];
    destruct (Z.compare_spec a b) as [E | L | G]; try reflexivity;
    exfalso; Z.div_mod_to_equations; lia.
Qed.

Lemma strftime_compare (d1 d2 : date) :
  valid_date d1 = true -> valid_date d2 = true ->
  1000 <= year d1 -> 1000 <= year d2 ->
  (strftime_ymd d1 <=? strftime_ymd d2)%string = date_leb d1 d2.
Proof.
  destruct d1 as [y1 m1 dd1], d2 as [y2 m2 dd2].
  unfold valid_date. cbn [year month day]. intros Hv1 Hv2 Hl1 Hl2.
  apply valid_fields_iff in Hv1 as (Hy1 & Hm1 & Hd1).
  apply valid_fields_iff in Hv2 as (Hy2 & Hm2 & Hd2).
  pose proof (days_in_month_le_31 y1 m1).
  pose proof (days_in_month_le_31 y2 m2).
  unfold MINYEAR, MAXYEAR in *.
  unfold String.leb, strftime_ymd, date_leb. cbn [year month day].
  rewrite !decimal_year_pad4 by lia.
  rewrite compare_pad4 by lia.
  change ("-" ++ pad2 m1 ++ "-" ++ pad2 dd1)%string
    with (String "-" (pad2 m1 ++ String "-" (pad2 dd1 ++ ""))).
  change ("-" ++ pad2 m2 ++ "-" ++ pad2 dd2)%string
    with (String "-" (pad2 m2 ++ String "-" (pad2 dd2 ++ ""))).
  cbn [String.compare].
  change (Ascii.compare "-" "-") with Eq. cbv iota.
  rewrite compare_pad2 by lia. cbn [String.compare].
  change (Ascii.compare "-" "-") with Eq. cbv iota.
  rewrite compare_pad2 by lia. cbn [String.compare].
  destruct (Z.compare_spec y1 y2); [| lia | lia].
  destruct (Z.compare_spec m1 m2); [| lia | lia].
  destruct (Z.compare_spec dd1 dd2); lia.
Qed.

(** X29: the ISO forms of two valid dates of the year 1000 or later
    compare as TEXT exactly as the dates compare, so ORDER BY and
    [date >= ?] on such strings follow the calendar. *)
Theorem iso_dates_sort_as_dates (d1 d2 : date) :
  valid_date d1 = true -> valid_date d2 = true ->
  1000 <= year d1 -> 1000 <= year d2 ->
  ((strftime_ymd d1 <=? strftime_ymd d2)%string = true
   <-> toordinal d1 <= toordinal d2) /\
  (strftime_ymd d1 <=? strftime_ymd d2)%string = date_leb d1 d2.
Proof.
  intros Hv1 Hv2 Hl1 Hl2. rewrite (strftime_compare d1 d2 Hv1 Hv2 Hl1 Hl2).
  split; [| reflexivity]. apply date_leb_toordinal; assumption.
Qed.

Lemma iso_dates_sort_as_dates_witness :
  ("2024-02-29" <=? "2024-03-01")%string = true /\
  ("2024-03-01" <=? "2024-02-29")%string
  = date_leb (mkdate 2024 3 1) (mkdate 2024 2 29).
Proof.
  split.
  - apply (@iso_dates_sort_as_dates (mkdate 2024 2 29) (mkdate 2024 3 1));
      try reflexivity; vm_compute; discriminate.
  - apply (@iso_dates_sort_as_dates (mkdate 2024 3 1) (mkdate 2024 2 29));
      try reflexivity; vm_compute; discriminate.
Defined.

(** The year 999 is written with three digits and sorts after the year
    1000. *)
Example iso_year_999 :
  (strftime_ymd (mkdate 1000 1 1) <=? strftime_ymd (mkdate 999 12 31))%string
  = true /\
  date_leb (mkdate 1000 1 1) (mkdate 999 12 31) = false.
Proof. vm_compute. auto. Qed.

(** ** The totals of the spending summary *)

(** A later start counts fewer rows. *)
Lemma since_antitone (s1 s2 : string) (u : Z) (e : ExpenseRow) :
  (s1 <=? s2)%string = true ->
  Expense.since s2 u e = true -> Expense.since s1 u e = true.
Proof.
  intros H12. unfold Expense.since. rewrite !andb_true_iff.
  intros [Hs Hu]. split; auto. apply (leb_trans _ _ _ H12 Hs).
Qed.

Lemma start_of_week_before (today : date) :
  valid_date today = true ->
  exists monday,
    SpendingSummaryPage.start_of_week today = Ok monday /\
    valid_date monday = true /\ date_leb monday today = true.
Proof.
  intros Hv. pose proof (@toordinal_range today Hv) as Hr.
  unfold SpendingSummaryPage.start_of_week, SpendingSummaryPage.weekday,
    add_days.
  assert (0 <= (toordinal today + 6) mod 7 <= toordinal today - 1) as Hw
      by (Z.div_mod_to_equations; lia).
  assert ((0 <? toordinal today + - ((toordinal today + 6) mod 7))
          && (toordinal today + - ((toordinal today + 6) mod 7)
              <=? MAXORDINAL) = true) as -> by lia.
  destruct (@toordinal_fromordinal
              (toordinal today + - ((toordinal today + 6) mod 7)))
    as [E Hv']; [lia |].
  eexists. split; [reflexivity |]. split; [exact Hv' |].
  apply date_leb_toordinal; auto. lia.
Qed.

(** X30: for a valid date of the year 1000 or later the spending summary
    computes its four totals without an exception, each the spending since
    the start of its period, and the periods nest: an expense counted for
    today is counted for this month, one counted for this month is counted
    for this year, and, when the Monday of this week is not before the
    year 1000, one counted for today is counted for this week. *)
Theorem summary_totals_nest (today : date) (u : Z) (db : DB) :
  valid_date today = true ->
  1000 <= year today ->
  exists monday,
    SpendingSummaryPage.start_of_week today = Ok monday /\
    SpendingSummaryPage.totals today u db
    = Ok (Expense.get_spending_since (strftime_ymd today) u db,
          Expense.get_spending_since (strftime_ymd monday) u db,
          Expense.get_spending_since (strftime_ymd (replace_day1 today)) u db,
          Expense.get_spending_since
            (strftime_ymd (SpendingSummaryPage.start_of_year today)) u db) /\
    forall e,
      (Expense.since (strftime_ymd today) u e = true ->
       Expense.since (strftime_ymd (replace_day1 today)) u e = true) /\
      (Expense.since (strftime_ymd (replace_day1 today)) u e = true ->
       Expense.since (strftime_ymd (SpendingSummaryPage.start_of_year today))
                     u e = true) /\
      (1000 <= year monday ->
       Expense.since (strftime_ymd today) u e = true ->
       Expense.since (strftime_ymd monday) u e = true).
Proof.
  intros Hv Hlate.
  destruct (start_of_week_before today Hv) as (monday & Hweek & Hvm & Hle).
  exists monday. split; [exact Hweek |].
  unfold SpendingSummaryPage.totals. rewrite Hweek. cbn [bind].
  split; [reflexivity |].
  destruct today as [y m dd]. unfold valid_date in Hv.
  cbn [year month day] in Hv, Hlate. pose proof Hv as Hf.
  apply valid_fields_iff in Hf as (Hy & Hm & Hd).
  assert (valid_date (replace_day1 (mkdate y m dd)) = true) as Hv1.
  { unfold valid_date, replace_day1. cbn [year month day].
    apply valid_fields_iff. pose proof (days_in_month_ge_28 y Hm). lia. }
  assert (valid_date (SpendingSummaryPage.start_of_year (mkdate y m dd)) = true)
    as Hvy.
  { unfold valid_date, SpendingSummaryPage.start_of_year.
    cbn [year month day]. apply valid_fields_iff.
    pose proof (@days_in_month_ge_28 y 1 ltac:(lia)). lia. }
  intros e. split; [| split].
  - apply since_antitone.
    rewrite strftime_compare by assumption.
    apply date_leb_spec. unfold date_lt, replace_day1. cbn [year month day].
    destruct (Z.eq_dec dd 1) as [-> | Hne]; [right; reflexivity |].
    left. right. split; auto. right. split; auto. lia.
  - apply since_antitone.
    rewrite strftime_compare by assumption.
    apply date_leb_spec.
    unfold date_lt, replace_day1, SpendingSummaryPage.start_of_year.
    cbn [year month day].
    destruct (Z.eq_dec m 1) as [-> | Hne]; [right; reflexivity |].
    left. right. split; auto. left. lia.
  - intros Hlm. apply since_antitone.
    rewrite strftime_compare by assumption. exact Hle.
Qed.

Lemma summary_totals_nest_witness :
  exists monday,
    SpendingSummaryPage.start_of_week (mkdate 2024 3 15) = Ok monday /\
    SpendingSummaryPage.totals (mkdate 2024 3 15) 1 store_over_budget
    = Ok (Expense.get_spending_since "2024-03-15" 1 store_over_budget,
          Expense.get_spending_since (strftime_ymd monday) 1 store_over_budget,
          Expense.get_spending_since "2024-03-01" 1 store_over_budget,
          Expense.get_spending_since "2024-01-01" 1 store_over_budget).
Proof.
  destruct (@summary_totals_nest (mkdate 2024 3 15) 1 store_over_budget
                                 eq_refl ltac:(simpl; lia))
    as (monday & Hweek & Htotals & _).
  exists monday. split; [exact Hweek | exact Htotals].
Defined.

Example summary_totals_example :
  SpendingSummaryPage.totals (mkdate 2024 3 15) 1 store_over_budget
  = Ok (to_float (money 0 1), to_float (money 0 1),
        S754_finite false 8796268944068444 (-44),
        S754_finite false 8796268944068444 (-44)).
Proof. vm_compute. reflexivity. Qed.

(** On the first days of the year 1000 the Monday of the week is written
    with three digits for its year, and an expense of today is not counted
    for the week. *)
Example summary_week_of_year_1000 :
  SpendingSummaryPage.start_of_week (mkdate 1000 1 1)
  = Ok (mkdate 999 12 30) /\
  Expense.since "1000-01-01" 1 (mkExpense 1 "1000-01-01" "Food" (money 5 0) 1)
  = true /\
  Expense.since (strftime_ymd (mkdate 999 12 30)) 1
                (mkExpense 1 "1000-01-01" "Food" (money 5 0) 1)
  = false.
Proof. vm_compute. auto. Qed.
